(** * G233 SPI flash driver: interrupt handler, transfer engine, chip select

    A shallow embedding of the bare-metal SPI test programs

      - tests/gevico/tcg/riscv64/test-flash-read-interrupt.c
        (module [Interrupt]: interrupt-driven transfers to one flash), and
      - tests/gevico/tcg/riscv64/test-spi-cs.c
        (module [DualCS]: polled transfers to two flashes on two chip selects),

    followed by the properties of the driver that are checked against them.
    Further modules embed the remaining flash commands of both programs
    ([InterruptExt], [DualCSExt]), the unbounded polled transfer of
    test-spi-jedec.c ([Jedec]) and the reference functions of the
    custom-instruction tests: [pack_low4bits] and [split_to_4bits]
    ([Nibbles]), [bubble_sort] ([Sort]) and [transpose] ([Dma]).

    C data is modelled as follows.  [int] and [uint32_t] values are integers
    in [Z] with the wrap-around written out ([wrap_int], [to_u32]); bytes are
    integers in [0, 256); a buffer reached through a pointer is the list of
    its bytes, and an access outside the list is undefined behaviour
    ([Undef]).  Memory-mapped register accesses and the lines printed by the
    LOG macros are recorded, oldest first, in a trace of [event]s.  What the
    hardware answers to a register read is an input of the model.  The empty
    delay loops of the programs only pass time and are left out; loops that
    wait for the hardware are bounded in the source, and the model gives
    them that bound as fuel ([Diverge] is shown never to occur).  Only the
    waits of test-spi-jedec.c have no bound: there [Diverge] stands for a
    call that does not return. *)

From Stdlib Require Import ZArith Lia Bool String.
From stdpp Require Import base list sorting.

Local Open Scope Z_scope.

(** ** Outcomes of running C code *)

Inductive outcome (A : Type) : Type :=
| Ret (a : A)      (* the code ran to its end and produced [a] *)
| Undef            (* undefined behaviour: a buffer access out of bounds *)
| Diverge.         (* a loop ran out of the fuel given to the model *)

Arguments Ret {A} a.
Arguments Undef {A}.
Arguments Diverge {A}.

#[global] Instance outcome_ret : MRet outcome := fun _ a => Ret a.
#[global] Instance outcome_bind : MBind outcome := fun _ _ f m =>
  match m with
  | Ret a => f a
  | Undef => Undef
  | Diverge => Diverge
  end.

(** ** C integer arithmetic *)

Definition to_u32 (z : Z) : Z := z mod 2 ^ 32.
Definition wrap_int (z : Z) : Z := (z + 2 ^ 31) mod 2 ^ 32 - 2 ^ 31.
Definition INT_MAX : Z := 2 ^ 31 - 1.
Definition INT_MIN : Z := - 2 ^ 31.
Definition int_range (z : Z) : Prop := INT_MIN <= z <= INT_MAX.

(** A C scalar used as a condition. *)
Definition c_true (z : Z) : bool := negb (z =? 0).
(** [!!x] *)
Definition c_bool (z : Z) : Z := if c_true z then 1 else 0.

(** ** Buffers *)

Definition buf_load (b : list Z) (i : Z) : outcome Z :=
  if 0 <=? i then
    match b !! Z.to_nat i with
    | Some v => Ret v
    | None => Undef
    end
  else Undef.

Definition buf_store (b : list Z) (i v : Z) : outcome (list Z) :=
  if (0 <=? i) && (i <? Z.of_nat (length b)) then Ret (<[Z.to_nat i := v]> b)
  else Undef.

(** ** Registers, commands and events (shared by both programs) *)

Inductive reg : Set := SPI_CR1 | SPI_CR2 | SPI_SR | SPI_DR | SPI_CSCTRL.

Definition SPI_CR2_TXEIE : Z := Z.shiftl 1 7.
Definition SPI_CR2_RXNEIE : Z := Z.shiftl 1 6.
Definition SPI_CR2_ERRIE : Z := Z.shiftl 1 5.

Definition SPI_SR_RXNE : Z := Z.shiftl 1 0.
Definition SPI_SR_TXE : Z := Z.shiftl 1 1.
Definition SPI_SR_UDR : Z := Z.shiftl 1 3.
Definition SPI_SR_OVR : Z := Z.shiftl 1 6.

Definition SPI_CSCTRL_CS0_EN : Z := Z.shiftl 1 0.
Definition SPI_CSCTRL_CS1_EN : Z := Z.shiftl 1 1.
Definition SPI_CSCTRL_CS0_ACT : Z := Z.shiftl 1 4.
Definition SPI_CSCTRL_CS1_ACT : Z := Z.shiftl 1 5.

Definition W25X16_READ_DATA : Z := 0x03.
Definition W25X16_READ_STATUS : Z := 0x05.
Definition W25X16_WRITE_ENABLE : Z := 0x06.
Definition W25X16_PAGE_PROGRAM : Z := 0x02.
Definition W25X16_SECTOR_ERASE : Z := 0x20.
Definition W25X16_READ_JEDEC_ID : Z := 0x9F.

Inductive event : Type :=
| MmioRead (r : reg) (v : Z)
| MmioWrite (r : reg) (v : Z)
| Print (fmt : string) (args : list Z).

(** The LOG macros enabled at the log level of the file (INF); the colour
    escapes and the newline they add are left out. *)
Definition LOG_ERR (fmt : string) (args : list Z) : event :=
  Print ("[ERR] " ++ fmt) args.
Definition LOG_WRN (fmt : string) (args : list Z) : event :=
  Print ("[WRN] " ++ fmt) args.
Definition LOG_INF (fmt : string) (args : list Z) : event :=
  Print ("[INF] " ++ fmt) args.

Definition is_dr_access (e : event) : bool :=
  match e with
  | MmioRead SPI_DR _ | MmioWrite SPI_DR _ => true
  | _ => false
  end.

Definition is_dr_read (e : event) : bool :=
  match e with
  | MmioRead SPI_DR _ => true
  | _ => false
  end.

Definition is_cr2_write (e : event) : bool :=
  match e with
  | MmioWrite SPI_CR2 _ => true
  | _ => false
  end.

(** * test-flash-read-interrupt.c *)

Module Interrupt.

(** [spi_transfer_state_t].  The two buffer fields hold the bytes the
    pointers refer to: the handler writes the caller's receive array through
    [rx_buffer], so the caller reads its array back from this field. *)
Record spi_transfer_state_t : Type := mk_spi_state {
  tx_buffer : list Z;
  rx_buffer : list Z;
  tx_index : Z;
  rx_index : Z;
  total_bytes : Z;
  transfer_complete : Z;
  error_occurred : Z;
  interrupt_count : Z
}.

Definition set_rx_buffer (b : list Z) (s : spi_transfer_state_t) :=
  mk_spi_state (tx_buffer s) b (tx_index s) (rx_index s) (total_bytes s)
    (transfer_complete s) (error_occurred s) (interrupt_count s).
Definition set_tx_index (v : Z) (s : spi_transfer_state_t) :=
  mk_spi_state (tx_buffer s) (rx_buffer s) v (rx_index s) (total_bytes s)
    (transfer_complete s) (error_occurred s) (interrupt_count s).
Definition set_rx_index (v : Z) (s : spi_transfer_state_t) :=
  mk_spi_state (tx_buffer s) (rx_buffer s) (tx_index s) v (total_bytes s)
    (transfer_complete s) (error_occurred s) (interrupt_count s).
Definition set_transfer_complete (v : Z) (s : spi_transfer_state_t) :=
  mk_spi_state (tx_buffer s) (rx_buffer s) (tx_index s) (rx_index s)
    (total_bytes s) v (error_occurred s) (interrupt_count s).
Definition set_error_occurred (v : Z) (s : spi_transfer_state_t) :=
  mk_spi_state (tx_buffer s) (rx_buffer s) (tx_index s) (rx_index s)
    (total_bytes s) (transfer_complete s) v (interrupt_count s).
Definition set_interrupt_count (v : Z) (s : spi_transfer_state_t) :=
  mk_spi_state (tx_buffer s) (rx_buffer s) (tx_index s) (rx_index s)
    (total_bytes s) (transfer_complete s) (error_occurred s) v.

(** What the controller answers during one run of the handler: the status
    and control-2 registers as read at entry, and the data register as it
    would read. *)
Record irq_snapshot : Type := mk_irq {
  hw_sr : Z;
  hw_cr2 : Z;
  hw_dr : Z
}.

(** The receive part of the handler, run when RXNE is enabled and set. *)
Definition handle_rxne (hw : irq_snapshot) (s : spi_transfer_state_t)
  : outcome (spi_transfer_state_t * list event) :=
  let dr := to_u32 (hw_dr hw) in
  let received_byte := Z.land dr 0xFF in
  if rx_index s <? total_bytes s then
    b ← buf_store (rx_buffer s) (rx_index s) received_byte;
    Ret (set_rx_index (wrap_int (rx_index s + 1)) (set_rx_buffer b s),
         [MmioRead SPI_DR dr])
  else Ret (s, [MmioRead SPI_DR dr]).

(** The transmit part of the handler, run when TXE is enabled and set;
    [cr2] is the value read at entry. *)
Definition handle_txe (cr2 : Z) (s : spi_transfer_state_t)
  : outcome (spi_transfer_state_t * list event) :=
  if tx_index s <? total_bytes s then
    b ← buf_load (tx_buffer s) (tx_index s);
    Ret (set_tx_index (wrap_int (tx_index s + 1)) s, [MmioWrite SPI_DR b])
  else if rx_index s <? total_bytes s then
    Ret (s, [MmioWrite SPI_DR 0x00])
  else
    Ret (set_transfer_complete 1 s,
         [MmioWrite SPI_CR2
            (Z.land cr2 (to_u32 (Z.lnot (Z.lor SPI_CR2_TXEIE SPI_CR2_RXNEIE))))]).

(** [spi0_interrupt_handler].  The LOG_DBG lines are compiled out at the
    file's log level and are not modelled. *)
Definition spi0_interrupt_handler (hw : irq_snapshot) (s0 : spi_transfer_state_t)
  : outcome (spi_transfer_state_t * list event) :=
  let sr := to_u32 (hw_sr hw) in
  let cr2 := to_u32 (hw_cr2 hw) in
  let entry := [MmioRead SPI_SR sr; MmioRead SPI_CR2 cr2] in
  let s1 := set_interrupt_count (wrap_int (interrupt_count s0 + 1)) s0 in
  if c_true (Z.land cr2 SPI_CR2_ERRIE)
     && c_true (Z.land sr (Z.lor SPI_SR_UDR SPI_SR_OVR)) then
    Ret (set_error_occurred 1 s1,
         entry ++ [LOG_ERR "IRQ #%d: UDR=%d, OVR=%d"
                     [interrupt_count s1;
                      c_bool (Z.land sr SPI_SR_UDR);
                      c_bool (Z.land sr SPI_SR_OVR)]])
  else
    '(s2, t2) ← (if c_true (Z.land cr2 SPI_CR2_RXNEIE)
                    && c_true (Z.land sr SPI_SR_RXNE)
                 then handle_rxne hw s1 else Ret (s1, []));
    '(s3, t3) ← (if c_true (Z.land cr2 SPI_CR2_TXEIE)
                    && c_true (Z.land sr SPI_SR_TXE)
                 then handle_txe cr2 s2 else Ret (s2, []));
    Ret (s3, entry ++ t2 ++ t3).

(** *** The transfer engine *)

(** When the handler runs during one transfer.  The main line observes the
    context only at the checks of its wait loop, so the interrupts taken
    after the enabling write are grouped by the check that first sees their
    effect: [irq_before_check k] are those delivered before the check made
    with [timeout_count = k], and [irq_before_disable] those delivered
    between the last check and the write that disables the interrupts.
    Each handler run is atomic for the main line. *)
Record irq_schedule : Type := mk_sched {
  irq_before_check : Z -> list irq_snapshot;
  irq_before_disable : list irq_snapshot
}.

(** The schedule of the n-th transfer since start-up. *)
Definition environment : Type := nat -> irq_schedule.

Fixpoint deliver (irqs : list irq_snapshot) (s : spi_transfer_state_t)
  : outcome (spi_transfer_state_t * list event) :=
  match irqs with
  | [] => Ret (s, [])
  | hw :: rest =>
      '(s1, t1) ← spi0_interrupt_handler hw s;
      '(s2, t2) ← deliver rest s1;
      Ret (s2, t1 ++ t2)
  end.

Definition max_timeout : Z := 100000.

(** The condition of the wait loop. *)
Definition wait_cond (s : spi_transfer_state_t) (timeout_count : Z) : bool :=
  negb (c_true (transfer_complete s)) && negb (c_true (error_occurred s))
  && (timeout_count <? max_timeout).

(** The wait loop, from the check made with [timeout_count]; it returns the
    context, the events of the handler runs and the final [timeout_count]. *)
Fixpoint wait_loop (sched : irq_schedule) (fuel : nat) (timeout_count : Z)
    (s : spi_transfer_state_t) : outcome (spi_transfer_state_t * list event * Z) :=
  '(s1, t1) ← deliver (irq_before_check sched timeout_count) s;
  if wait_cond s1 timeout_count then
    match fuel with
    | O => Diverge
    | S fuel' =>
        '(s2, t2, n) ← wait_loop sched fuel' (wrap_int (timeout_count + 1)) s1;
        Ret (s2, t1 ++ t2, n)
    end
  else Ret (s1, t1, timeout_count).

(** The program state outside the handler: the static transfer context, the
    static buffers of [flash_page_program], what has been written to the
    registers and printed so far, and how many transfers were started. *)
Record machine : Type := mk_machine {
  spi_state : spi_transfer_state_t;
  pp_tx_data : list Z;
  pp_rx_data : list Z;
  trace : list event;
  transfers : nat
}.

Definition emit (t : list event) (m : machine) : machine :=
  mk_machine (spi_state m) (pp_tx_data m) (pp_rx_data m) (trace m ++ t)
    (transfers m).

Definition cr2_enable : Z :=
  Z.lor (Z.lor SPI_CR2_TXEIE SPI_CR2_RXNEIE) SPI_CR2_ERRIE.

(** The context as [g233_spi_transfer_interrupt] initialises it. *)
Definition init_state (tx_data rx_data : list Z) (len : Z) : spi_transfer_state_t :=
  mk_spi_state tx_data rx_data 0 0 len 0 0 0.

(** The value returned after the wait loop, with the line printed. *)
Definition transfer_result (s : spi_transfer_state_t) (timeout_count : Z)
  : Z * list event :=
  if c_true (error_occurred s) then
    (-1, [LOG_ERR "Transfer failed due to error" []])
  else if max_timeout <=? timeout_count then
    (-2, [LOG_WRN "Transfer timeout after %d iterations" [max_timeout]])
  else
    (0, [LOG_INF "Transfer completed successfully in %d interrupts"
           [interrupt_count s]]).

(** [g233_spi_transfer_interrupt].  The received bytes are left in
    [rx_buffer (spi_state m)], which stands for the caller's [rx_data]. *)
Definition g233_spi_transfer_interrupt (env : environment)
    (tx_data rx_data : list Z) (len : Z) (m : machine) : outcome (Z * machine) :=
  let sched := env (transfers m) in
  let t0 := [LOG_INF "Starting interrupt-driven SPI transfer (%d bytes)" [len];
             MmioWrite SPI_CR2 cr2_enable] in
  '(s1, t1, timeout_count) ←
     wait_loop sched (Z.to_nat max_timeout) 0 (init_state tx_data rx_data len);
  '(s2, t2) ← deliver (irq_before_disable sched) s1;
  let '(r, t3) := transfer_result s2 timeout_count in
  Ret (r, mk_machine s2 (pp_tx_data m) (pp_rx_data m)
            (trace m ++ t0 ++ t1 ++ t2 ++ [MmioWrite SPI_CR2 0] ++ t3)
            (S (transfers m))).

(** *** Chip select and the flash commands *)

Definition g233_spi_cs_assert (m : machine) : machine :=
  emit [MmioWrite SPI_CSCTRL (Z.lor SPI_CSCTRL_CS0_EN SPI_CSCTRL_CS0_ACT)] m.

Definition g233_spi_cs_deassert (m : machine) : machine :=
  emit [MmioWrite SPI_CSCTRL 0] m.

Definition flash_read_status (env : environment) (m : machine)
  : outcome (Z * machine) :=
  let cmd := W25X16_READ_STATUS in
  let status := 0xFF in
  let m := g233_spi_cs_assert m in
  '(r, m) ← g233_spi_transfer_interrupt env [cmd; 0x00] [0; 0] 2 m;
  '(status, m) ←
     (if r =? 0 then
        b ← buf_load (rx_buffer (spi_state m)) 1; Ret (b, m)
      else
        Ret (status, emit [LOG_ERR "Failed to read flash status" []] m));
  Ret (status, g233_spi_cs_deassert m).

(** [(rx_data[1] << 16) | (rx_data[2] << 8) | rx_data[3]] *)
Definition jedec_of_bytes (b1 b2 b3 : Z) : Z :=
  to_u32 (Z.lor (Z.lor (Z.shiftl b1 16) (Z.shiftl b2 8)) b3).

Definition flash_read_jedec_id (env : environment) (m : machine)
  : outcome (Z * machine) :=
  let cmd := W25X16_READ_JEDEC_ID in
  let jedec_id := 0 in
  let m := emit [LOG_INF "Reading JEDEC ID..." []] m in
  let m := g233_spi_cs_assert m in
  '(r, m) ← g233_spi_transfer_interrupt env [cmd; 0x00; 0x00; 0x00] [0; 0; 0; 0] 4 m;
  '(jedec_id, m) ←
     (if r =? 0 then
        let rx_data := rx_buffer (spi_state m) in
        b0 ← buf_load rx_data 0;
        b1 ← buf_load rx_data 1;
        b2 ← buf_load rx_data 2;
        b3 ← buf_load rx_data 3;
        let id := jedec_of_bytes b1 b2 b3 in
        Ret (id,
             emit [LOG_INF "RX data: %02X %02X %02X %02X" [b0; b1; b2; b3];
                   LOG_INF
                     "JEDEC ID: 0x%06X (Manufacturer: 0x%02X, Device: 0x%04X)"
                     [id; b1; Z.lor (Z.shiftl b2 8) b3]] m)
      else
        Ret (jedec_id, emit [LOG_ERR "Failed to read JEDEC ID" []] m));
  Ret (jedec_id, g233_spi_cs_deassert m).

Definition flash_write_enable (env : environment) (m : machine) : outcome machine :=
  let cmd := W25X16_WRITE_ENABLE in
  let m := g233_spi_cs_assert m in
  '(_, m) ← g233_spi_transfer_interrupt env [cmd] [0] 1 m;
  Ret (g233_spi_cs_deassert m).

Definition busy_retries : Z := 10000.

(** The do-while loop of [flash_wait_busy], entered with [retry_count]. *)
Fixpoint wait_busy_loop (env : environment) (fuel : nat) (retry_count : Z)
    (m : machine) : outcome machine :=
  '(status, m) ← flash_read_status env m;
  let retry_count := wrap_int (retry_count + 1) in
  if busy_retries <? retry_count then
    Ret (emit [LOG_WRN
                 "Flash busy timeout after %d retries, status: 0x%02X"
                 [retry_count; status]] m)
  else if c_true (Z.land status 0x01) then
    match fuel with
    | O => Diverge
    | S fuel' => wait_busy_loop env fuel' retry_count m
    end
  else Ret m.

Definition flash_wait_busy (env : environment) (m : machine) : outcome machine :=
  wait_busy_loop env (Z.to_nat busy_retries) 0 m.

(** The three address bytes, most significant first. *)
Definition addr_bytes (addr : Z) : list Z :=
  [Z.land (Z.shiftr addr 16) 0xFF; Z.land (Z.shiftr addr 8) 0xFF; Z.land addr 0xFF].

(** [flash_sector_erase] up to and including its command transfer; the
    first component is what that transfer returned. *)
Definition sector_erase_command (env : environment) (addr : Z) (m : machine)
  : outcome (Z * machine) :=
  let m := emit [LOG_INF "Erasing sector at address 0x%06X..." [addr]] m in
  let tx_data := W25X16_SECTOR_ERASE :: addr_bytes addr in
  m ← flash_write_enable env m;
  let m := g233_spi_cs_assert m in
  g233_spi_transfer_interrupt env tx_data [0; 0; 0; 0] 4 m.

Definition flash_sector_erase (env : environment) (addr : Z) (m : machine)
  : outcome machine :=
  '(_, m) ← sector_erase_command env addr m;
  let m := g233_spi_cs_deassert m in
  m ← flash_wait_busy env m;
  Ret (emit [LOG_INF "Sector erase completed" []] m).

(** The loop [for (i = 0; i < len; i++) tx_data[4 + i] = data[i]], with [n]
    iterations left. *)
Fixpoint fill_payload (data tx_data : list Z) (i : Z) (n : nat)
  : outcome (list Z) :=
  match n with
  | O => Ret tx_data
  | S n' =>
      b ← buf_load data i;
      tx_data' ← buf_store tx_data (wrap_int (4 + i)) b;
      fill_payload data tx_data' (wrap_int (i + 1)) n'
  end.

Definition set_pp_buffers (tx rx : list Z) (m : machine) : machine :=
  mk_machine (spi_state m) tx rx (trace m) (transfers m).

(** [flash_page_program] up to and including its command transfer. *)
Definition page_program_command (env : environment) (addr : Z) (data : list Z)
    (len : Z) (m : machine) : outcome (Z * machine) :=
  let m := emit [LOG_INF
                   "Programming page at address 0x%06X, length %d bytes..."
                   [addr; len]] m in
  tx0 ← buf_store (pp_tx_data m) 0 W25X16_PAGE_PROGRAM;
  tx1 ← buf_store tx0 1 (Z.land (Z.shiftr addr 16) 0xFF);
  tx2 ← buf_store tx1 2 (Z.land (Z.shiftr addr 8) 0xFF);
  tx3 ← buf_store tx2 3 (Z.land addr 0xFF);
  tx_data ← fill_payload data tx3 0 (Z.to_nat len);
  m ← flash_write_enable env m;
  let m := g233_spi_cs_assert m in
  '(r, m) ← g233_spi_transfer_interrupt env tx_data (pp_rx_data m)
              (wrap_int (4 + len)) m;
  Ret (r, set_pp_buffers tx_data (rx_buffer (spi_state m)) m).

Definition flash_page_program (env : environment) (addr : Z) (data : list Z)
    (len : Z) (m : machine) : outcome machine :=
  '(_, m) ← page_program_command env addr data len m;
  let m := g233_spi_cs_deassert m in
  m ← flash_wait_busy env m;
  Ret (emit [LOG_INF "Page program completed" []] m).

(** The machine at start-up: the statics are zero. *)
Definition boot : machine :=
  mk_machine (mk_spi_state [] [] 0 0 0 0 0 0) (replicate 260 0) (replicate 260 0) [] 0.

End Interrupt.

(** * test-spi-cs.c *)

Module DualCS.

Definition W25X_READ_ID : Z := 0x9F.
Definition W25X16_ID : Z := 0xEF3015.
Definition W25X32_ID : Z := 0xEF3016.
Definition FLASH_CS0 : Z := 0.
Definition FLASH_CS1 : Z := 1.

(** The program state: the content of the chip-select control register, the
    number of register reads made so far, and the trace. *)
Record machine : Type := mk_machine {
  csctrl : Z;
  reads : nat;
  trace : list event
}.

(** What the controller answers to the n-th register read of a run. *)
Definition bus : Type := nat -> Z.

(** Modelled from the spec: the chip-select control register of the SPI
    controller, whose implementation is not among the sources.  By the
    register table (offset 0x10: a per-line enable bit and a per-line active
    bit) it is a plain 32-bit register: a write replaces its content. *)
Definition write_csctrl (v : Z) (m : machine) : machine :=
  mk_machine (to_u32 v) (reads m) (trace m ++ [MmioWrite SPI_CSCTRL (to_u32 v)]).

Definition write_reg (r : reg) (v : Z) (m : machine) : machine :=
  mk_machine (csctrl m) (reads m) (trace m ++ [MmioWrite r (to_u32 v)]).

Definition read_reg (hw : bus) (r : reg) (m : machine) : Z * machine :=
  let v := to_u32 (hw (reads m)) in
  (v, mk_machine (csctrl m) (S (reads m)) (trace m ++ [MmioRead r v])).

(** [printf]; the newline ending the format is left out. *)
Definition printf (fmt : string) (args : list Z) (m : machine) : machine :=
  mk_machine (csctrl m) (reads m) (trace m ++ [Print fmt args]).

Definition g233_spi_cs_assert (cs : Z) (m : machine) : machine :=
  let ctrl := 0 in
  let ctrl :=
    if cs =? FLASH_CS0 then Z.lor SPI_CSCTRL_CS0_EN SPI_CSCTRL_CS0_ACT
    else if cs =? FLASH_CS1 then Z.lor SPI_CSCTRL_CS1_EN SPI_CSCTRL_CS1_ACT
    else ctrl in
  write_csctrl ctrl m.

Definition g233_spi_cs_deassert (m : machine) : machine :=
  write_csctrl 0 m.

Definition poll_retries : Z := 1000.

(** One of the two polling loops of [g233_spi_transfer]:
    [do { sr = SR; retry_count++; if (retry_count > 1000) { printf(warning);
    break; } } while (!(sr & flag));] *)
Fixpoint poll_sr (hw : bus) (flag : Z) (warning : string) (fuel : nat)
    (retry_count : Z) (m : machine) : outcome machine :=
  let '(sr, m) := read_reg hw SPI_SR m in
  let retry_count := wrap_int (retry_count + 1) in
  if poll_retries <? retry_count then Ret (printf warning [] m)
  else if negb (c_true (Z.land sr flag)) then
    match fuel with
    | O => Diverge
    | S fuel' => poll_sr hw flag warning fuel' retry_count m
    end
  else Ret m.

Definition g233_spi_transfer (hw : bus) (data : Z) (m : machine)
  : outcome (Z * machine) :=
  m ← poll_sr hw SPI_SR_TXE "Warning: TX buffer empty timeout"
        (Z.to_nat poll_retries) 0 m;
  let m := write_reg SPI_DR data m in
  m ← poll_sr hw SPI_SR_RXNE "Warning: RX buffer not empty timeout"
        (Z.to_nat poll_retries) 0 m;
  let '(dr, m) := read_reg hw SPI_DR m in
  Ret (Z.land dr 0xFF, m).

(** [flash_read_id].  The three dummy transfers are operands of [|], which C
    leaves unordered; they are taken left to right, the order in which the
    program expects the identification bytes. *)
Definition flash_read_id (hw : bus) (cs : Z) (m : machine) : outcome (Z * machine) :=
  let cmd := W25X_READ_ID in
  let m := g233_spi_cs_assert cs m in
  '(_, m) ← g233_spi_transfer hw cmd m;
  '(b1, m) ← g233_spi_transfer hw 0x00 m;
  '(b2, m) ← g233_spi_transfer hw 0x00 m;
  '(b3, m) ← g233_spi_transfer hw 0x00 m;
  let id := to_u32 (Z.lor (Z.lor (Z.shiftl b1 16) (Z.shiftl b2 8)) b3) in
  Ret (id, g233_spi_cs_deassert m).

End DualCS.

(** * Notions used in the statements *)

Module Notions.
Import Interrupt.

(** The three interrupt conditions, read off the bits of the registers:
    CR2 bit 5 is ERRIE, bit 6 RXNEIE, bit 7 TXEIE; SR bit 0 is RXNE, bit 1
    TXE, bit 3 UDR (underrun), bit 6 OVR (overrun). *)
Definition error_irq (hw : irq_snapshot) : bool :=
  Z.testbit (hw_cr2 hw) 5 && (Z.testbit (hw_sr hw) 3 || Z.testbit (hw_sr hw) 6).
Definition rxne_irq (hw : irq_snapshot) : bool :=
  Z.testbit (hw_cr2 hw) 6 && Z.testbit (hw_sr hw) 0.
Definition txe_irq (hw : irq_snapshot) : bool :=
  Z.testbit (hw_cr2 hw) 7 && Z.testbit (hw_sr hw) 1.

(** The cursor invariant of the transfer context. *)
Definition cursors_in_range (s : spi_transfer_state_t) : Prop :=
  0 <= tx_index s <= total_bytes s /\ 0 <= rx_index s <= total_bytes s.

(** The buffers hold at least [total_bytes] bytes, and [total_bytes] is a
    value of type [int]. *)
Definition buffers_fit (s : spi_transfer_state_t) : Prop :=
  total_bytes s <= Z.of_nat (length (tx_buffer s)) /\
  total_bytes s <= Z.of_nat (length (rx_buffer s)) /\
  total_bytes s <= INT_MAX.

(** Neither flag of the context is set. *)
Definition flags_clear (s : spi_transfer_state_t) : Prop :=
  transfer_complete s = 0 /\ error_occurred s = 0.

(** The invariant of a transfer in flight: the cursors are in range, the
    buffers fit, and [transfer_complete] is 0, or 1 with both cursors at the
    end. *)
Definition transfer_inv (s : spi_transfer_state_t) : Prop :=
  cursors_in_range s /\ buffers_fit s /\
  (transfer_complete s = 0 \/
   transfer_complete s = 1 /\
   tx_index s = total_bytes s /\ rx_index s = total_bytes s).

(** What handler runs leave alone: the length and the transmit bytes are
    fixed, the receive buffer keeps its size, and a flag once set stays
    set. *)
Definition evolves (s s' : spi_transfer_state_t) : Prop :=
  total_bytes s' = total_bytes s /\ tx_buffer s' = tx_buffer s /\
  length (rx_buffer s') = length (rx_buffer s) /\
  (transfer_complete s = 1 -> transfer_complete s' = 1) /\
  (error_occurred s <> 0 -> error_occurred s' <> 0).

(** The context seen by the [j]-th check of the wait loop counted from the
    check made with [timeout_count], when the loop is still running then:
    all interrupts scheduled up to that check have been delivered. *)
Fixpoint ctx_from (sched : irq_schedule) (timeout_count : Z)
    (s : spi_transfer_state_t) (j : nat) : outcome spi_transfer_state_t :=
  '(s1, _) ← deliver (irq_before_check sched timeout_count) s;
  match j with
  | O => Ret s1
  | S j' => ctx_from sched (timeout_count + 1) s1 j'
  end.

Definition is_print (e : event) : bool :=
  match e with
  | Print _ _ => true
  | _ => false
  end.

(** The precondition of a transfer: the length is a non-negative [int] and
    both buffers hold that many bytes. *)
Definition transfer_pre (tx_data rx_data : list Z) (len : Z) : Prop :=
  0 <= len <= INT_MAX /\
  len <= Z.of_nat (length tx_data) /\ len <= Z.of_nat (length rx_data).

(** A write to CR2 of the value some run of the handler read from CR2,
    with TXEIE (bit 7) and RXNEIE (bit 6) cleared and the other bits kept. *)
Definition is_completion_write (e : event) : Prop :=
  exists (hw : irq_snapshot) (v : Z),
    e = MmioWrite SPI_CR2 v /\
    Z.testbit v 7 = false /\ Z.testbit v 6 = false /\
    forall i, 0 <= i < 32 -> i <> 6 -> i <> 7 ->
      Z.testbit v i = Z.testbit (hw_cr2 hw) i.

(** The contexts a transfer can be in: the one set up by
    [g233_spi_transfer_interrupt], and any context a run of the handler
    leaves behind. *)
Inductive reachable (tx_data rx_data : list Z) (len : Z)
  : spi_transfer_state_t -> Prop :=
| reach_init : reachable tx_data rx_data len (init_state tx_data rx_data len)
| reach_irq (s s' : spi_transfer_state_t) (hw : irq_snapshot) (t : list event) :
    reachable tx_data rx_data len s ->
    spi0_interrupt_handler hw s = Ret (s', t) ->
    reachable tx_data rx_data len s'.

(** Sample inputs: a context with both cursors at the end, a context after
    an error, and register snapshots (status, control 2, data). *)
Definition ctx_at_end : spi_transfer_state_t :=
  mk_spi_state [1; 2] [7; 8] 2 2 2 0 0 5.
Definition ctx_after_error : spi_transfer_state_t :=
  mk_spi_state [1; 2] [0; 0] 0 0 2 0 1 1.
Definition snap_txe : irq_snapshot := mk_irq 0x02 0xE0 0x00.
Definition snap_overrun : irq_snapshot := mk_irq 0x41 0xE0 0xAB.

(** A controller that answers a transfer with the bytes [reply]: one
    transmit-empty interrupt, then one interrupt with receive-not-empty and
    transmit-empty per byte, all before the first check of the wait loop. *)
Definition irqs_reply (reply : list Z) : list irq_snapshot :=
  mk_irq 0x02 0xE0 0x00 :: map (fun b => mk_irq 0x03 0xE0 b) reply.
Definition sched_reply (reply : list Z) : irq_schedule :=
  mk_sched (fun k => if k =? 0 then irqs_reply reply else []) [].
(** A controller that reports an overrun at once. *)
Definition sched_overrun : irq_schedule :=
  mk_sched (fun k => if k =? 0 then [snap_overrun] else []) [].
(** An environment that plays the given schedules, then overruns. *)
Definition env_of (scheds : list irq_schedule) : environment :=
  fun n => nth n scheds sched_overrun.

(** An environment in which the write-enable transfer succeeds, the
    command transfer that follows fails with an overrun, and the status
    read after it succeeds and shows the flash idle. *)
Definition env_command_fails : environment :=
  env_of [sched_reply [0x00]; sched_overrun; sched_reply [0x00; 0x00]].

End Notions.

(** * Further functions of test-flash-read-interrupt.c *)

Module InterruptExt.
Import Interrupt.

(** The loop [for (i = 0; i < len; i++) tx_data[4 + i] = 0x00] of
    [flash_read_data], with [n] iterations left. *)
Fixpoint fill_dummy (tx_data : list Z) (i : Z) (n : nat) : outcome (list Z) :=
  match n with
  | O => Ret tx_data
  | S n' =>
      tx_data' ← buf_store tx_data (wrap_int (4 + i)) 0x00;
      fill_dummy tx_data' (wrap_int (i + 1)) n'
  end.

(** The loop [for (i = 0; i < len; i++) data[i] = rx_data[4 + i]] of
    [flash_read_data], with [n] iterations left. *)
Fixpoint copy_payload (rx_data data : list Z) (i : Z) (n : nat)
  : outcome (list Z) :=
  match n with
  | O => Ret data
  | S n' =>
      b ← buf_load rx_data (wrap_int (4 + i));
      data' ← buf_store data i b;
      copy_payload rx_data data' (wrap_int (i + 1)) n'
  end.

(** The two static buffers of [flash_read_data] (260 bytes each; they are
    not those of [flash_page_program]). *)
Record read_statics : Type := mk_read_statics {
  rd_tx_data : list Z;
  rd_rx_data : list Z
}.

(** [flash_read_data]: the caller's [data] comes back as the first
    component.  The LOG_DBG lines are compiled out. *)
Definition flash_read_data (env : environment) (addr : Z) (data : list Z)
    (len : Z) (st : read_statics) (m : machine)
  : outcome (list Z * read_statics * machine) :=
  tx0 ← buf_store (rd_tx_data st) 0 W25X16_READ_DATA;
  tx1 ← buf_store tx0 1 (Z.land (Z.shiftr addr 16) 0xFF);
  tx2 ← buf_store tx1 2 (Z.land (Z.shiftr addr 8) 0xFF);
  tx3 ← buf_store tx2 3 (Z.land addr 0xFF);
  tx_data ← fill_dummy tx3 0 (Z.to_nat len);
  let m := g233_spi_cs_assert m in
  '(r, m) ← g233_spi_transfer_interrupt env tx_data (rd_rx_data st)
              (wrap_int (4 + len)) m;
  let rx_data := rx_buffer (spi_state m) in
  data ← (if r =? 0 then copy_payload rx_data data 0 (Z.to_nat len)
          else Ret data);
  Ret (data, mk_read_statics tx_data rx_data, g233_spi_cs_deassert m).

End InterruptExt.

(** * Notions used in the further statements *)

Module MoreNotions.
Import Interrupt.

(** The values read from, and written to, the data register in a trace. *)
Fixpoint dr_reads (t : list event) : list Z :=
  match t with
  | [] => []
  | MmioRead SPI_DR v :: t' => v :: dr_reads t'
  | _ :: t' => dr_reads t'
  end.

Fixpoint dr_writes (t : list event) : list Z :=
  match t with
  | [] => []
  | MmioWrite SPI_DR v :: t' => v :: dr_writes t'
  | _ :: t' => dr_writes t'
  end.

(** The number of runs of the handler in a trace: each run reads the status
    register once, and nothing else of the interrupt-driven program does. *)
Fixpoint sr_reads (t : list event) : nat :=
  match t with
  | [] => O
  | MmioRead SPI_SR _ :: t' => S (sr_reads t')
  | _ :: t' => sr_reads t'
  end.

(** The low byte kept of a value read from the data register. *)
Definition low_byte (v : Z) : Z := Z.land v 0xFF.

(** How far a transfer of [len] bytes from [tx_data] into [rx_data] has got
    when its context is [s], given the data-register reads and writes made
    so far: the writes are the first [tx_index] bytes of [tx_data], followed
    by dummy zeros once all were sent; the first [rx_index] bytes of the
    receive buffer are the low bytes of the first [rx_index] reads, in
    order; and the receive buffer is untouched from position [len] on. *)
Definition data_path (tx_data rx_data : list Z) (len : Z)
    (s : spi_transfer_state_t) (reads writes : list Z) : Prop :=
  tx_buffer s = tx_data /\ total_bytes s = len /\ len <= INT_MAX /\
  0 <= tx_index s <= len /\ 0 <= rx_index s <= len /\
  (exists k : nat,
     writes = take (Z.to_nat (tx_index s)) tx_data ++ replicate k 0 /\
     (tx_index s < len -> k = O)) /\
  (Z.to_nat (rx_index s) <= length reads)%nat /\
  (rx_index s < len -> length reads = Z.to_nat (rx_index s)) /\
  take (Z.to_nat (rx_index s)) (rx_buffer s) =
    map low_byte (take (Z.to_nat (rx_index s)) reads) /\
  length (rx_buffer s) = length rx_data /\
  drop (Z.to_nat len) (rx_buffer s) = drop (Z.to_nat len) rx_data.

(** The contexts of a transfer with the events of the handler runs that
    led to them. *)
Inductive runs (s0 : spi_transfer_state_t)
  : spi_transfer_state_t -> list event -> Prop :=
| runs_nil : runs s0 s0 []
| runs_irq (s s' : spi_transfer_state_t) (t t' : list event) (hw : irq_snapshot) :
    runs s0 s t ->
    spi0_interrupt_handler hw s = Ret (s', t') ->
    runs s0 s' (t ++ t').

(** Chip-select discipline of a trace, starting with the line active or
    not: [None] if the data register is accessed while the line is not
    active, otherwise whether the line is active at the end.  The line is
    active when bit 4 (CS0 active) of the last value written to the
    chip-select register is set. *)
Fixpoint cs_scan (active : bool) (t : list event) : option bool :=
  match t with
  | [] => Some active
  | MmioWrite SPI_CSCTRL v :: t' => cs_scan (Z.testbit v 4) t'
  | e :: t' => if is_dr_access e && negb active then None else cs_scan active t'
  end.

(** An environment in which every transfer fails at once with an overrun. *)
Definition env_always_overrun : environment := fun _ => Notions.sched_overrun.

(** What a flash operation does to the trace when it keeps the chip-select
    discipline: whatever the line was before, the events it adds access the
    data register only while the line is active, and leave it inactive. *)
Definition cs_disciplined (m m' : machine) : Prop :=
  exists t, trace m' = trace m ++ t /\ forall a, cs_scan a t = Some false.

(** The line printed when the busy wait gives up. *)
Definition busy_timeout_line (status : Z) : event :=
  LOG_WRN "Flash busy timeout after %d retries, status: 0x%02X" [10001; status].


(** The trace added between [m] and [m'] takes the chip-select line from
    [a] to [b] without a data-register access while it is inactive. *)
Definition cs_from (a b : bool) (m m' : machine) : Prop :=
  exists t, trace m' = trace m ++ t /\ cs_scan a t = Some b.

(** The flash commands of the interrupt-driven program, with their
    arguments, and a run of one of them (its result dropped). *)
Inductive flash_command : Type :=
| ReadStatus
| ReadJedecId
| WriteEnable
| WaitBusy
| SectorErase (addr : Z)
| PageProgram (addr : Z) (data : list Z) (len : Z)
| ReadData (addr : Z) (data : list Z) (len : Z) (st : InterruptExt.read_statics).

Definition run_command (env : environment) (c : flash_command) (m : machine)
  : outcome machine :=
  match c with
  | ReadStatus => '(_, m') ← flash_read_status env m; Ret m'
  | ReadJedecId => '(_, m') ← flash_read_jedec_id env m; Ret m'
  | WriteEnable => flash_write_enable env m
  | WaitBusy => flash_wait_busy env m
  | SectorErase addr => flash_sector_erase env addr m
  | PageProgram addr data len => flash_page_program env addr data len m
  | ReadData addr data len st =>
      '(_, m') ← InterruptExt.flash_read_data env addr data len st m; Ret m'
  end.


End MoreNotions.

(** * Further functions of test-spi-cs.c *)

Module DualCSExt.
Import DualCS.

Definition W25X_READ_DATA : Z := 0x03.
Definition W25X_READ_STATUS : Z := 0x05.
Definition W25X_WRITE_ENABLE : Z := 0x06.
Definition W25X_PAGE_PROGRAM : Z := 0x02.
Definition W25X_SECTOR_ERASE : Z := 0x20.

(** The delay loops [for (volatile int i = 0; i < 1000; i++);] of this
    program touch no register and print nothing; they leave the machine as
    it is and are not written out below. *)

Definition flash_read_status (hw : bus) (cs : Z) (m : machine)
  : outcome (Z * machine) :=
  let cmd := W25X_READ_STATUS in
  let m := g233_spi_cs_assert cs m in
  '(_, m) ← g233_spi_transfer hw cmd m;
  '(status, m) ← g233_spi_transfer hw 0x00 m;
  Ret (status, g233_spi_cs_deassert m).

Definition flash_write_enable (hw : bus) (cs : Z) (m : machine) : outcome machine :=
  let cmd := W25X_WRITE_ENABLE in
  let m := g233_spi_cs_assert cs m in
  '(_, m) ← g233_spi_transfer hw cmd m;
  Ret (g233_spi_cs_deassert m).

Definition busy_retries : Z := 10000.

(** The do-while loop of [flash_wait_busy], entered with [retry_count]. *)
Fixpoint wait_busy_loop (hw : bus) (cs : Z) (fuel : nat) (retry_count : Z)
    (m : machine) : outcome machine :=
  '(status, m) ← flash_read_status hw cs m;
  let retry_count := wrap_int (retry_count + 1) in
  if busy_retries <? retry_count then
    Ret (printf "Warning: Flash %d busy timeout" [cs] m)
  else if c_true (Z.land status 0x01) then
    match fuel with
    | O => Diverge
    | S fuel' => wait_busy_loop hw cs fuel' retry_count m
    end
  else Ret m.

Definition flash_wait_busy (hw : bus) (cs : Z) (m : machine) : outcome machine :=
  wait_busy_loop hw cs (Z.to_nat busy_retries) 0 m.

(** The command and address part of the erase, program and read commands:
    [addr_bytes[0] = (addr >> 16) & 0xFF; addr_bytes[1] = (addr >> 8) & 0xFF;
    addr_bytes[2] = addr & 0xFF], then the four transfers of [cmd] and the
    three address bytes. *)
Definition send_command (hw : bus) (cmd addr : Z) (m : machine) : outcome machine :=
  let addr_bytes_0 := Z.land (Z.shiftr addr 16) 0xFF in
  let addr_bytes_1 := Z.land (Z.shiftr addr 8) 0xFF in
  let addr_bytes_2 := Z.land addr 0xFF in
  '(_, m) ← g233_spi_transfer hw cmd m;
  '(_, m) ← g233_spi_transfer hw addr_bytes_0 m;
  '(_, m) ← g233_spi_transfer hw addr_bytes_1 m;
  '(_, m) ← g233_spi_transfer hw addr_bytes_2 m;
  Ret m.

Definition flash_sector_erase (hw : bus) (cs : Z) (addr : Z) (m : machine)
  : outcome machine :=
  let cmd := W25X_SECTOR_ERASE in
  let m := printf "Erasing sector at address 0x%06X on Flash %d..." [addr; cs] m in
  m ← flash_write_enable hw cs m;
  let m := g233_spi_cs_assert cs m in
  m ← send_command hw cmd addr m;
  let m := g233_spi_cs_deassert m in
  m ← flash_wait_busy hw cs m;
  Ret (printf "Sector erase completed on Flash %d" [cs] m).

(** The loop [for (i = 0; i < len; i++) g233_spi_transfer(data[i])], with
    [n] iterations left. *)
Fixpoint send_payload (hw : bus) (data : list Z) (i : Z) (n : nat) (m : machine)
  : outcome machine :=
  match n with
  | O => Ret m
  | S n' =>
      b ← buf_load data i;
      '(_, m) ← g233_spi_transfer hw b m;
      send_payload hw data (wrap_int (i + 1)) n' m
  end.

Definition flash_page_program (hw : bus) (cs : Z) (addr : Z) (data : list Z)
    (len : Z) (m : machine) : outcome machine :=
  let cmd := W25X_PAGE_PROGRAM in
  let m := printf
             "Programming page at address 0x%06X on Flash %d, length %d bytes..."
             [addr; cs; len] m in
  m ← flash_write_enable hw cs m;
  let m := g233_spi_cs_assert cs m in
  m ← send_command hw cmd addr m;
  m ← send_payload hw data 0 (Z.to_nat len) m;
  let m := g233_spi_cs_deassert m in
  m ← flash_wait_busy hw cs m;
  Ret (printf "Page program completed on Flash %d" [cs] m).

(** The loop [for (i = 0; i < len; i++) data[i] = g233_spi_transfer(0x00)],
    with [n] iterations left. *)
Fixpoint recv_payload (hw : bus) (data : list Z) (i : Z) (n : nat) (m : machine)
  : outcome (list Z * machine) :=
  match n with
  | O => Ret (data, m)
  | S n' =>
      '(b, m) ← g233_spi_transfer hw 0x00 m;
      data' ← buf_store data i b;
      recv_payload hw data' (wrap_int (i + 1)) n' m
  end.

(** [flash_read_data]: the caller's [data] comes back as the first
    component. *)
Definition flash_read_data (hw : bus) (cs : Z) (addr : Z) (data : list Z)
    (len : Z) (m : machine) : outcome (list Z * machine) :=
  let cmd := W25X_READ_DATA in
  let m := g233_spi_cs_assert cs m in
  m ← send_command hw cmd addr m;
  '(data, m) ← recv_payload hw data 0 (Z.to_nat len) m;
  Ret (data, g233_spi_cs_deassert m).

End DualCSExt.

(** * Notions used in the statements about test-spi-cs.c *)

Module DualNotions.
Import DualCS DualCSExt.

(** The value [g233_spi_cs_assert] writes to the chip-select register for
    line [cs]. *)
Definition select_value (cs : Z) : Z :=
  csctrl (g233_spi_cs_assert cs (mk_machine 0 0 [])).

(** The events seen on the bus side of the controller: accesses to the data
    register and writes to the chip-select register. *)
Definition is_bus_event (e : event) : bool :=
  match e with
  | MmioRead SPI_DR _ | MmioWrite SPI_DR _ | MmioWrite SPI_CSCTRL _ => true
  | _ => false
  end.

Definition wire (t : list event) : list event := List.filter is_bus_event t.

(** Byte exchanges: each byte of [xs] written to the data register, followed
    by the read of the matching value of [ds] from it. *)
Fixpoint exchange (xs ds : list Z) : list event :=
  match xs, ds with
  | x :: xs', d :: ds' => MmioWrite SPI_DR x :: MmioRead SPI_DR d :: exchange xs' ds'
  | _, _ => []
  end.

(** A chip-select frame: select, exchange bytes, deselect. *)
Definition frame (sel : Z) (xs ds : list Z) : list event :=
  MmioWrite SPI_CSCTRL sel :: exchange xs ds ++ [MmioWrite SPI_CSCTRL 0].

(** The frames of a run of status reads, given the pairs of values read. *)
Definition status_frames (sel : Z) (dss : list (Z * Z)) : list event :=
  concat (map (fun '(d0, d1) => frame sel [W25X_READ_STATUS; 0] [d0; d1]) dss).

(** Device isolation along a trace, for the line whose select value is
    [sel], starting with [cur] in the chip-select register: [None] if a value
    other than [sel] or 0 is written to the chip-select register, or if the
    data register is accessed while the register does not hold [sel];
    otherwise the final content of the register. *)
Fixpoint sel_scan (sel cur : Z) (t : list event) : option Z :=
  match t with
  | [] => Some cur
  | MmioWrite SPI_CSCTRL v :: t' =>
      if (v =? sel) || (v =? 0) then sel_scan sel v t' else None
  | e :: t' =>
      if is_dr_access e && negb (cur =? sel) then None else sel_scan sel cur t'
  end.

(** The number of reads of the status register in a trace. *)
Fixpoint sr_polls (t : list event) : nat :=
  match t with
  | [] => O
  | MmioRead SPI_SR _ :: t' => S (sr_polls t')
  | _ :: t' => sr_polls t'
  end.

(** The flash commands of the polled program on line [cs], and a run of one
    of them (its result dropped). *)
Inductive flash_command : Type :=
| ReadStatus
| WriteEnable
| WaitBusy
| ReadId
| SectorErase (addr : Z)
| PageProgram (addr : Z) (data : list Z) (len : Z)
| ReadData (addr : Z) (data : list Z) (len : Z).

Definition run_command (hw : bus) (cs : Z) (c : flash_command) (m : machine)
  : outcome machine :=
  match c with
  | ReadStatus => '(_, m') ← flash_read_status hw cs m; Ret m'
  | WriteEnable => flash_write_enable hw cs m
  | WaitBusy => flash_wait_busy hw cs m
  | ReadId => '(_, m') ← flash_read_id hw cs m; Ret m'
  | SectorErase addr => flash_sector_erase hw cs addr m
  | PageProgram addr data len => flash_page_program hw cs addr data len m
  | ReadData addr data len =>
      '(_, m') ← flash_read_data hw cs addr data len m; Ret m'
  end.

(** A bus on which no status flag ever shows. *)
Definition bus_silent : bus := fun _ => 0.
(** A bus on which every read returns [v]. *)
Definition bus_const (v : Z) : bus := fun _ => v.


(** The reads of the status register made by a polling loop: [n] reads,
    the first of them read number [start] of the run. *)
Definition sr_trace (hw : bus) (start n : nat) : list event :=
  map (fun k => MmioRead SPI_SR (to_u32 (hw k))) (seq start n).

(** The warning of a polling loop, printed when it made all 1001 reads. *)
Definition poll_warning (warning : string) (n : nat) : list event :=
  if Z.of_nat n =? 1001 then [Print warning []] else [].



(** From [m] to [m'] the program kept to the line whose select value is
    [sel], starting from the actual content of the chip-select register, and
    left [b] in that register. *)
Definition sel_from (sel b : Z) (m m' : machine) : Prop :=
  exists t, trace m' = trace m ++ t /\
            sel_scan sel (csctrl m) t = Some b /\ csctrl m' = b.


End DualNotions.


(** * test-insn-crush.c and test-insn-expand.c *)

Module Nibbles.

(** Conversions to [size_t] (64 bits on riscv64) and to [uint8_t]. *)
Definition to_size (z : Z) : Z := z mod 2 ^ 64.
Definition to_u8 (z : Z) : Z := z mod 2 ^ 8.

(** The loop [while (i + 1 < src_len) { dst[j] = (src[i] & 0x0F) |
    ((src[i + 1] & 0x0F) << 4); i += 2; j++; }] of [pack_low4bits]; it
    returns [dst], [i] and [j]. *)
Fixpoint pack_loop (fuel : nat) (src : list Z) (src_len : Z) (dst : list Z)
    (i j : Z) : outcome (list Z * Z * Z) :=
  if to_size (i + 1) <? src_len then
    match fuel with
    | O => Diverge
    | S fuel' =>
        a ← buf_load src i;
        b ← buf_load src (to_size (i + 1));
        dst' ← buf_store dst j
                 (to_u8 (Z.lor (Z.land a 0x0F) (Z.shiftl (Z.land b 0x0F) 4)));
        pack_loop fuel' src src_len dst' (to_size (i + 2)) (to_size (j + 1))
    end
  else Ret (dst, i, j).

(** [if (i < src_len) { dst[j] = src[i] & 0x0F; j++; }] *)
Definition pack_tail (src : list Z) (src_len : Z) (dst : list Z) (i j : Z)
  : outcome (list Z * Z) :=
  if i <? src_len then
    a ← buf_load src i;
    dst' ← buf_store dst j (to_u8 (Z.land a 0x0F));
    Ret (dst', to_size (j + 1))
  else Ret (dst, j).

(** [pack_low4bits] (test-insn-crush.c): the result is [dst] and the value
    stored to [*dst_len]. *)
Definition pack_low4bits (src : list Z) (src_len : Z) (dst : list Z)
  : outcome (list Z * Z) :=
  '(dst, i, j) ← pack_loop (Z.to_nat src_len) src src_len dst 0 0;
  pack_tail src src_len dst i j.

(** The loop [for (i = 0; i < src_len; i++) { dst[j++] = src[i] & 0x0F;
    dst[j++] = (src[i] >> 4) & 0x0F; }] of [split_to_4bits]. *)
Fixpoint split_loop (fuel : nat) (src : list Z) (src_len : Z) (dst : list Z)
    (i j : Z) : outcome (list Z * Z) :=
  if i <? src_len then
    match fuel with
    | O => Diverge
    | S fuel' =>
        a ← buf_load src i;
        dst1 ← buf_store dst j (to_u8 (Z.land a 0x0F));
        b ← buf_load src i;
        dst2 ← buf_store dst1 (to_size (j + 1))
                 (to_u8 (Z.land (Z.shiftr b 4) 0x0F));
        split_loop fuel' src src_len dst2 (to_size (i + 1))
          (to_size (to_size (j + 1) + 1))
    end
  else Ret (dst, j).

(** [split_to_4bits] (test-insn-expand.c): the result is [dst] and the
    value stored to [*dst_len]. *)
Definition split_to_4bits (src : list Z) (src_len : Z) (dst : list Z)
  : outcome (list Z * Z) :=
  split_loop (Z.to_nat src_len) src src_len dst 0 0.

End Nibbles.

(** * Notions used in the statements about the nibble functions *)

Module NibbleNotions.
Import Nibbles.

(** Packing a list two elements at a time, low nibble first; a last odd
    element is packed alone. *)
Fixpoint pack_pairs (l : list Z) : list Z :=
  match l with
  | a :: b :: r =>
      to_u8 (Z.lor (Z.land a 0x0F) (Z.shiftl (Z.land b 0x0F) 4)) :: pack_pairs r
  | [a] => [to_u8 (Z.land a 0x0F)]
  | [] => []
  end.

(** The two nibbles of each element, low nibble first. *)
Fixpoint nibbles (l : list Z) : list Z :=
  match l with
  | a :: r =>
      to_u8 (Z.land a 0x0F) :: to_u8 (Z.land (Z.shiftr a 4) 0x0F) :: nibbles r
  | [] => []
  end.

Definition is_byte (b : Z) : Prop := 0 <= b < 256.
Definition is_nibble (b : Z) : Prop := 0 <= b < 16.

End NibbleNotions.


(** * The sort of the custom-instruction test *)

Module Sort.

(** The inner loop of [bubble_sort], [for (j = 0; j < n - i - 1; j++)], at
    [j] with the current [swapped]; it returns the array and [swapped].
    The array holds [uint32_t] values; [temp] is an [int]. *)
Fixpoint inner_loop (fuel : nat) (arr : list Z) (n i j swapped : Z)
  : outcome (list Z * Z) :=
  if j <? wrap_int (wrap_int (n - i) - 1) then
    match fuel with
    | O => Diverge
    | S fuel' =>
        a ← buf_load arr j;
        b ← buf_load arr (wrap_int (j + 1));
        '(arr, swapped) ←
           (if b <? a then
              t ← buf_load arr j;
              let temp := wrap_int t in
              c ← buf_load arr (wrap_int (j + 1));
              arr1 ← buf_store arr j c;
              arr2 ← buf_store arr1 (wrap_int (j + 1)) (to_u32 temp);
              Ret (arr2, 1)
            else Ret (arr, swapped));
        inner_loop fuel' arr n i (wrap_int (j + 1)) swapped
    end
  else Ret (arr, swapped).

(** The outer loop, [for (i = 0; i < n - 1; i++)], at [i]. *)
Fixpoint outer_loop (fuel : nat) (arr : list Z) (n i : Z) : outcome (list Z) :=
  if i <? wrap_int (n - 1) then
    match fuel with
    | O => Diverge
    | S fuel' =>
        let swapped := 0 in
        '(arr, swapped) ← inner_loop (Z.to_nat n) arr n i 0 swapped;
        if negb (c_true swapped) then Ret arr
        else outer_loop fuel' arr n (wrap_int (i + 1))
    end
  else Ret arr.

Definition bubble_sort (arr : list Z) (n : Z) : outcome (list Z) :=
  outer_loop (Z.to_nat n) arr n 0.

End Sort.

(** * Notions used in the statements about the sort *)

Module SortNotions.

(** One pass of the inner loop over a list, as a function: the pass carries
    [x], the larger element so far, over [rest]; the second component is
    [swapped]. *)
Fixpoint bubble_from (x : Z) (rest : list Z) (swapped : Z) : list Z * Z :=
  match rest with
  | [] => ([x], swapped)
  | y :: r =>
      if y <? x then
        let '(l, s) := bubble_from x r 1 in (y :: l, s)
      else
        let '(l, s) := bubble_from y r swapped in (x :: l, s)
  end.

Definition is_u32 (x : Z) : Prop := 0 <= x < 2 ^ 32.

End SortNotions.


(** * The transpose of the DMA test *)

Module Dma.

(** The inner loop of [transpose], [for (j = 0; j < M; j++)
    C[i * M + j] = A[j * N + i]], at [j]; [A] and [C] are distinct arrays,
    as in the callers. *)
Fixpoint transpose_row (fuel : nat) (A C : list Z) (M N i j : Z)
  : outcome (list Z) :=
  if j <? M then
    match fuel with
    | O => Diverge
    | S fuel' =>
        a ← buf_load A (wrap_int (wrap_int (j * N) + i));
        C' ← buf_store C (wrap_int (wrap_int (i * M) + j)) a;
        transpose_row fuel' A C' M N i (wrap_int (j + 1))
    end
  else Ret C.

(** The outer loop, [for (i = 0; i < N; i++)], at [i]. *)
Fixpoint transpose_rows (fuel : nat) (A C : list Z) (M N i : Z)
  : outcome (list Z) :=
  if i <? N then
    match fuel with
    | O => Diverge
    | S fuel' =>
        C' ← transpose_row (Z.to_nat M) A C M N i 0;
        transpose_rows fuel' A C' M N (wrap_int (i + 1))
    end
  else Ret C.

Definition transpose (A C : list Z) (M N : Z) : outcome (list Z) :=
  transpose_rows (Z.to_nat N) A C M N 0.

End Dma.


(** * test-spi-jedec.c *)

Module Jedec.
Import DualCS.

(** The loop [do { sr = spi_read_reg(SPI_SR); } while (!(sr & flag));]
    shared by [spi_wait_txe] and [spi_wait_rxne]: it has no bound of its
    own, so the model runs out of fuel when the flag does not show. *)
Fixpoint wait_set (flag : Z) (fuel : nat) (hw : bus) (m : machine)
  : outcome machine :=
  let '(sr, m) := read_reg hw SPI_SR m in
  if negb (c_true (Z.land sr flag)) then
    match fuel with
    | O => Diverge
    | S fuel' => wait_set flag fuel' hw m
    end
  else Ret m.

Definition spi_wait_txe : nat -> bus -> machine -> outcome machine :=
  wait_set SPI_SR_TXE.
Definition spi_wait_rxne : nat -> bus -> machine -> outcome machine :=
  wait_set SPI_SR_RXNE.

Definition spi_transfer_byte (fuel : nat) (hw : bus) (data : Z) (m : machine)
  : outcome (Z * machine) :=
  m ← spi_wait_txe fuel hw m;
  let m := write_reg SPI_DR data m in
  m ← spi_wait_rxne fuel hw m;
  let '(dr, m) := read_reg hw SPI_DR m in
  Ret (Z.land dr 0xFF, m).

End Jedec.


(** * Properties of the interrupt-driven program *)

Module InterruptFacts.
Import Interrupt Notions.

#[local] Arguments Z.testbit : simpl never.
#[local] Arguments Z.land : simpl never.

(** ** Bit tests *)

Lemma land_bit (x k : Z) :
  0 <= k -> Z.land x (Z.shiftl 1 k) = if Z.testbit x k then 2 ^ k else 0.
Proof.
  intros Hk. rewrite Z.shiftl_1_l. apply Z.bits_inj'. intros n Hn.
  rewrite Z.land_spec, Z.pow2_bits_eqb by lia.
  destruct (Z.eqb_spec k n) as [->|Hne].
  - destruct (Z.testbit x n); simpl.
    + rewrite Z.pow2_bits_true; lia.
    + rewrite Z.bits_0. reflexivity.
  - rewrite andb_false_r.
    destruct (Z.testbit x k).
    + rewrite Z.pow2_bits_false by lia. reflexivity.
    + rewrite Z.bits_0. reflexivity.
Qed.

Lemma u32_bit (x k : Z) : 0 <= k < 32 -> Z.testbit (to_u32 x) k = Z.testbit x k.
Proof. intros Hk. unfold to_u32. apply Z.mod_pow2_bits_low. lia. Qed.

Lemma c_true_bit (x k : Z) :
  0 <= k < 32 -> c_true (Z.land (to_u32 x) (Z.shiftl 1 k)) = Z.testbit x k.
Proof.
  intros Hk. rewrite land_bit, u32_bit by lia. unfold c_true.
  destruct (Z.testbit x k); [|reflexivity].
  assert (0 < 2 ^ k) by (apply Z.pow_pos_nonneg; lia).
  destruct (Z.eqb_spec (2 ^ k) 0); [lia|reflexivity].
Qed.

Lemma c_true_lor (a b : Z) : c_true (Z.lor a b) = c_true a || c_true b.
Proof.
  unfold c_true.
  destruct (Z.eqb_spec (Z.lor a b) 0) as [H|H].
  - apply Z.lor_eq_0_iff in H as [-> ->]. reflexivity.
  - destruct (Z.eqb_spec a 0) as [->|?]; [|reflexivity].
    destruct (Z.eqb_spec b 0) as [->|?]; [|reflexivity].
    exfalso. apply H. reflexivity.
Qed.

Lemma error_cond_bits (hw : irq_snapshot) :
  c_true (Z.land (to_u32 (hw_cr2 hw)) SPI_CR2_ERRIE)
  && c_true (Z.land (to_u32 (hw_sr hw)) (Z.lor SPI_SR_UDR SPI_SR_OVR))
  = error_irq hw.
Proof.
  unfold error_irq, SPI_CR2_ERRIE, SPI_SR_UDR, SPI_SR_OVR.
  rewrite Z.land_lor_distr_r, c_true_lor, !c_true_bit by lia. reflexivity.
Qed.

Lemma rxne_cond_bits (hw : irq_snapshot) :
  c_true (Z.land (to_u32 (hw_cr2 hw)) SPI_CR2_RXNEIE)
  && c_true (Z.land (to_u32 (hw_sr hw)) SPI_SR_RXNE)
  = rxne_irq hw.
Proof.
  unfold rxne_irq, SPI_CR2_RXNEIE, SPI_SR_RXNE.
  rewrite !c_true_bit by lia. reflexivity.
Qed.

Lemma txe_cond_bits (hw : irq_snapshot) :
  c_true (Z.land (to_u32 (hw_cr2 hw)) SPI_CR2_TXEIE)
  && c_true (Z.land (to_u32 (hw_sr hw)) SPI_SR_TXE)
  = txe_irq hw.
Proof.
  unfold txe_irq, SPI_CR2_TXEIE, SPI_SR_TXE.
  rewrite !c_true_bit by lia. reflexivity.
Qed.

(** The handler with its three conditions read as bit tests. *)
Lemma handler_cases (hw : irq_snapshot) (s0 : spi_transfer_state_t) :
  spi0_interrupt_handler hw s0 =
  let sr := to_u32 (hw_sr hw) in
  let cr2 := to_u32 (hw_cr2 hw) in
  let entry := [MmioRead SPI_SR sr; MmioRead SPI_CR2 cr2] in
  let s1 := set_interrupt_count (wrap_int (interrupt_count s0 + 1)) s0 in
  if error_irq hw then
    Ret (set_error_occurred 1 s1,
         entry ++ [LOG_ERR "IRQ #%d: UDR=%d, OVR=%d"
                     [interrupt_count s1;
                      c_bool (Z.land sr SPI_SR_UDR);
                      c_bool (Z.land sr SPI_SR_OVR)]])
  else
    '(s2, t2) ← (if rxne_irq hw then handle_rxne hw s1 else Ret (s1, []));
    '(s3, t3) ← (if txe_irq hw then handle_txe cr2 s2 else Ret (s2, []));
    Ret (s3, entry ++ t2 ++ t3).
Proof.
  unfold spi0_interrupt_handler.
  rewrite error_cond_bits, rxne_cond_bits, txe_cond_bits. reflexivity.
Qed.

(** The handler on sample inputs: the first transmit-empty interrupt of a
    transfer sends byte 0; an interrupt with both conditions stores the
    byte read and sends the next one; with everything sent and a byte still
    missing it sends a dummy 0; a byte arriving after the last one is read
    and dropped. *)
Example handler_sends_first_byte :
  spi0_interrupt_handler (mk_irq 0x02 0xE0 0) (init_state [5; 9] [0; 0] 2) =
  Ret (mk_spi_state [5; 9] [0; 0] 1 0 2 0 0 1,
       [MmioRead SPI_SR 0x02; MmioRead SPI_CR2 0xE0; MmioWrite SPI_DR 5]).
Proof. reflexivity. Qed.

Example handler_stores_and_sends :
  spi0_interrupt_handler (mk_irq 0x03 0xE0 0x1AB) (mk_spi_state [5; 9] [0; 0] 1 0 2 0 0 1) =
  Ret (mk_spi_state [5; 9] [0xAB; 0] 2 1 2 0 0 2,
       [MmioRead SPI_SR 0x03; MmioRead SPI_CR2 0xE0; MmioRead SPI_DR 0x1AB;
        MmioWrite SPI_DR 9]).
Proof. reflexivity. Qed.

Example handler_sends_dummy :
  spi0_interrupt_handler (mk_irq 0x02 0xE0 0) (mk_spi_state [5; 9] [0xAB; 0] 2 1 2 0 0 2) =
  Ret (mk_spi_state [5; 9] [0xAB; 0] 2 1 2 0 0 3,
       [MmioRead SPI_SR 0x02; MmioRead SPI_CR2 0xE0; MmioWrite SPI_DR 0]).
Proof. reflexivity. Qed.

Example handler_drops_late_byte :
  spi0_interrupt_handler (mk_irq 0x01 0xE0 0x77) (mk_spi_state [5; 9] [0xAB; 0xCD] 2 2 2 0 0 3) =
  Ret (mk_spi_state [5; 9] [0xAB; 0xCD] 2 2 2 0 0 4,
       [MmioRead SPI_SR 0x01; MmioRead SPI_CR2 0xE0; MmioRead SPI_DR 0x77]).
Proof. reflexivity. Qed.

(** C1: when error interrupts are enabled and the status read at entry shows
    underrun or overrun, the handler sets [error_occurred] and returns at
    once: both cursors and the receive buffer are as before, whatever else
    the status shows (receive-not-empty included), and the run neither
    reads nor writes the data register. *)
Theorem handler_error_first (hw : irq_snapshot) (s : spi_transfer_state_t) :
  Z.testbit (hw_cr2 hw) 5 = true ->
  Z.testbit (hw_sr hw) 3 = true \/ Z.testbit (hw_sr hw) 6 = true ->
  exists s' t,
    spi0_interrupt_handler hw s = Ret (s', t) /\
    error_occurred s' = 1 /\
    tx_index s' = tx_index s /\
    rx_index s' = rx_index s /\
    rx_buffer s' = rx_buffer s /\
    List.filter is_dr_access t = [].
Proof.
  intros Hie Hst. rewrite handler_cases. cbv zeta.
  assert (error_irq hw = true) as ->.
  { unfold error_irq. rewrite Hie. destruct Hst as [-> | ->]; simpl.
    - reflexivity.
    - apply orb_true_r. }
  eexists _, _. repeat split.
Qed.

Lemma handler_error_first_witness :
  exists s' t,
    spi0_interrupt_handler (mk_irq 0x41 0xE0 0xAB) (init_state [1; 2] [0; 0] 2)
      = Ret (s', t) /\
    error_occurred s' = 1 /\
    tx_index s' = tx_index (init_state [1; 2] [0; 0] 2) /\
    rx_index s' = rx_index (init_state [1; 2] [0; 0] 2) /\
    rx_buffer s' = rx_buffer (init_state [1; 2] [0; 0] 2) /\
    List.filter is_dr_access t = [].
Proof.
  apply handler_error_first; [reflexivity | right; reflexivity].
Defined.

(** ** Buffer accesses and [int] increments that stay in range *)

Lemma wrap_int_id (z : Z) : int_range z -> wrap_int z = z.
Proof.
  unfold int_range, INT_MIN, INT_MAX, wrap_int. intros H.
  rewrite Z.mod_small by lia. lia.
Qed.

Lemma buf_store_ok (b : list Z) (i v : Z) :
  0 <= i < Z.of_nat (length b) ->
  buf_store b i v = Ret (<[Z.to_nat i := v]> b).
Proof.
  intros H. unfold buf_store.
  destruct (Z.leb_spec 0 i); [|lia].
  destruct (Z.ltb_spec i (Z.of_nat (length b))); [|lia].
  reflexivity.
Qed.

Lemma buf_load_ok (b : list Z) (i : Z) :
  0 <= i < Z.of_nat (length b) ->
  exists v, buf_load b i = Ret v /\ b !! Z.to_nat i = Some v.
Proof.
  intros H. unfold buf_load.
  destruct (Z.leb_spec 0 i); [|lia].
  destruct (b !! Z.to_nat i) as [v|] eqn:E.
  - exists v. split; reflexivity.
  - apply lookup_ge_None in E. lia.
Qed.

(** ** One run of the handler *)

(** The receive part on a context that satisfies the invariant. *)
Lemma handle_rxne_step (hw : irq_snapshot) (s : spi_transfer_state_t) :
  0 <= rx_index s -> buffers_fit s ->
  exists s',
    handle_rxne hw s = Ret (s', [MmioRead SPI_DR (to_u32 (hw_dr hw))]) /\
    tx_buffer s' = tx_buffer s /\ tx_index s' = tx_index s /\
    total_bytes s' = total_bytes s /\
    transfer_complete s' = transfer_complete s /\
    error_occurred s' = error_occurred s /\
    interrupt_count s' = interrupt_count s /\
    length (rx_buffer s') = length (rx_buffer s) /\
    if rx_index s <? total_bytes s then
      rx_buffer s' =
        <[Z.to_nat (rx_index s) := Z.land (to_u32 (hw_dr hw)) 0xFF]> (rx_buffer s) /\
      rx_index s' = rx_index s + 1
    else rx_buffer s' = rx_buffer s /\ rx_index s' = rx_index s.
Proof.
  intros Hrx (Htx & Hfit & Hmax). unfold handle_rxne.
  destruct (Z.ltb_spec (rx_index s) (total_bytes s)) as [Hlt|Hge].
  - rewrite buf_store_ok by lia. cbn.
    rewrite wrap_int_id by (unfold int_range, INT_MIN, INT_MAX in *; lia).
    eexists. split; [reflexivity|]. cbn.
    rewrite length_insert. repeat split.
  - eexists. split; [reflexivity|]. repeat split.
Qed.

(** The transmit part on a context that satisfies the invariant. *)
Lemma handle_txe_step (cr2 : Z) (s : spi_transfer_state_t) :
  0 <= tx_index s -> buffers_fit s ->
  exists s' t,
    handle_txe cr2 s = Ret (s', t) /\
    tx_buffer s' = tx_buffer s /\ rx_buffer s' = rx_buffer s /\
    rx_index s' = rx_index s /\ total_bytes s' = total_bytes s /\
    error_occurred s' = error_occurred s /\
    interrupt_count s' = interrupt_count s /\
    if tx_index s <? total_bytes s then
      tx_index s' = tx_index s + 1 /\
      transfer_complete s' = transfer_complete s /\
      exists b, tx_buffer s !! Z.to_nat (tx_index s) = Some b /\
                t = [MmioWrite SPI_DR b]
    else if rx_index s <? total_bytes s then
      s' = s /\ t = [MmioWrite SPI_DR 0]
    else
      tx_index s' = tx_index s /\ transfer_complete s' = 1 /\
      t = [MmioWrite SPI_CR2
             (Z.land cr2 (to_u32 (Z.lnot (Z.lor SPI_CR2_TXEIE SPI_CR2_RXNEIE))))].
Proof.
  intros Htx0 (Htx & Hfit & Hmax). unfold handle_txe.
  destruct (Z.ltb_spec (tx_index s) (total_bytes s)) as [Hlt|Hge].
  - destruct (buf_load_ok (tx_buffer s) (tx_index s)) as (b & -> & Hb); [lia|].
    cbn. rewrite wrap_int_id by (unfold int_range, INT_MIN, INT_MAX in *; lia).
    eexists _, _. split; [reflexivity|]. cbn. repeat split. eauto.
  - destruct (Z.ltb_spec (rx_index s) (total_bytes s)).
    + eexists _, _. split; [reflexivity|]. repeat split.
    + eexists _, _. split; [reflexivity|]. repeat split.
Qed.

(** What one run of the handler does to a context within the invariant. *)
Lemma handler_step (hw : irq_snapshot) (s : spi_transfer_state_t) :
  cursors_in_range s -> buffers_fit s ->
  exists s' t,
    spi0_interrupt_handler hw s = Ret (s', t) /\
    cursors_in_range s' /\ buffers_fit s' /\
    total_bytes s' = total_bytes s /\ tx_buffer s' = tx_buffer s /\
    length (rx_buffer s') = length (rx_buffer s) /\
    (error_occurred s' = error_occurred s \/ error_occurred s' = 1) /\
    (transfer_complete s' = transfer_complete s \/
     transfer_complete s' = 1 /\ error_irq hw = false /\
     tx_index s' = total_bytes s /\ rx_index s' = total_bytes s) /\
    (tx_index s' = tx_index s \/
     tx_index s < total_bytes s /\ tx_index s' = tx_index s + 1) /\
    (rx_index s' = rx_index s \/
     rx_index s < total_bytes s /\ rx_index s' = rx_index s + 1).
Proof.
  intros [Htx Hrx] Hfit. rewrite handler_cases. cbv zeta.
  destruct (error_irq hw).
  { eexists _, _. split; [reflexivity|]. cbn.
    unfold cursors_in_range, buffers_fit in *. cbn. intuition lia. }
  set (s1 := set_interrupt_count _ s).
  assert (Hfit1 : buffers_fit s1) by exact Hfit.
  assert (exists s2 t2,
    (if rxne_irq hw then handle_rxne hw s1 else Ret (s1, [])) = Ret (s2, t2) /\
    tx_buffer s2 = tx_buffer s /\ tx_index s2 = tx_index s /\
    total_bytes s2 = total_bytes s /\
    transfer_complete s2 = transfer_complete s /\
    error_occurred s2 = error_occurred s /\
    length (rx_buffer s2) = length (rx_buffer s) /\
    (rx_index s2 = rx_index s \/
     rx_index s < total_bytes s /\ rx_index s2 = rx_index s + 1))
    as (s2 & t2 & -> & Hb2 & Hi2 & Ht2 & Hc2 & He2 & Hl2 & Hr2).
  { destruct (rxne_irq hw).
    - destruct (handle_rxne_step hw s1) as (s2 & -> & ? & ? & ? & ? & ? & ? & ? & Hcase);
        [cbn; lia | exact Hfit1 |].
      eexists _, _. split; [reflexivity|]. repeat (split; [assumption|]).
      change (rx_index s1) with (rx_index s) in Hcase.
      change (total_bytes s1) with (total_bytes s) in Hcase.
      destruct (Z.ltb_spec (rx_index s) (total_bytes s)); intuition lia.
    - eexists _, _. split; [reflexivity|]. repeat split. left. reflexivity. }
  cbn.
  assert (Hfit2 : buffers_fit s2).
  { unfold buffers_fit in *. rewrite Hb2, Ht2, Hl2. exact Hfit. }
  destruct (txe_irq hw).
  - destruct (handle_txe_step (to_u32 (hw_cr2 hw)) s2)
      as (s3 & t3 & -> & Hb3 & Hrb3 & Hr3 & Ht3 & He3 & _ & Hcase);
      [lia | exact Hfit2 |].
    cbn. eexists _, _. split; [reflexivity|].
    rewrite Hi2, Ht2 in Hcase.
    assert (Hfit3 : buffers_fit s3).
    { unfold buffers_fit in *. rewrite Hb3, Hrb3, Ht3. exact Hfit2. }
    destruct Hfit as (Hf1 & Hf2 & Hf3).
    unfold cursors_in_range, buffers_fit.
    rewrite Hr3, Ht3, Ht2, Hb3, Hb2, Hrb3, Hl2, He3, He2.
    destruct (Z.ltb_spec (tx_index s) (total_bytes s)).
    + destruct Hcase as (Hi3 & Hc3 & _). rewrite Hi3, Hc3, Hc2.
      repeat split; try assumption; try lia; auto.
    + destruct (Z.ltb_spec (rx_index s2) (total_bytes s)).
      * destruct Hcase as (-> & _). rewrite Hi2, Hc2.
        repeat split; try assumption; try lia; auto.
      * destruct Hcase as (Hi3 & Hc3 & _). rewrite Hi3, Hc3.
        repeat split; try assumption; try lia; auto.
  - cbn. eexists _, _. split; [reflexivity|].
    destruct Hfit as (Hf1 & Hf2 & Hf3).
    unfold cursors_in_range, buffers_fit. rewrite Hi2, Ht2, Hb2, Hl2, He2, Hc2.
    repeat split; try assumption; try lia; auto.
Qed.

(** The transmit part never reads the data register. *)
Lemma handle_txe_no_read (cr2 : Z) (s s' : spi_transfer_state_t) (t : list event) :
  handle_txe cr2 s = Ret (s', t) ->
  List.filter is_dr_read t = [] /\ rx_buffer s' = rx_buffer s /\ rx_index s' = rx_index s.
Proof.
  unfold handle_txe. intros H.
  destruct (tx_index s <? total_bytes s).
  - destruct (buf_load (tx_buffer s) (tx_index s)); cbn in H; try discriminate.
    injection H as <- <-. repeat split.
  - destruct (rx_index s <? total_bytes s); injection H as <- <-; repeat split.
Qed.

(** C6: on a context whose cursors are within [0, total_bytes] and whose
    buffers hold [total_bytes] bytes, every run of the handler returns and
    keeps both cursors within [0, total_bytes].  When receive-not-empty is
    enabled and set and the error branch is not taken, the run reads the
    data register exactly once; if [rx_index < total_bytes] the low byte
    read is stored at position [rx_index] of the receive buffer and
    [rx_index] grows by one, otherwise the byte is dropped, the buffer is
    unchanged and [rx_index] stays equal to [total_bytes]. *)
Theorem handler_receive (hw : irq_snapshot) (s : spi_transfer_state_t) :
  cursors_in_range s -> buffers_fit s ->
  exists s' t,
    spi0_interrupt_handler hw s = Ret (s', t) /\
    cursors_in_range s' /\
    (error_irq hw = false -> rxne_irq hw = true ->
     let byte := Z.land (to_u32 (hw_dr hw)) 0xFF in
     List.filter is_dr_read t = [MmioRead SPI_DR (to_u32 (hw_dr hw))] /\
     if rx_index s <? total_bytes s then
       rx_buffer s' = <[Z.to_nat (rx_index s) := byte]> (rx_buffer s) /\
       rx_buffer s' !! Z.to_nat (rx_index s) = Some byte /\
       rx_index s' = rx_index s + 1
     else
       rx_buffer s' = rx_buffer s /\
       rx_index s' = rx_index s /\ rx_index s' = total_bytes s).
Proof.
  intros Hcur Hfit.
  destruct (handler_step hw s Hcur Hfit) as (s' & t & Hrun & Hcur' & _).
  exists s', t. split; [exact Hrun|]. split; [exact Hcur'|].
  intros Herr Hrxne byte. rewrite handler_cases in Hrun. cbv zeta in Hrun.
  rewrite Herr, Hrxne in Hrun.
  set (s1 := set_interrupt_count _ s) in Hrun.
  destruct Hcur as [Htx Hrx].
  destruct (handle_rxne_step hw s1) as (s2 & E2 & _ & _ & _ & _ & _ & _ & _ & Hcase);
    [cbn; lia | exact Hfit |].
  rewrite E2 in Hrun. cbn in Hrun.
  change (rx_index s1) with (rx_index s) in Hcase.
  change (total_bytes s1) with (total_bytes s) in Hcase.
  change (rx_buffer s1) with (rx_buffer s) in Hcase.
  assert (List.filter is_dr_read t = [MmioRead SPI_DR (to_u32 (hw_dr hw))] /\
          rx_buffer s' = rx_buffer s2 /\ rx_index s' = rx_index s2)
    as (Ht & Hb & Hi).
  { destruct (txe_irq hw).
    - destruct (handle_txe (to_u32 (hw_cr2 hw)) s2) as [[s3 t3]| |] eqn:E3;
        cbn in Hrun; try discriminate.
      injection Hrun as <- <-.
      destruct (handle_txe_no_read _ _ _ _ E3) as (Hf & ? & ?).
      cbn. rewrite Hf. auto.
    - cbn in Hrun. injection Hrun as <- <-. auto. }
  split; [exact Ht|]. rewrite Hb, Hi.
  destruct (Z.ltb_spec (rx_index s) (total_bytes s)) as [Hlt|Hge].
  - destruct Hcase as [-> ->]. repeat split.
    apply list_lookup_insert_eq. destruct Hfit as (_ & ? & _). lia.
  - destruct Hcase as [-> ->]. repeat split. lia.
Qed.

Lemma handler_receive_witness :
  exists s' t,
    spi0_interrupt_handler (mk_irq 0x03 0xE0 0x1AB) (init_state [1; 2] [0; 0] 2)
      = Ret (s', t) /\
    cursors_in_range s' /\
    (error_irq (mk_irq 0x03 0xE0 0x1AB) = false ->
     rxne_irq (mk_irq 0x03 0xE0 0x1AB) = true ->
     let byte := Z.land (to_u32 0x1AB) 0xFF in
     List.filter is_dr_read t = [MmioRead SPI_DR (to_u32 0x1AB)] /\
     if rx_index (init_state [1; 2] [0; 0] 2) <? total_bytes (init_state [1; 2] [0; 0] 2) then
       rx_buffer s' = <[Z.to_nat 0 := byte]> [0; 0] /\
       rx_buffer s' !! Z.to_nat 0 = Some byte /\
       rx_index s' = 0 + 1
     else
       rx_buffer s' = [0; 0] /\
       rx_index s' = 0 /\ rx_index s' = 2).
Proof.
  apply (handler_receive (mk_irq 0x03 0xE0 0x1AB) (init_state [1; 2] [0; 0] 2)).
  - unfold cursors_in_range. simpl. lia.
  - unfold buffers_fit, INT_MAX. simpl. lia.
Defined.

(** ** Runs of the handler on any context *)

Lemma handle_rxne_inv (hw : irq_snapshot) (s s' : spi_transfer_state_t)
    (t : list event) :
  handle_rxne hw s = Ret (s', t) ->
  t = [MmioRead SPI_DR (to_u32 (hw_dr hw))] /\
  transfer_complete s' = transfer_complete s /\
  error_occurred s' = error_occurred s /\
  total_bytes s' = total_bytes s /\
  tx_index s' = tx_index s /\
  (rx_index s' = rx_index s \/ rx_index s < total_bytes s).
Proof.
  unfold handle_rxne. intros H.
  destruct (Z.ltb_spec (rx_index s) (total_bytes s)).
  - destruct (buf_store (rx_buffer s) (rx_index s) _); cbn in H; try discriminate.
    injection H as <- <-. cbn. repeat split. right. assumption.
  - injection H as <- <-. repeat split. left. reflexivity.
Qed.

Lemma handle_txe_inv (cr2 : Z) (s s' : spi_transfer_state_t) (t : list event) :
  handle_txe cr2 s = Ret (s', t) ->
  error_occurred s' = error_occurred s /\
  total_bytes s' = total_bytes s /\
  rx_index s' = rx_index s /\
  ((exists b, t = [MmioWrite SPI_DR b]) /\
   transfer_complete s' = transfer_complete s /\
   (tx_index s' = tx_index s \/ tx_index s < total_bytes s)
   \/
   t = [MmioWrite SPI_CR2
          (Z.land cr2 (to_u32 (Z.lnot (Z.lor SPI_CR2_TXEIE SPI_CR2_RXNEIE))))] /\
   transfer_complete s' = 1 /\ tx_index s' = tx_index s /\
   total_bytes s <= tx_index s /\ total_bytes s <= rx_index s).
Proof.
  unfold handle_txe. intros H.
  destruct (Z.ltb_spec (tx_index s) (total_bytes s)).
  - destruct (buf_load (tx_buffer s) (tx_index s)) as [b| |]; cbn in H;
      try discriminate.
    injection H as <- <-. cbn. repeat split. left. eauto.
  - destruct (Z.ltb_spec (rx_index s) (total_bytes s)); injection H as <- <-.
    + repeat split. left. eauto.
    + cbn. repeat split. right. auto.
Qed.

(** The two ways a run of the handler goes. *)
Lemma handler_inv (hw : irq_snapshot) (s s' : spi_transfer_state_t)
    (t : list event) :
  spi0_interrupt_handler hw s = Ret (s', t) ->
  let s1 := set_interrupt_count (wrap_int (interrupt_count s + 1)) s in
  let entry := [MmioRead SPI_SR (to_u32 (hw_sr hw));
                MmioRead SPI_CR2 (to_u32 (hw_cr2 hw))] in
  (error_irq hw = true /\ s' = set_error_occurred 1 s1 /\
   List.filter is_cr2_write t = [] /\ List.filter is_dr_access t = [])
  \/
  (error_irq hw = false /\
   exists s2 t2 t3,
     (if rxne_irq hw then handle_rxne hw s1 else Ret (s1, [])) = Ret (s2, t2) /\
     (if txe_irq hw then handle_txe (to_u32 (hw_cr2 hw)) s2 else Ret (s2, []))
       = Ret (s', t3) /\
     t = entry ++ t2 ++ t3).
Proof.
  rewrite handler_cases. cbv zeta. intros H.
  destruct (error_irq hw).
  - left. injection H as <- <-. repeat split.
  - right. split; [reflexivity|].
    destruct (if rxne_irq hw then _ else _) as [[s2 t2]| |]; cbn in H;
      try discriminate.
    destruct (if txe_irq hw then _ else _) as [[s3 t3]| |] eqn:E3; cbn in H;
      try discriminate.
    injection H as <- <-. exists s2, t2, t3. repeat split. exact E3.
Qed.

(** The bits of the value the handler writes to CR2 on completion. *)
Lemma completion_mask_bits (x i : Z) :
  0 <= i ->
  Z.testbit (Z.land (to_u32 x)
               (to_u32 (Z.lnot (Z.lor SPI_CR2_TXEIE SPI_CR2_RXNEIE)))) i
  = (i <? 32) && Z.testbit x i && negb (i =? 7) && negb (i =? 6).
Proof.
  intros Hi. rewrite Z.land_spec. unfold to_u32.
  destruct (Z.ltb_spec i 32).
  - rewrite !Z.mod_pow2_bits_low by lia.
    rewrite Z.lnot_spec, Z.lor_spec by lia.
    unfold SPI_CR2_TXEIE, SPI_CR2_RXNEIE. rewrite !Z.shiftl_1_l.
    rewrite !Z.pow2_bits_eqb by lia.
    rewrite (Z.eqb_sym 7 i), (Z.eqb_sym 6 i).
    destruct (Z.testbit x i), (i =? 7), (i =? 6); reflexivity.
  - rewrite !Z.mod_pow2_bits_high by lia. reflexivity.
Qed.

(** A run of the handler writes CR2 only when it marks the transfer
    complete, and then exactly once; the value written is the CR2 value read
    at entry with TXEIE (bit 7) and RXNEIE (bit 6) cleared and every other
    bit, ERRIE (bit 5) in particular, as read.  A run that changes
    [transfer_complete] makes this write. *)
Lemma handler_completion_write (hw : irq_snapshot) (s s' : spi_transfer_state_t)
    (t : list event) :
  spi0_interrupt_handler hw s = Ret (s', t) ->
  (transfer_complete s' <> transfer_complete s ->
   exists v, In (MmioWrite SPI_CR2 v) t) /\
  (forall v, In (MmioWrite SPI_CR2 v) t ->
     transfer_complete s' = 1 /\
     List.filter is_cr2_write t = [MmioWrite SPI_CR2 v] /\
     Z.testbit v 7 = false /\ Z.testbit v 6 = false /\
     Z.testbit v 5 = Z.testbit (hw_cr2 hw) 5 /\
     (forall i, 0 <= i < 32 -> i <> 6 -> i <> 7 ->
        Z.testbit v i = Z.testbit (hw_cr2 hw) i) /\
     (forall i, 32 <= i -> Z.testbit v i = false) /\
     (to_u32 (hw_cr2 hw) = cr2_enable -> v = SPI_CR2_ERRIE)).
Proof.
  intros H. apply handler_inv in H. cbv zeta in H.
  destruct H as [(_ & -> & Hcr & _) | (_ & s2 & t2 & t3 & H2 & H3 & ->)].
  - split.
    + intros Hne. exfalso. apply Hne. reflexivity.
    + intros v Hin. exfalso.
      assert (In (MmioWrite SPI_CR2 v) (List.filter is_cr2_write t)) as Hf
        by (apply filter_In; split; [exact Hin | reflexivity]).
      rewrite Hcr in Hf. exact Hf.
  - assert (t2 = [] /\ transfer_complete s2 = transfer_complete s \/
            (exists d, t2 = [MmioRead SPI_DR d]) /\
            transfer_complete s2 = transfer_complete s) as Hrx.
    { destruct (rxne_irq hw).
      - apply handle_rxne_inv in H2 as (-> & ? & _). right. eauto.
      - injection H2 as <- <-. left. auto. }
    assert (exists w, (t2 ++ t3 = w \/ exists d, t2 ++ t3 = MmioRead SPI_DR d :: w) /\
            (w = [] /\ transfer_complete s' = transfer_complete s \/
             (exists b, w = [MmioWrite SPI_DR b]) /\
             transfer_complete s' = transfer_complete s \/
             w = [MmioWrite SPI_CR2
                    (Z.land (to_u32 (hw_cr2 hw))
                       (to_u32 (Z.lnot (Z.lor SPI_CR2_TXEIE SPI_CR2_RXNEIE))))] /\
             transfer_complete s' = 1)) as (w & Hshape & Hw).
    { exists t3. split.
      - destruct Hrx as [[-> _] | [[d ->] _]]; [left | right; exists d]; reflexivity.
      - assert (transfer_complete s2 = transfer_complete s) as E2
          by (destruct Hrx as [[_ ?]|[_ ?]]; assumption).
        destruct (txe_irq hw).
        + apply handle_txe_inv in H3 as (_ & _ & _ & [(Hb & Hc & _) | (-> & Hc & _)]).
          * right. left. split; [exact Hb | congruence].
          * right. right. auto.
        + injection H3 as <- <-. left. auto. }
    split.
    + intros Hne.
      destruct Hw as [[_ ?] | [[_ ?] | [-> _]]]; try congruence.
      eexists. cbn.
      destruct Hshape as [-> | [d ->]]; cbn; eauto.
    + intros v Hin. cbn in Hin.
      assert (In (MmioWrite SPI_CR2 v) w) as Hinw.
      { destruct Hin as [Hin | [Hin | Hin]]; try discriminate.
        destruct Hshape as [E | [d E]]; rewrite E in Hin; [exact Hin|].
        destruct Hin as [Hin | Hin]; [discriminate | exact Hin]. }
      destruct Hw as [[-> _] | [[[b ->] _] | [-> Hc]]].
      * destruct Hinw.
      * destruct Hinw as [Hinw | []]. discriminate.
      * destruct Hinw as [Hinw | []]. injection Hinw as <-.
        split; [exact Hc|]. split.
        { cbn. destruct Hshape as [-> | [d ->]]; reflexivity. }
        rewrite !completion_mask_bits by lia.
        split; [destruct (Z.testbit (hw_cr2 hw) 7); reflexivity|].
        split; [destruct (Z.testbit (hw_cr2 hw) 6); reflexivity|].
        split; [destruct (Z.testbit (hw_cr2 hw) 5); reflexivity|]. split.
        { intros i Hi H6 H7. rewrite completion_mask_bits by lia.
          destruct (Z.ltb_spec i 32); [|lia].
          destruct (Z.eqb_spec i 7); [lia|]. destruct (Z.eqb_spec i 6); [lia|].
          cbn. rewrite !andb_true_r. reflexivity. }
        split.
        { intros i Hi. rewrite completion_mask_bits by lia.
          destruct (Z.ltb_spec i 32); [lia|]. reflexivity. }
        { intros ->. reflexivity. }
Qed.

(** A run on a context whose cursors are both at (or past) the end moves
    no cursor; if it is a transmit-empty run it marks the transfer
    complete and writes CR2 with TXEIE and RXNEIE cleared. *)
Lemma handler_at_end (hw : irq_snapshot) (s : spi_transfer_state_t) :
  total_bytes s <= tx_index s -> total_bytes s <= rx_index s ->
  exists s' t,
    spi0_interrupt_handler hw s = Ret (s', t) /\
    tx_index s' = tx_index s /\ rx_index s' = rx_index s /\
    total_bytes s' = total_bytes s /\
    (error_irq hw = false -> txe_irq hw = true ->
     transfer_complete s' = 1 /\ error_occurred s' = error_occurred s /\
     exists v, List.filter is_cr2_write t = [MmioWrite SPI_CR2 v] /\
               Z.testbit v 7 = false /\ Z.testbit v 6 = false).
Proof.
  intros Htx Hrx. rewrite handler_cases. cbv zeta.
  destruct (error_irq hw).
  { eexists _, _. split; [reflexivity|]. repeat split; try reflexivity; discriminate. }
  set (s1 := set_interrupt_count _ s).
  assert ((if rxne_irq hw then handle_rxne hw s1 else Ret (s1, [])) =
          Ret (s1, if rxne_irq hw then [MmioRead SPI_DR (to_u32 (hw_dr hw))] else []))
    as ->.
  { destruct (rxne_irq hw); [|reflexivity]. unfold handle_rxne.
    change (rx_index s1) with (rx_index s). change (total_bytes s1) with (total_bytes s).
    destruct (Z.ltb_spec (rx_index s) (total_bytes s)); [lia | reflexivity]. }
  cbn.
  destruct (txe_irq hw).
  - unfold handle_txe.
    change (rx_index s1) with (rx_index s). change (total_bytes s1) with (total_bytes s).
    change (tx_index s1) with (tx_index s).
    destruct (Z.ltb_spec (tx_index s) (total_bytes s)); [lia|].
    destruct (Z.ltb_spec (rx_index s) (total_bytes s)); [lia|].
    cbn. eexists _, _. split; [reflexivity|]. repeat split.
    eexists. split.
    + destruct (rxne_irq hw); reflexivity.
    + rewrite !completion_mask_bits by lia.
      split; [destruct (Z.testbit (hw_cr2 hw) 7) | destruct (Z.testbit (hw_cr2 hw) 6)];
        reflexivity.
  - cbn. eexists _, _. split; [reflexivity|]. repeat split; discriminate.
Qed.

(** In a transfer, [transfer_complete] is only ever set with both cursors
    at (or past) the end. *)
Lemma reachable_complete (tx_data rx_data : list Z) (len : Z)
    (s : spi_transfer_state_t) :
  reachable tx_data rx_data len s ->
  transfer_complete s = 0 \/
  total_bytes s <= tx_index s /\ total_bytes s <= rx_index s.
Proof.
  induction 1 as [|s s' hw t _ IH Hrun].
  - left. reflexivity.
  - destruct IH as [Hc | [Htx Hrx]].
    + apply handler_inv in Hrun. cbv zeta in Hrun.
      destruct Hrun as [(_ & -> & _) | (_ & s2 & t2 & t3 & H2 & H3 & _)].
      * left. exact Hc.
      * assert (transfer_complete s2 = 0) as Hc2.
        { destruct (rxne_irq hw).
          - apply handle_rxne_inv in H2 as (_ & -> & _). exact Hc.
          - injection H2 as <- _. exact Hc. }
        destruct (txe_irq hw).
        -- apply handle_txe_inv in H3
             as (_ & Ht & Hr & [(_ & Hc3 & _) | (_ & _ & Hi & ? & ?)]).
           ++ left. congruence.
           ++ right. rewrite Ht, Hi, Hr. auto.
        -- injection H3 as <- _. left. exact Hc2.
    + destruct (handler_at_end hw s Htx Hrx) as (s'' & t'' & E & Hi & Hr & Ht & _).
      rewrite E in Hrun. injection Hrun as <- _.
      right. rewrite Hi, Hr, Ht. auto.
Qed.

(** C2 (as the code has it): the handler does not test the two flags.  In
    a transfer, once [transfer_complete] is set every further run of the
    handler, whatever the registers show, returns with both cursors
    unchanged, because both are at the end.  Once [error_occurred] is set,
    the cursors are unchanged by every run that again sees the enabled
    error condition. *)
Theorem terminal_cursors (tx_data rx_data : list Z) (len : Z)
    (s : spi_transfer_state_t) (hw : irq_snapshot) :
  reachable tx_data rx_data len s ->
  transfer_complete s <> 0 \/ (error_occurred s <> 0 /\ error_irq hw = true) ->
  exists s' t,
    spi0_interrupt_handler hw s = Ret (s', t) /\
    tx_index s' = tx_index s /\ rx_index s' = rx_index s.
Proof.
  intros Hreach [Hc | [_ Herr]].
  - destruct (reachable_complete _ _ _ _ Hreach) as [? | [Htx Hrx]]; [contradiction|].
    destruct (handler_at_end hw s Htx Hrx) as (s' & t & E & Hi & Hr & _).
    exists s', t. auto.
  - rewrite handler_cases. cbv zeta. rewrite Herr.
    eexists _, _. split; [reflexivity|]. split; reflexivity.
Qed.

(** The theorem at work on both sides.  First on the context of a
    completed two-byte transfer (all of [5; 0] sent, [0xAA; 0x02] received),
    with a run that finds receive-not-empty and transmit-empty both enabled
    and set: the byte 0x55 is read and dropped, nothing is sent.  Then on
    the context left by an error before any byte was sent, with a run that
    again sees the overrun, receive-not-empty being set as well. *)
Lemma terminal_cursors_witness :
  (exists s' t,
     spi0_interrupt_handler (mk_irq 0x03 0xE0 0x55)
       (mk_spi_state [5; 0] [0xAA; 0x02] 2 2 2 1 0 3) = Ret (s', t) /\
     tx_index s' = tx_index (mk_spi_state [5; 0] [0xAA; 0x02] 2 2 2 1 0 3) /\
     rx_index s' = rx_index (mk_spi_state [5; 0] [0xAA; 0x02] 2 2 2 1 0 3)) /\
  (exists s' t,
     spi0_interrupt_handler snap_overrun ctx_after_error = Ret (s', t) /\
     tx_index s' = tx_index ctx_after_error /\
     rx_index s' = rx_index ctx_after_error).
Proof.
  split.
  - apply (terminal_cursors [5; 0] [0; 0] 2
             (mk_spi_state [5; 0] [0xAA; 0x02] 2 2 2 1 0 3) (mk_irq 0x03 0xE0 0x55)).
    + apply (reach_irq [5; 0] [0; 0] 2
               (mk_spi_state [5; 0] [0xAA; 0] 2 1 2 0 0 2) _ (mk_irq 0x03 0xE0 0x02)
               [MmioRead SPI_SR 3; MmioRead SPI_CR2 0xE0; MmioRead SPI_DR 0x02;
                MmioWrite SPI_CR2 0x20]).
      * apply (reach_irq [5; 0] [0; 0] 2
                 (mk_spi_state [5; 0] [0; 0] 1 0 2 0 0 1) _ (mk_irq 0x03 0xE0 0xAA)
                 [MmioRead SPI_SR 3; MmioRead SPI_CR2 0xE0; MmioRead SPI_DR 0xAA;
                  MmioWrite SPI_DR 0]).
        -- apply (reach_irq [5; 0] [0; 0] 2 (init_state [5; 0] [0; 0] 2) _ snap_txe
                    [MmioRead SPI_SR 2; MmioRead SPI_CR2 0xE0; MmioWrite SPI_DR 5]).
           ++ apply reach_init.
           ++ reflexivity.
        -- reflexivity.
      * reflexivity.
    + left. simpl. lia.
  - apply (terminal_cursors [1; 2] [0; 0] 2 ctx_after_error snap_overrun).
    + apply (reach_irq [1; 2] [0; 0] 2 (init_state [1; 2] [0; 0] 2) _ snap_overrun
               [MmioRead SPI_SR 0x41; MmioRead SPI_CR2 0xE0;
                LOG_ERR "IRQ #%d: UDR=%d, OVR=%d" [1; 0; 1]]).
      * apply reach_init.
      * reflexivity.
    + right. split; [simpl; lia | reflexivity].
Defined.

(** C2, as stated, fails: the context left by an error run (error flag set,
    nothing sent yet) is reachable, and a later transmit-empty run on it
    sends a byte and advances [tx_index] from 0 to 1. *)
Lemma cursor_moves_after_error :
  reachable [1; 2] [0; 0] 2 ctx_after_error /\
  error_occurred ctx_after_error = 1 /\
  exists s' t,
    spi0_interrupt_handler snap_txe ctx_after_error = Ret (s', t) /\
    tx_index ctx_after_error = 0 /\ tx_index s' = 1.
Proof.
  split.
  - apply (reach_irq [1; 2] [0; 0] 2 (init_state [1; 2] [0; 0] 2) _ snap_overrun
             [MmioRead SPI_SR 0x41; MmioRead SPI_CR2 0xE0;
              LOG_ERR "IRQ #%d: UDR=%d, OVR=%d" [1; 0; 1]]).
    + apply reach_init.
    + reflexivity.
  - split; [reflexivity|].
    eexists _, _. split; [reflexivity|]. split; reflexivity.
Qed.

(** ** The wait loop *)

Lemma evolves_refl (s : spi_transfer_state_t) : evolves s s.
Proof. unfold evolves. auto. Qed.

Lemma evolves_trans (s1 s2 s3 : spi_transfer_state_t) :
  evolves s1 s2 -> evolves s2 s3 -> evolves s1 s3.
Proof.
  unfold evolves. intros (A1 & A2 & A3 & A4 & A5) (B1 & B2 & B3 & B4 & B5).
  repeat split; try congruence; auto.
Qed.

Lemma handler_keeps_inv (hw : irq_snapshot) (s : spi_transfer_state_t) :
  transfer_inv s ->
  exists s' t,
    spi0_interrupt_handler hw s = Ret (s', t) /\ transfer_inv s' /\ evolves s s'.
Proof.
  intros (Hcur & Hfit & Hc).
  destruct (handler_step hw s Hcur Hfit)
    as (s' & t & E & Hcur' & Hfit' & Ht & Hb & Hl & He & Hc' & Htx & Hrx).
  exists s', t. split; [exact E|]. split.
  - split; [exact Hcur'|]. split; [exact Hfit'|]. rewrite Ht.
    destruct Hc as [Hc | (Hc & Hi & Hr)].
    + destruct Hc' as [Hc' | (Hc' & _ & ? & ?)]; [left; congruence | right; auto].
    + right. repeat split.
      * destruct Hc' as [Hc' | (Hc' & _)]; congruence.
      * destruct Htx as [? | [? ?]]; lia.
      * destruct Hrx as [? | [? ?]]; lia.
  - unfold evolves. repeat split; try assumption.
    + intros H1. destruct Hc' as [Hc' | (Hc' & _)]; congruence.
    + intros Hne. destruct He as [He | He]; rewrite He; [exact Hne | discriminate].
Qed.

Lemma deliver_keeps_inv (irqs : list irq_snapshot) (s : spi_transfer_state_t) :
  transfer_inv s ->
  exists s' t, deliver irqs s = Ret (s', t) /\ transfer_inv s' /\ evolves s s'.
Proof.
  revert s. induction irqs as [|hw rest IH]; intros s Hinv.
  - exists s, []. split; [reflexivity|]. split; [exact Hinv | apply evolves_refl].
  - destruct (handler_keeps_inv hw s Hinv) as (s1 & t1 & E1 & Hinv1 & Hev1).
    destruct (IH s1 Hinv1) as (s2 & t2 & E2 & Hinv2 & Hev2).
    exists s2, (t1 ++ t2). cbn [deliver]. rewrite E1. cbn. rewrite E2. cbn.
    split; [reflexivity|]. split; [exact Hinv2|].
    eapply evolves_trans; eassumption.
Qed.

Lemma wait_cond_true (s : spi_transfer_state_t) (timeout_count : Z) :
  wait_cond s timeout_count = true <->
  flags_clear s /\ timeout_count < max_timeout.
Proof.
  unfold wait_cond, flags_clear, c_true.
  destruct (Z.eqb_spec (transfer_complete s) 0);
    destruct (Z.eqb_spec (error_occurred s) 0);
    destruct (Z.ltb_spec timeout_count max_timeout); cbn;
    intuition (try discriminate; try lia).
Qed.

(** The wait loop, whenever it returns: it has run [n - timeout_count]
    iterations; the checks before the last all saw both flags clear; and if
    it stopped before the bound, the last check saw a flag set. *)
Lemma wait_loop_ret (sched : irq_schedule) (fuel : nat) :
  forall (timeout_count : Z) (s s' : spi_transfer_state_t) (t : list event) (n : Z),
  0 <= timeout_count ->
  Z.of_nat fuel = max_timeout - timeout_count ->
  wait_loop sched fuel timeout_count s = Ret (s', t, n) ->
  timeout_count <= n <= max_timeout /\
  ctx_from sched timeout_count s (Z.to_nat (n - timeout_count)) = Ret s' /\
  (forall j : nat, Z.of_nat j < n - timeout_count ->
     exists sj, ctx_from sched timeout_count s j = Ret sj /\ flags_clear sj) /\
  (n < max_timeout -> ~ flags_clear s').
Proof.
  induction fuel as [|fuel IH]; intros tc s s' t n Htc Hfuel Hrun;
    cbn [wait_loop] in Hrun;
    destruct (deliver (irq_before_check sched tc) s) as [[s1 t1]| |] eqn:E1;
    cbn in Hrun; try discriminate;
    destruct (wait_cond s1 tc) eqn:Hcond; try discriminate.
  - injection Hrun as <- _ <-.
    assert (~ (flags_clear s1 /\ tc < max_timeout)) as Hstop.
    { intros H. apply wait_cond_true in H. congruence. }
    split; [lia|]. rewrite Z.sub_diag. change (Z.to_nat 0) with O.
    cbn [ctx_from]. rewrite E1. cbn.
    split; [reflexivity|]. split; [intros j Hj; lia|]. tauto.
  - apply wait_cond_true in Hcond as [Hclear Hlt].
    rewrite wrap_int_id in Hrun
      by (unfold int_range, INT_MIN, INT_MAX, max_timeout in *; lia).
    destruct (wait_loop sched fuel (tc + 1) s1) as [[[s2 t2] n2]| |] eqn:E2;
      cbn in Hrun; try discriminate.
    injection Hrun as <- _ <-.
    destruct (IH (tc + 1) s1 s2 t2 n2) as (Hn & Hctx & Hall & Hlast);
      [lia | lia | exact E2 |].
    split; [lia|]. split.
    + replace (Z.to_nat (n2 - tc)) with (S (Z.to_nat (n2 - (tc + 1)))) by lia.
      cbn [ctx_from]. rewrite E1. cbn. exact Hctx.
    + split; [|exact Hlast].
      intros [|j] Hj; cbn [ctx_from]; rewrite E1; cbn.
      * exists s1. split; [reflexivity | exact Hclear].
      * apply Hall. lia.
  - injection Hrun as <- _ <-.
    assert (~ (flags_clear s1 /\ tc < max_timeout)) as Hstop.
    { intros H. apply wait_cond_true in H. congruence. }
    split; [lia|]. rewrite Z.sub_diag. change (Z.to_nat 0) with O.
    cbn [ctx_from]. rewrite E1. cbn.
    split; [reflexivity|]. split; [intros j Hj; lia|]. tauto.
Qed.

(** The wait loop on a context within the invariant returns, within the
    invariant. *)
Lemma wait_loop_keeps_inv (sched : irq_schedule) (fuel : nat) :
  forall (timeout_count : Z) (s : spi_transfer_state_t),
  transfer_inv s -> 0 <= timeout_count ->
  Z.of_nat fuel = max_timeout - timeout_count ->
  exists s' t n,
    wait_loop sched fuel timeout_count s = Ret (s', t, n) /\
    transfer_inv s' /\ evolves s s'.
Proof.
  induction fuel as [|fuel IH]; intros tc s Hinv Htc Hfuel;
    destruct (deliver_keeps_inv (irq_before_check sched tc) s Hinv)
      as (s1 & t1 & E1 & Hinv1 & Hev1);
    cbn [wait_loop]; rewrite E1; cbn;
    destruct (wait_cond s1 tc) eqn:Hcond;
    try (exists s1, t1, tc; split; [reflexivity | split; assumption]).
  - apply wait_cond_true in Hcond. lia.
  - apply wait_cond_true in Hcond as [_ Hlt].
    rewrite wrap_int_id
      by (unfold int_range, INT_MIN, INT_MAX, max_timeout in *; lia).
    destruct (IH (tc + 1) s1 Hinv1) as (s' & t & n & E & Hinv' & Hev'); [lia | lia |].
    exists s', (t1 ++ t), n. rewrite E. cbn.
    split; [reflexivity|]. split; [exact Hinv'|].
    eapply evolves_trans; eassumption.
Qed.

(** ** The transfer engine *)

Lemma init_state_inv (tx_data rx_data : list Z) (len : Z) :
  transfer_pre tx_data rx_data len -> transfer_inv (init_state tx_data rx_data len).
Proof.
  intros (Hlen & Htx & Hrx).
  unfold transfer_inv, cursors_in_range, buffers_fit. cbn. intuition lia.
Qed.

(** A transfer whose precondition holds returns: the wait loop and the
    late interrupts run to their end within the invariant, and the result
    is read off the final context and the final [timeout_count]. *)
Lemma transfer_run (env : environment) (tx_data rx_data : list Z) (len : Z)
    (m : machine) :
  transfer_pre tx_data rx_data len ->
  let sched := env (transfers m) in
  let s0 := init_state tx_data rx_data len in
  exists s1 t1 n s2 t2,
    g233_spi_transfer_interrupt env tx_data rx_data len m =
      Ret (fst (transfer_result s2 n),
           mk_machine s2 (pp_tx_data m) (pp_rx_data m)
             (trace m ++
              [LOG_INF "Starting interrupt-driven SPI transfer (%d bytes)" [len];
               MmioWrite SPI_CR2 cr2_enable] ++
              t1 ++ t2 ++ [MmioWrite SPI_CR2 0] ++ snd (transfer_result s2 n))
             (S (transfers m))) /\
    transfer_inv s1 /\ transfer_inv s2 /\
    evolves s0 s1 /\ evolves s1 s2 /\
    0 <= n <= max_timeout /\
    ctx_from sched 0 s0 (Z.to_nat n) = Ret s1 /\
    (forall j : nat, Z.of_nat j < n ->
       exists sj, ctx_from sched 0 s0 j = Ret sj /\ flags_clear sj) /\
    (n < max_timeout -> ~ flags_clear s1).
Proof.
  intros Hpre sched s0.
  destruct (wait_loop_keeps_inv sched (Z.to_nat max_timeout) 0 s0)
    as (s1 & t1 & n & E1 & Hinv1 & Hev1).
  { apply init_state_inv. exact Hpre. }
  { lia. }
  { unfold max_timeout. lia. }
  destruct (wait_loop_ret sched (Z.to_nat max_timeout) 0 s0 s1 t1 n)
    as (Hn & Hctx & Hall & Hlast); [lia | unfold max_timeout; lia | exact E1 |].
  destruct (deliver_keeps_inv (irq_before_disable sched) s1 Hinv1)
    as (s2 & t2 & E2 & Hinv2 & Hev2).
  exists s1, t1, n, s2, t2.
  rewrite Z.sub_0_r in Hctx.
  split.
  - unfold g233_spi_transfer_interrupt. fold sched. fold s0.
    rewrite E1. cbn. rewrite E2. cbn.
    destruct (transfer_result s2 n). reflexivity.
  - repeat (split; [assumption|]). split.
    + intros j Hj. apply Hall. lia.
    + exact Hlast.
Qed.

Lemma transfer_result_cases (s : spi_transfer_state_t) (n : Z) :
  (fst (transfer_result s n) = -1 /\ error_occurred s <> 0 \/
   fst (transfer_result s n) = -2 /\ error_occurred s = 0 /\ max_timeout <= n \/
   fst (transfer_result s n) = 0 /\ error_occurred s = 0 /\ n < max_timeout) /\
  exists line, snd (transfer_result s n) = [line] /\ is_print line = true.
Proof.
  unfold transfer_result, c_true.
  destruct (Z.eqb_spec (error_occurred s) 0) as [He|He]; cbn.
  - destruct (Z.leb_spec max_timeout n); cbn.
    + split; [right; left; auto | eexists; split; reflexivity].
    + split; [right; right; auto | eexists; split; reflexivity].
  - split; [left; auto | eexists; split; reflexivity].
Qed.

(** A two-byte transfer answered in time succeeds and leaves the reply in
    the receive buffer. *)
Example transfer_two_bytes :
  exists m',
    g233_spi_transfer_interrupt (env_of [sched_reply [0xAA; 0x02]]) [5; 0] [0; 0] 2 boot
      = Ret (0, m') /\
    spi_state m' = mk_spi_state [5; 0] [0xAA; 0x02] 2 2 2 1 0 3.
Proof. vm_compute. eexists. split; reflexivity. Qed.

(** A transfer whose last byte arrives during the last iteration of the
    wait loop is reported as a timeout although the context is complete. *)
Example transfer_completes_at_the_bound :
  exists m',
    g233_spi_transfer_interrupt
      (env_of [mk_sched (fun k => if k =? 100000 then irqs_reply [0xAA; 0x02] else []) []])
      [5; 0] [0; 0] 2 boot = Ret (-2, m') /\
    transfer_complete (spi_state m') = 1.
Proof. vm_compute. eexists. split; reflexivity. Qed.

(** C4, at the bound: the result is decided from [timeout_count], not from
    [transfer_complete].  When the three interrupts of a two-byte transfer
    arrive during the last iteration of the wait loop (after the check made
    with [timeout_count = 99999], before the one made with 100000), the
    loop is left because the transfer is complete, with all bytes moved and
    no error, and the call still returns -2 after the timeout warning.  The
    same interrupts one iteration earlier give 0 with the same context. *)
Theorem complete_transfer_reported_as_timeout :
  (exists m',
     g233_spi_transfer_interrupt
       (env_of [mk_sched (fun k => if k =? 100000 then irqs_reply [0xAA; 0x02] else []) []])
       [5; 0] [0; 0] 2 boot = Ret (-2, m') /\
     spi_state m' = mk_spi_state [5; 0] [0xAA; 0x02] 2 2 2 1 0 3 /\
     last (trace m') =
       Some (LOG_WRN "Transfer timeout after %d iterations" [100000])) /\
  (exists m',
     g233_spi_transfer_interrupt
       (env_of [mk_sched (fun k => if k =? 99999 then irqs_reply [0xAA; 0x02] else []) []])
       [5; 0] [0; 0] 2 boot = Ret (0, m') /\
     spi_state m' = mk_spi_state [5; 0] [0xAA; 0x02] 2 2 2 1 0 3).
Proof.
  split; vm_compute; eexists; (split; [reflexivity|]);
    [split; reflexivity | reflexivity].
Qed.

(** C5: a run of the handler in which transmit-empty is enabled and set,
    the error branch is not taken and both cursors equal [total_bytes]
    sets [transfer_complete] and, in the same run, writes CR2 once with
    TXEIE (bit 7) and RXNEIE (bit 6) cleared.  Hence a transfer of
    [n >= 1] bytes that returns 0 ends with both cursors equal to [n],
    [transfer_complete] set and [error_occurred] clear. *)
Theorem completion_and_success (hw : irq_snapshot) (s : spi_transfer_state_t)
    (env : environment) (tx_data rx_data : list Z) (n : Z) (m : machine) :
  (txe_irq hw = true -> error_irq hw = false ->
   tx_index s = total_bytes s -> rx_index s = total_bytes s ->
   exists s' t v,
     spi0_interrupt_handler hw s = Ret (s', t) /\
     transfer_complete s' = 1 /\
     List.filter is_cr2_write t = [MmioWrite SPI_CR2 v] /\
     Z.testbit v 7 = false /\ Z.testbit v 6 = false /\
     tx_index s' = total_bytes s' /\ rx_index s' = total_bytes s') /\
  (1 <= n -> transfer_pre tx_data rx_data n ->
   exists r m',
     g233_spi_transfer_interrupt env tx_data rx_data n m = Ret (r, m') /\
     (r = 0 ->
      tx_index (spi_state m') = n /\ rx_index (spi_state m') = n /\
      transfer_complete (spi_state m') = 1 /\
      error_occurred (spi_state m') = 0)).
Proof.
  split.
  - intros Htxe Herr Htx Hrx.
    destruct (handler_at_end hw s) as (s' & t & E & Hi & Hr & Ht & Hdone); [lia | lia |].
    destruct (Hdone Herr Htxe) as (Hc & _ & v & Hw & H7 & H6).
    exists s', t, v. repeat (split; [assumption|]). split; congruence.
  - intros Hn Hpre.
    destruct (transfer_run env tx_data rx_data n m Hpre)
      as (s1 & t1 & k & s2 & t2 & E & Hinv1 & Hinv2 & Hev1 & Hev2 & Hk & _ & _ & Hlast).
    eexists _, _. split; [exact E|]. cbn [spi_state]. intros Hr.
    destruct (transfer_result_cases s2 k) as ([[? _] | [[? _] | (_ & He & Hlt)]] & _);
      try lia.
    assert (transfer_complete s1 = 1) as Hc1.
    { destruct Hinv1 as (_ & _ & [Hc | [Hc _]]); [|exact Hc].
      exfalso. apply (Hlast Hlt). split; [exact Hc|].
      destruct (Z.eq_dec (error_occurred s1) 0) as [?|Hne]; [assumption|].
      destruct Hev2 as (_ & _ & _ & _ & Hmono). apply Hmono in Hne. contradiction. }
    assert (total_bytes s2 = n) as Ht.
    { destruct Hev1 as (Ht1 & _), Hev2 as (Ht2 & _). rewrite Ht2, Ht1. reflexivity. }
    assert (transfer_complete s2 = 1) as Hc2.
    { destruct Hev2 as (_ & _ & _ & Hmono & _). auto. }
    destruct Hinv2 as (_ & _ & [Hc | (_ & Hi & Hrx)]); [lia|].
    rewrite Hi, Hrx, Ht. auto.
Qed.

Lemma completion_and_success_witness :
  (exists s' t v,
     spi0_interrupt_handler snap_txe ctx_at_end = Ret (s', t) /\
     transfer_complete s' = 1 /\
     List.filter is_cr2_write t = [MmioWrite SPI_CR2 v] /\
     Z.testbit v 7 = false /\ Z.testbit v 6 = false /\
     tx_index s' = total_bytes s' /\ rx_index s' = total_bytes s') /\
  (exists r m',
     g233_spi_transfer_interrupt (env_of [sched_reply [0xAA; 0x02]]) [5; 0] [0; 0] 2 boot
       = Ret (r, m') /\
     (r = 0 ->
      tx_index (spi_state m') = 2 /\ rx_index (spi_state m') = 2 /\
      transfer_complete (spi_state m') = 1 /\
      error_occurred (spi_state m') = 0)).
Proof.
  destruct (completion_and_success snap_txe ctx_at_end
              (env_of [sched_reply [0xAA; 0x02]]) [5; 0] [0; 0] 2 boot) as [H1 H2].
  split.
  - apply H1; reflexivity.
  - apply H2; [lia|]. unfold transfer_pre, INT_MAX. simpl. lia.
Defined.

(** ** The fuel is enough *)

Lemma handler_never_diverges (hw : irq_snapshot) (s : spi_transfer_state_t) :
  spi0_interrupt_handler hw s <> Diverge.
Proof.
  unfold spi0_interrupt_handler, handle_rxne, handle_txe, buf_store, buf_load.
  repeat case_match; cbn; repeat case_match; cbn; discriminate.
Qed.

Lemma deliver_never_diverges (irqs : list irq_snapshot) :
  forall s : spi_transfer_state_t, deliver irqs s <> Diverge.
Proof.
  induction irqs as [|hw rest IH]; intros s; cbn [deliver]; [discriminate|].
  pose proof (handler_never_diverges hw s) as Hh.
  destruct (spi0_interrupt_handler hw s) as [[s1 t1]| |]; cbn;
    [|discriminate | contradiction].
  pose proof (IH s1) as Hd.
  destruct (deliver rest s1) as [[s2 t2]| |]; cbn;
    [discriminate | discriminate | contradiction].
Qed.

Lemma wait_loop_never_diverges (sched : irq_schedule) (fuel : nat) :
  forall (timeout_count : Z) (s : spi_transfer_state_t),
  0 <= timeout_count -> Z.of_nat fuel = max_timeout - timeout_count ->
  wait_loop sched fuel timeout_count s <> Diverge.
Proof.
  induction fuel as [|fuel IH]; intros tc s Htc Hfuel; cbn [wait_loop];
    pose proof (deliver_never_diverges (irq_before_check sched tc) s) as Hd;
    destruct (deliver (irq_before_check sched tc) s) as [[s1 t1]| |]; cbn;
    try discriminate; try contradiction;
    destruct (wait_cond s1 tc) eqn:Hcond; try discriminate;
    apply wait_cond_true in Hcond as [_ Hlt].
  - lia.
  - rewrite wrap_int_id
      by (unfold int_range, INT_MIN, INT_MAX, max_timeout in *; lia).
    pose proof (IH (tc + 1) s1) as Hw.
    destruct (wait_loop sched fuel (tc + 1) s1) as [[[s2 t2] n]| |]; cbn;
      [discriminate | discriminate |].
    exfalso. apply Hw; [lia | lia | reflexivity].
Qed.

(** A transfer ends on every input: the model never runs out of fuel. *)
Lemma transfer_never_diverges (env : environment) (tx_data rx_data : list Z)
    (len : Z) (m : machine) :
  g233_spi_transfer_interrupt env tx_data rx_data len m <> Diverge.
Proof.
  unfold g233_spi_transfer_interrupt.
  pose proof (wait_loop_never_diverges (env (transfers m)) (Z.to_nat max_timeout) 0
                (init_state tx_data rx_data len)) as Hw.
  destruct (wait_loop _ _ _ _) as [[[s1 t1] n]| |]; cbn;
    [|discriminate|].
  - pose proof (deliver_never_diverges (irq_before_disable (env (transfers m))) s1) as Hd.
    destruct (deliver _ s1) as [[s2 t2]| |]; cbn;
      [|discriminate | contradiction].
    destruct (transfer_result s2 n). discriminate.
  - exfalso. apply Hw; [lia | unfold max_timeout; lia | reflexivity].
Qed.

(** ** Facts about every context of a transfer *)





(** What callers rely on: a transfer whose precondition holds returns one
    of the three results, counts as one transfer, appends to the trace and
    keeps the size of the receive buffer. *)
Lemma transfer_total (env : environment) (tx_data rx_data : list Z) (len : Z)
    (m : machine) :
  transfer_pre tx_data rx_data len ->
  exists r m' t,
    g233_spi_transfer_interrupt env tx_data rx_data len m = Ret (r, m') /\
    (r = -1 \/ r = -2 \/ r = 0) /\
    transfers m' = S (transfers m) /\
    trace m' = trace m ++ t /\
    pp_tx_data m' = pp_tx_data m /\ pp_rx_data m' = pp_rx_data m /\
    length (rx_buffer (spi_state m')) = length rx_data /\
    tx_buffer (spi_state m') = tx_data /\
    total_bytes (spi_state m') = len.
Proof.
  intros Hpre.
  destruct (transfer_run env tx_data rx_data len m Hpre)
    as (s1 & t1 & n & s2 & t2 & E & _ & _ & Hev1 & Hev2 & _).
  pose proof (evolves_trans _ _ _ Hev1 Hev2) as (Ht & Hb & Hl & _).
  destruct (transfer_result_cases s2 n) as (Hres & _).
  eexists _, _, _. split; [exact E|]. cbn.
  split; [intuition|]. repeat split; assumption.
Qed.

(** ** The result of a transfer *)

(** X24: what a call of [g233_spi_transfer_interrupt] returns, as the code
    has it.  The call always ends, and it returns whenever both buffers
    hold [len] bytes.  Whenever it returns, the result is -1, -2 or 0: -1
    exactly when [error_occurred] is set at the end; -2 exactly when it is
    not and the wait loop ran its 100000 iterations, that is, each of the
    100000 checks that can start an iteration saw neither completion nor
    error (whether or not the transfer completed during the last
    iteration); and 0 otherwise.  In every case the last register access of
    the call is the write of 0 to CR2, after the write that enabled the
    three interrupts and before the line that reports the result. *)
Theorem transfer_result_and_disable (env : environment)
    (tx_data rx_data : list Z) (len : Z) (m : machine) :
  g233_spi_transfer_interrupt env tx_data rx_data len m <> Diverge /\
  (transfer_pre tx_data rx_data len ->
   exists r m', g233_spi_transfer_interrupt env tx_data rx_data len m = Ret (r, m')) /\
  (forall r m',
     g233_spi_transfer_interrupt env tx_data rx_data len m = Ret (r, m') ->
     (r = -1 \/ r = -2 \/ r = 0) /\
     (r = -1 <-> error_occurred (spi_state m') <> 0) /\
     (r = -2 <->
      error_occurred (spi_state m') = 0 /\
      forall k : nat, Z.of_nat k < 100000 ->
        exists sk,
          ctx_from (env (transfers m)) 0 (init_state tx_data rx_data len) k = Ret sk /\
          flags_clear sk) /\
     exists mid line,
       trace m' =
         trace m ++
         [LOG_INF "Starting interrupt-driven SPI transfer (%d bytes)" [len];
          MmioWrite SPI_CR2 0xE0] ++
         mid ++ [MmioWrite SPI_CR2 0; line] /\
       is_print line = true).
Proof.
  split; [apply transfer_never_diverges|]. split.
  { intros Hpre.
    destruct (transfer_total env tx_data rx_data len m Hpre) as (r & m' & _ & E & _).
    exists r, m'. exact E. }
  intros r m' Hrun. unfold g233_spi_transfer_interrupt in Hrun.
  destruct (wait_loop _ _ _ _) as [[[s1 t1] n]| |] eqn:E1; cbn in Hrun;
    try discriminate.
  destruct (deliver _ s1) as [[s2 t2]| |] eqn:E2; cbn in Hrun; try discriminate.
  apply wait_loop_ret in E1 as (Hn & Hctx & Hall & Hlast);
    [|lia | unfold max_timeout; lia].
  rewrite Z.sub_0_r in Hctx.
  destruct (transfer_result_cases s2 n) as (Hres & line & Hline & Hprint).
  destruct (transfer_result s2 n) as [r' t3]. cbn in Hres, Hline. subst t3.
  injection Hrun as <- <-. cbn [spi_state trace].
  change max_timeout with 100000 in *.
  split; [intuition|]. split; [intuition lia|]. split.
  - split.
    + intros Hr. destruct Hres as [[? _] | [(_ & He & Hmax) | [? _]]]; try lia.
      split; [exact He|]. intros k Hk. apply Hall. lia.
    + intros [He Hclear].
      destruct Hres as [[_ ?] | [[? _] | (_ & _ & Hlt)]]; [contradiction | assumption |].
      exfalso. apply (Hlast Hlt).
      destruct (Hclear (Z.to_nat n)) as (sk & Esk & Hsk); [lia|].
      rewrite Hctx in Esk. injection Esk as <-. exact Hsk.
  - exists (t1 ++ t2), line. split; [|exact Hprint].
    rewrite <- !app_assoc. reflexivity.
Qed.

Lemma transfer_result_and_disable_witness :
  exists m',
    g233_spi_transfer_interrupt (env_of [sched_reply [0xAA; 0x02]]) [5; 0] [0; 0] 2 boot
      = Ret (0, m') /\
    (0 = -1 \/ 0 = -2 \/ 0 = 0) /\
    (0 = -1 <-> error_occurred (spi_state m') <> 0) /\
    (0 = -2 <->
     error_occurred (spi_state m') = 0 /\
     forall k : nat, Z.of_nat k < 100000 ->
       exists sk,
         ctx_from (env_of [sched_reply [0xAA; 0x02]] (transfers boot)) 0
           (init_state [5; 0] [0; 0] 2) k = Ret sk /\
         flags_clear sk) /\
    exists mid line,
      trace m' =
        trace boot ++
        [LOG_INF "Starting interrupt-driven SPI transfer (%d bytes)" [2];
         MmioWrite SPI_CR2 0xE0] ++
        mid ++ [MmioWrite SPI_CR2 0; line] /\
      is_print line = true.
Proof.
  assert (exists m',
            g233_spi_transfer_interrupt (env_of [sched_reply [0xAA; 0x02]])
              [5; 0] [0; 0] 2 boot = Ret (0, m'))
    as (m' & E) by (vm_compute; eexists; reflexivity).
  exists m'. split; [exact E|].
  exact (proj2 (proj2 (transfer_result_and_disable
                         (env_of [sched_reply [0xAA; 0x02]]) [5; 0] [0; 0] 2 boot))
           0 m' E).
Defined.

(** ** The flash commands *)

Lemma pre_of_lengths (tx_data rx_data : list Z) (len : Z) :
  0 <= len <= 260 ->
  Z.of_nat (length tx_data) = len -> Z.of_nat (length rx_data) = len ->
  transfer_pre tx_data rx_data len.
Proof. unfold transfer_pre, INT_MAX. lia. Qed.

(** C9: [flash_read_status] always returns.  When its transfer fails
    (returns a value other than 0: error or timeout) the result is the
    default 0xFF, whose busy bit (bit 0) is set, whatever was received;
    when the transfer succeeds the result is the second received byte. *)
Theorem read_status_default (env : environment) (m : machine) :
  exists r m1 status m',
    g233_spi_transfer_interrupt env [W25X16_READ_STATUS; 0x00] [0; 0] 2
      (g233_spi_cs_assert m) = Ret (r, m1) /\
    flash_read_status env m = Ret (status, m') /\
    (r <> 0 -> status = 0xFF /\ Z.testbit status 0 = true) /\
    (r = 0 -> rx_buffer (spi_state m1) !! 1%nat = Some status).
Proof.
  destruct (transfer_total env [W25X16_READ_STATUS; 0x00] [0; 0] 2 (g233_spi_cs_assert m))
    as (r & m1 & t & E & _ & _ & _ & _ & _ & Hl & _).
  { apply pre_of_lengths; [lia | reflexivity | reflexivity]. }
  unfold flash_read_status. rewrite E. cbn.
  destruct (Z.eqb_spec r 0) as [Hr|Hr].
  - destruct (buf_load_ok (rx_buffer (spi_state m1)) 1) as (b & Eb & Hb).
    { rewrite Hl. cbn. lia. }
    rewrite Hb. cbn.
    exists r, m1, b, (g233_spi_cs_deassert m1).
    split; [reflexivity|]. split; [reflexivity|]. split; [contradiction|].
    intros _. exact Hb.
  - cbn. eexists r, m1, _, _.
    split; [reflexivity|]. split; [reflexivity|].
    split; [intros _; split; reflexivity | contradiction].
Qed.

Lemma byte_high_bits (b i : Z) : 0 <= b < 256 -> 8 <= i -> Z.testbit b i = false.
Proof.
  intros Hb Hi. rewrite <- (Z.mod_small b (2 ^ 8)) by lia.
  apply Z.mod_pow2_bits_high. lia.
Qed.



(** The scenario of the test program: the flash answers the JEDEC command
    with 0xEF 0x30 0x15 after the byte clocked in with the command. *)
Example read_jedec_id_w25x16 :
  exists m',
    flash_read_jedec_id (env_of [sched_reply [0xFF; 0xEF; 0x30; 0x15]]) boot
      = Ret (0xEF3015, m') /\
    List.filter is_dr_access (trace m') =
      [MmioWrite SPI_DR 0x9F; MmioRead SPI_DR 0xFF; MmioWrite SPI_DR 0;
       MmioRead SPI_DR 0xEF; MmioWrite SPI_DR 0; MmioRead SPI_DR 0x30;
       MmioWrite SPI_DR 0; MmioRead SPI_DR 0x15].
Proof. vm_compute. eexists. split; reflexivity. Qed.

Lemma read_status_total (env : environment) (m : machine) :
  exists status m' t,
    flash_read_status env m = Ret (status, m') /\
    transfers m' = S (transfers m) /\
    trace m' = trace m ++ MmioWrite SPI_CSCTRL 0x11 :: t.
Proof.
  destruct (transfer_total env [W25X16_READ_STATUS; 0x00] [0; 0] 2 (g233_spi_cs_assert m))
    as (r & m1 & t & E & _ & Hn & Ht & _ & _ & Hl & _).
  { apply pre_of_lengths; [lia | reflexivity | reflexivity]. }
  unfold flash_read_status. rewrite E. cbn.
  cbn in Ht. rewrite <- app_assoc in Ht. cbn in Ht.
  destruct (r =? 0).
  - destruct (buf_load_ok (rx_buffer (spi_state m1)) 1) as (b & _ & Hb).
    { rewrite Hl. cbn. lia. }
    rewrite Hb. cbn. eexists _, _, _. split; [reflexivity|].
    cbn. split; [exact Hn|]. rewrite Ht, <- app_assoc. reflexivity.
  - cbn. eexists _, _, _. split; [reflexivity|].
    cbn. split; [exact Hn|]. rewrite Ht, <- !app_assoc. reflexivity.
Qed.

(** The busy wait always returns, after at least one status read. *)
Lemma wait_busy_loop_total (env : environment) (fuel : nat) :
  forall (retry_count : Z) (m : machine),
  0 <= retry_count -> Z.of_nat fuel = busy_retries - retry_count ->
  exists m' t,
    wait_busy_loop env fuel retry_count m = Ret m' /\
    (transfers m < transfers m')%nat /\
    trace m' = trace m ++ MmioWrite SPI_CSCTRL 0x11 :: t.
Proof.
  induction fuel as [|fuel IH]; intros rc m Hrc Hfuel;
    destruct (read_status_total env m) as (status & m1 & t1 & E1 & Hn1 & Ht1);
    cbn [wait_busy_loop]; rewrite E1; cbn;
    rewrite wrap_int_id
      by (unfold int_range, INT_MIN, INT_MAX, busy_retries in *; lia).
  - destruct (Z.ltb_spec busy_retries (rc + 1)); [|lia].
    eexists _, _. split; [reflexivity|]. cbn. split; [lia|].
    rewrite Ht1, <- app_assoc. reflexivity.
  - destruct (Z.ltb_spec busy_retries (rc + 1)).
    + eexists _, _. split; [reflexivity|]. cbn. split; [lia|].
      rewrite Ht1, <- app_assoc. reflexivity.
    + destruct (c_true (Z.land status 1)).
      * destruct (IH (rc + 1) m1) as (m' & t & E & Hn & Ht); [lia | lia |].
        exists m'. eexists. split; [exact E|]. split; [lia|].
        rewrite Ht, Ht1, <- app_assoc. reflexivity.
      * exists m1, t1. split; [reflexivity|]. split; [lia | exact Ht1].
Qed.

Lemma wait_busy_total (env : environment) (m : machine) :
  exists m' t,
    flash_wait_busy env m = Ret m' /\
    (transfers m < transfers m')%nat /\
    trace m' = trace m ++ MmioWrite SPI_CSCTRL 0x11 :: t.
Proof.
  apply wait_busy_loop_total; [lia|]. unfold busy_retries. lia.
Qed.

Lemma write_enable_total (env : environment) (m : machine) :
  exists m', flash_write_enable env m = Ret m'.
Proof.
  destruct (transfer_total env [W25X16_WRITE_ENABLE] [0] 1 (g233_spi_cs_assert m))
    as (r & m1 & t & E & _).
  { apply pre_of_lengths; [lia | reflexivity | reflexivity]. }
  unfold flash_write_enable. rewrite E. cbn. eexists. reflexivity.
Qed.

(** C3 (as the code has it): [flash_sector_erase] and [flash_page_program]
    drop the result of their command transfer.  Whatever that transfer
    returned, failure included, they go on: chip select is released, the
    busy wait runs with at least one status read (chip select is taken
    again and a further transfer is started), and the completion line is
    printed.  [flash_sector_erase] always returns; [flash_page_program]
    returns whenever its command phase does. *)
Theorem erase_program_continue (env : environment) (addr : Z) (data : list Z)
    (len : Z) (m : machine) :
  (exists r m1 m' t,
     sector_erase_command env addr m = Ret (r, m1) /\
     (r = -1 \/ r = -2 \/ r = 0) /\
     flash_sector_erase env addr m = Ret m' /\
     (transfers m1 < transfers m')%nat /\
     trace m' =
       trace m1 ++ [MmioWrite SPI_CSCTRL 0; MmioWrite SPI_CSCTRL 0x11] ++ t ++
       [LOG_INF "Sector erase completed" []]) /\
  (forall r m1,
     page_program_command env addr data len m = Ret (r, m1) ->
     exists m' t,
       flash_page_program env addr data len m = Ret m' /\
       (transfers m1 < transfers m')%nat /\
       trace m' =
         trace m1 ++ [MmioWrite SPI_CSCTRL 0; MmioWrite SPI_CSCTRL 0x11] ++ t ++
         [LOG_INF "Page program completed" []]).
Proof.
  split.
  - unfold flash_sector_erase, sector_erase_command.
    set (m0 := emit _ m).
    destruct (write_enable_total env m0) as (mw & Ew). rewrite Ew. cbn.
    destruct (transfer_total env (W25X16_SECTOR_ERASE :: addr_bytes addr) [0; 0; 0; 0] 4
                (g233_spi_cs_assert mw)) as (r & m1 & t1 & E & Hr & _).
    { apply pre_of_lengths; [lia | reflexivity | reflexivity]. }
    rewrite E. cbn.
    destruct (wait_busy_total env (g233_spi_cs_deassert m1)) as (m2 & t & E2 & Hn & Ht).
    rewrite E2. cbn.
    exists r, m1, (emit [LOG_INF "Sector erase completed" []] m2), t.
    split; [reflexivity|]. split; [exact Hr|]. split; [reflexivity|].
    split; [exact Hn|]. cbn. rewrite Ht. cbn. rewrite <- !app_assoc. reflexivity.
  - intros r m1 E. unfold flash_page_program. rewrite E. cbn.
    destruct (wait_busy_total env (g233_spi_cs_deassert m1)) as (m2 & t & E2 & Hn & Ht).
    rewrite E2. cbn.
    exists (emit [LOG_INF "Page program completed" []] m2), t.
    split; [reflexivity|]. split; [exact Hn|].
    cbn. rewrite Ht. cbn. rewrite <- !app_assoc. reflexivity.
Qed.

Lemma erase_program_continue_witness :
  exists m1 m' t,
    page_program_command env_command_fails 0 [1; 2] 2 boot = Ret (-1, m1) /\
    flash_page_program env_command_fails 0 [1; 2] 2 boot = Ret m' /\
    (transfers m1 < transfers m')%nat /\
    trace m' =
      trace m1 ++ [MmioWrite SPI_CSCTRL 0; MmioWrite SPI_CSCTRL 0x11] ++ t ++
      [LOG_INF "Page program completed" []].
Proof.
  assert (exists m1, page_program_command env_command_fails 0 [1; 2] 2 boot
                     = Ret (-1, m1)) as [m1 E]
    by (vm_compute; eexists; reflexivity).
  destruct (proj2 (erase_program_continue env_command_fails 0 [1; 2] 2 boot) _ _ E)
    as (m' & t & H).
  exists m1, m', t. split; [exact E | exact H].
Defined.

(** C3, as stated, fails: when the erase (or program) command transfer
    returns -1, the operation still releases chip select and runs the busy
    wait, whose status read (command 0x05) is the third transfer of the
    call, and reports completion. *)
Lemma wait_follows_failed_command :
  (exists m1 m',
     sector_erase_command env_command_fails 0 boot = Ret (-1, m1) /\
     flash_sector_erase env_command_fails 0 boot = Ret m' /\
     transfers m1 = 2%nat /\ transfers m' = 3%nat /\
     List.filter is_dr_access (skipn (length (trace m1)) (trace m')) =
       [MmioWrite SPI_DR 0x05; MmioRead SPI_DR 0; MmioWrite SPI_DR 0;
        MmioRead SPI_DR 0] /\
     last (trace m') = Some (LOG_INF "Sector erase completed" [])) /\
  (exists m1 m',
     page_program_command env_command_fails 0 [1; 2] 2 boot = Ret (-1, m1) /\
     flash_page_program env_command_fails 0 [1; 2] 2 boot = Ret m' /\
     transfers m1 = 2%nat /\ transfers m' = 3%nat /\
     List.filter is_dr_access (skipn (length (trace m1)) (trace m')) =
       [MmioWrite SPI_DR 0x05; MmioRead SPI_DR 0; MmioWrite SPI_DR 0;
        MmioRead SPI_DR 0] /\
     last (trace m') = Some (LOG_INF "Page program completed" [])).
Proof.
  split; vm_compute; eexists _, _; repeat split.
Qed.

(** ** Writes to CR2 during a transfer *)

Lemma handler_cr2_writes (hw : irq_snapshot) (s s' : spi_transfer_state_t)
    (t : list event) :
  spi0_interrupt_handler hw s = Ret (s', t) ->
  Forall is_completion_write (List.filter is_cr2_write t).
Proof.
  intros H. apply handler_inv in H. cbv zeta in H.
  destruct H as [(_ & _ & -> & _) | (_ & s2 & t2 & t3 & H2 & H3 & ->)];
    [constructor|].
  cbn. rewrite List.filter_app.
  assert (List.filter is_cr2_write t2 = []) as ->.
  { destruct (rxne_irq hw).
    - apply handle_rxne_inv in H2 as (-> & _). reflexivity.
    - injection H2 as _ <-. reflexivity. }
  cbn. destruct (txe_irq hw).
  - apply handle_txe_inv in H3 as (_ & _ & _ & [([b ->] & _) | (-> & _)]).
    + constructor.
    + cbn. constructor; [|constructor].
      eexists hw, _. split; [reflexivity|].
      rewrite !completion_mask_bits by lia.
      split; [destruct (Z.testbit (hw_cr2 hw) 7); reflexivity|].
      split; [destruct (Z.testbit (hw_cr2 hw) 6); reflexivity|].
      intros i Hi H6 H7. rewrite completion_mask_bits by lia.
      destruct (Z.ltb_spec i 32); [|lia].
      destruct (Z.eqb_spec i 7); [lia|]. destruct (Z.eqb_spec i 6); [lia|].
      cbn. rewrite !andb_true_r. reflexivity.
  - injection H3 as _ <-. constructor.
Qed.

Lemma deliver_cr2_writes (irqs : list irq_snapshot) :
  forall (s s' : spi_transfer_state_t) (t : list event),
  deliver irqs s = Ret (s', t) ->
  Forall is_completion_write (List.filter is_cr2_write t).
Proof.
  induction irqs as [|hw rest IH]; intros s s' t Hrun; cbn [deliver] in Hrun.
  - injection Hrun as _ <-. constructor.
  - destruct (spi0_interrupt_handler hw s) as [[s1 t1]| |] eqn:E1; cbn in Hrun;
      try discriminate.
    destruct (deliver rest s1) as [[s2 t2]| |] eqn:E2; cbn in Hrun; try discriminate.
    injection Hrun as _ <-. rewrite List.filter_app. apply Forall_app. split.
    + eapply handler_cr2_writes. exact E1.
    + eapply IH. exact E2.
Qed.

Lemma wait_loop_cr2_writes (sched : irq_schedule) (fuel : nat) :
  forall (k : Z) (s s' : spi_transfer_state_t) (t : list event) (n : Z),
  wait_loop sched fuel k s = Ret (s', t, n) ->
  Forall is_completion_write (List.filter is_cr2_write t).
Proof.
  induction fuel as [|fuel IH]; intros k s s' t n Hrun; cbn [wait_loop] in Hrun;
    destruct (deliver (irq_before_check sched k) s) as [[s1 t1]| |] eqn:E1;
    cbn in Hrun; try discriminate;
    pose proof (deliver_cr2_writes _ _ _ _ E1) as H1;
    destruct (wait_cond s1 k); try discriminate.
  - injection Hrun as _ <- _. exact H1.
  - destruct (wait_loop sched fuel (wrap_int (k + 1)) s1) as [[[s2 t2] n2]| |] eqn:E2;
      cbn in Hrun; try discriminate.
    injection Hrun as _ <- _. rewrite List.filter_app. apply Forall_app.
    split; [exact H1 | eapply IH; exact E2].
  - injection Hrun as _ <- _. exact H1.
Qed.

(** The writes to CR2 of one transfer, in order: the enabling write, the
    completion writes of the handler, and the disabling write. *)
Lemma transfer_cr2_writes (env : environment) (tx_data rx_data : list Z) (len : Z)
    (m m' : machine) (r : Z) :
  g233_spi_transfer_interrupt env tx_data rx_data len m = Ret (r, m') ->
  exists t ws,
    trace m' = trace m ++ t /\
    List.filter is_cr2_write t =
      MmioWrite SPI_CR2 cr2_enable :: ws ++ [MmioWrite SPI_CR2 0] /\
    Forall is_completion_write ws.
Proof.
  unfold g233_spi_transfer_interrupt. intros Hrun.
  destruct (wait_loop _ _ _ _) as [[[s1 t1] n]| |] eqn:E1; cbn in Hrun;
    try discriminate.
  destruct (deliver _ s1) as [[s2 t2]| |] eqn:E2; cbn in Hrun; try discriminate.
  destruct (transfer_result_cases s2 n) as (_ & line & Hline & Hprint).
  destruct (transfer_result s2 n) as [r' t3]. cbn in Hline. subst t3.
  injection Hrun as _ <-. cbn [trace].
  eexists _, (List.filter is_cr2_write t1 ++ List.filter is_cr2_write t2).
  split; [reflexivity|]. split.
  - cbn. rewrite !List.filter_app. cbn.
    destruct line; try discriminate. cbn. rewrite <- app_assoc. reflexivity.
  - apply Forall_app. split.
    + eapply wait_loop_cr2_writes. exact E1.
    + eapply deliver_cr2_writes. exact E2.
Qed.

(** C10: a run of the handler writes CR2 only when it marks the transfer
    complete, and then exactly once; the value written is the CR2 value read
    at entry with TXEIE (bit 7) and RXNEIE (bit 6) cleared and every other
    bit, ERRIE (bit 5) in particular, as read: with the value the transfer
    engine wrote (all three enables) it is ERRIE alone.  During a transfer
    the program writes CR2 only to enable the three interrupts, in such
    completion writes, and last to disable them all; so the program leaves
    ERRIE as it is until the transfer engine's own write of 0. *)
Theorem completion_write_frame (hw : irq_snapshot) (s s' : spi_transfer_state_t)
    (t : list event) (env : environment) (tx_data rx_data : list Z) (len : Z)
    (m m' : machine) (r : Z) :
  (spi0_interrupt_handler hw s = Ret (s', t) ->
   (transfer_complete s' <> transfer_complete s ->
    exists v, In (MmioWrite SPI_CR2 v) t) /\
   (forall v, In (MmioWrite SPI_CR2 v) t ->
      transfer_complete s' = 1 /\
      List.filter is_cr2_write t = [MmioWrite SPI_CR2 v] /\
      Z.testbit v 7 = false /\ Z.testbit v 6 = false /\
      Z.testbit v 5 = Z.testbit (hw_cr2 hw) 5 /\
      (forall i, 0 <= i < 32 -> i <> 6 -> i <> 7 ->
         Z.testbit v i = Z.testbit (hw_cr2 hw) i) /\
      (forall i, 32 <= i -> Z.testbit v i = false) /\
      (to_u32 (hw_cr2 hw) = cr2_enable -> v = SPI_CR2_ERRIE))) /\
  (g233_spi_transfer_interrupt env tx_data rx_data len m = Ret (r, m') ->
   exists t' ws,
     trace m' = trace m ++ t' /\
     List.filter is_cr2_write t' =
       MmioWrite SPI_CR2 cr2_enable :: ws ++ [MmioWrite SPI_CR2 0] /\
     Forall is_completion_write ws).
Proof.
  split.
  - apply handler_completion_write.
  - apply transfer_cr2_writes.
Qed.

Lemma completion_write_frame_witness :
  exists s' t m',
    spi0_interrupt_handler snap_txe ctx_at_end = Ret (s', t) /\
    g233_spi_transfer_interrupt (env_of [sched_reply [0xAA; 0x02]]) [5; 0] [0; 0] 2 boot
      = Ret (0, m') /\
    ((transfer_complete s' <> transfer_complete ctx_at_end ->
      exists v, In (MmioWrite SPI_CR2 v) t) /\
     (forall v, In (MmioWrite SPI_CR2 v) t ->
        transfer_complete s' = 1 /\
        List.filter is_cr2_write t = [MmioWrite SPI_CR2 v] /\
        Z.testbit v 7 = false /\ Z.testbit v 6 = false /\
        Z.testbit v 5 = Z.testbit (hw_cr2 snap_txe) 5 /\
        (forall i, 0 <= i < 32 -> i <> 6 -> i <> 7 ->
           Z.testbit v i = Z.testbit (hw_cr2 snap_txe) i) /\
        (forall i, 32 <= i -> Z.testbit v i = false) /\
        (to_u32 (hw_cr2 snap_txe) = cr2_enable -> v = SPI_CR2_ERRIE))) /\
    (exists t' ws,
       trace m' = trace boot ++ t' /\
       List.filter is_cr2_write t' =
         MmioWrite SPI_CR2 cr2_enable :: ws ++ [MmioWrite SPI_CR2 0] /\
       Forall is_completion_write ws).
Proof.
  assert (exists s' t, spi0_interrupt_handler snap_txe ctx_at_end = Ret (s', t))
    as (s' & t & E1) by (vm_compute; eexists _, _; reflexivity).
  assert (exists m',
            g233_spi_transfer_interrupt (env_of [sched_reply [0xAA; 0x02]])
              [5; 0] [0; 0] 2 boot = Ret (0, m'))
    as (m' & E2) by (vm_compute; eexists; reflexivity).
  destruct (completion_write_frame snap_txe ctx_at_end s' t
              (env_of [sched_reply [0xAA; 0x02]]) [5; 0] [0; 0] 2 boot m' 0)
    as [H1 H2].
  exists s', t, m'. split; [exact E1|]. split; [exact E2|].
  split; [exact (H1 E1) | exact (H2 E2)].
Defined.

End InterruptFacts.

(** * Properties of the two-flash program *)

Module DualCSFacts.
Import DualCS.

#[local] Arguments Z.testbit : simpl never.
#[local] Arguments Z.land : simpl never.

(** ** Chip select *)

Lemma csctrl_after_assert (cs : Z) (m : machine) :
  csctrl (g233_spi_cs_assert cs m) =
  if cs =? 0 then 0x11 else if cs =? 1 then 0x22 else 0.
Proof.
  unfold g233_spi_cs_assert, FLASH_CS0, FLASH_CS1.
  destruct (cs =? 0); [reflexivity|]. destruct (cs =? 1); reflexivity.
Qed.

(** C8: for a line [cs] in {0, 1} and any previous content of the
    chip-select control register, after [g233_spi_cs_assert cs] the enable
    bit (bit [line]) and the active bit (bit [4 + line]) of a line are set
    exactly for [line = cs], and no other bit of the register is set; after
    [g233_spi_cs_deassert] the register is 0; and asserting [cs] directly
    after asserting a line [a] gives the same register as asserting [cs]
    alone, so one line is active, never both. *)
Theorem cs_assert_exclusive (cs a : Z) (m : machine) :
  cs = 0 \/ cs = 1 ->
  a = 0 \/ a = 1 ->
  let after := csctrl (g233_spi_cs_assert cs m) in
  (forall line, 0 <= line <= 3 ->
     Z.testbit after line = (line =? cs) /\
     Z.testbit after (4 + line) = (line =? cs)) /\
  (forall i, 8 <= i -> Z.testbit after i = false) /\
  csctrl (g233_spi_cs_deassert (g233_spi_cs_assert cs m)) = 0 /\
  csctrl (g233_spi_cs_deassert m) = 0 /\
  csctrl (g233_spi_cs_assert cs (g233_spi_cs_assert a m)) = after.
Proof.
  intros Hcs Ha after. subst after. rewrite !csctrl_after_assert.
  split; [|split; [|split; [reflexivity | split; [reflexivity | reflexivity]]]].
  - intros line Hline.
    assert (line = 0 \/ line = 1 \/ line = 2 \/ line = 3) as Hl by lia.
    destruct Hcs as [-> | ->];
      destruct Hl as [-> | [-> | [-> | ->]]]; split; reflexivity.
  - intros i Hi.
    destruct Hcs as [-> | ->]; cbn;
      apply InterruptFacts.byte_high_bits; lia.
Qed.

Lemma cs_assert_exclusive_witness :
  let after := csctrl (g233_spi_cs_assert 1 (mk_machine 0xFF 0 [])) in
  (forall line, 0 <= line <= 3 ->
     Z.testbit after line = (line =? 1) /\
     Z.testbit after (4 + line) = (line =? 1)) /\
  (forall i, 8 <= i -> Z.testbit after i = false) /\
  csctrl (g233_spi_cs_deassert (g233_spi_cs_assert 1 (mk_machine 0xFF 0 []))) = 0 /\
  csctrl (g233_spi_cs_deassert (mk_machine 0xFF 0 [])) = 0 /\
  csctrl (g233_spi_cs_assert 1 (g233_spi_cs_assert 0 (mk_machine 0xFF 0 []))) = after.
Proof.
  apply (cs_assert_exclusive 1 0 (mk_machine 0xFF 0 [])); [right | left]; reflexivity.
Defined.

(** ** Polled transfers *)






End DualCSFacts.

(** * Further properties of the interrupt-driven program *)

Module InterruptMore.
Import Interrupt InterruptExt Notions MoreNotions InterruptFacts.

#[local] Arguments Z.testbit : simpl never.
#[local] Arguments Z.land : simpl never.

(** ** The bytes moved by a transfer *)

Lemma dr_reads_app (t1 t2 : list event) :
  dr_reads (t1 ++ t2) = dr_reads t1 ++ dr_reads t2.
Proof.
  induction t1 as [|e t1 IH]; [reflexivity|].
  destruct e as [[] v|r v|f a]; cbn; rewrite IH; reflexivity.
Qed.

Lemma dr_writes_app (t1 t2 : list event) :
  dr_writes (t1 ++ t2) = dr_writes t1 ++ dr_writes t2.
Proof.
  induction t1 as [|e t1 IH]; [reflexivity|].
  destruct e as [r v|[] v|f a]; cbn; rewrite IH; reflexivity.
Qed.

Lemma sr_reads_app (t1 t2 : list event) :
  sr_reads (t1 ++ t2) = (sr_reads t1 + sr_reads t2)%nat.
Proof.
  induction t1 as [|e t1 IH]; [reflexivity|].
  destruct e as [[] v|r v|f a]; cbn; rewrite IH; reflexivity.
Qed.

(** The receive part, whenever it returns. *)
Lemma handle_rxne_ret (hw : irq_snapshot) (s s' : spi_transfer_state_t)
    (t : list event) :
  handle_rxne hw s = Ret (s', t) ->
  t = [MmioRead SPI_DR (to_u32 (hw_dr hw))] /\
  (rx_index s < total_bytes s /\
   0 <= rx_index s < Z.of_nat (length (rx_buffer s)) /\
   s' = set_rx_index (wrap_int (rx_index s + 1))
          (set_rx_buffer
             (<[Z.to_nat (rx_index s) := low_byte (to_u32 (hw_dr hw))]> (rx_buffer s)) s)
   \/
   total_bytes s <= rx_index s /\ s' = s).
Proof.
  unfold handle_rxne, buf_store. intros H.
  destruct (Z.ltb_spec (rx_index s) (total_bytes s)).
  - destruct (Z.leb_spec 0 (rx_index s)); cbn in H; try discriminate.
    destruct (Z.ltb_spec (rx_index s) (Z.of_nat (length (rx_buffer s))));
      cbn in H; try discriminate.
    injection H as <- <-. split; [reflexivity|]. left. repeat split; assumption.
  - injection H as <- <-. split; [reflexivity|]. right. split; [assumption | reflexivity].
Qed.

(** The transmit part, whenever it returns. *)
Lemma handle_txe_ret (cr2 : Z) (s s' : spi_transfer_state_t) (t : list event) :
  handle_txe cr2 s = Ret (s', t) ->
  (tx_index s < total_bytes s /\ 0 <= tx_index s /\
   exists b, tx_buffer s !! Z.to_nat (tx_index s) = Some b /\
             s' = set_tx_index (wrap_int (tx_index s + 1)) s /\
             t = [MmioWrite SPI_DR b])
  \/
  (total_bytes s <= tx_index s /\ rx_index s < total_bytes s /\
   s' = s /\ t = [MmioWrite SPI_DR 0])
  \/
  (total_bytes s <= tx_index s /\ total_bytes s <= rx_index s /\
   s' = set_transfer_complete 1 s /\ dr_writes t = [] /\ dr_reads t = [] /\
   sr_reads t = O).
Proof.
  unfold handle_txe, buf_load. intros H.
  destruct (Z.ltb_spec (tx_index s) (total_bytes s)).
  - destruct (Z.leb_spec 0 (tx_index s)); cbn in H; try discriminate.
    destruct (tx_buffer s !! Z.to_nat (tx_index s)) as [b|] eqn:Eb; cbn in H;
      try discriminate.
    injection H as <- <-. left. repeat split; try assumption. eauto.
  - destruct (Z.ltb_spec (rx_index s) (total_bytes s)); injection H as <- <-.
    + right. left. repeat split; assumption.
    + right. right. repeat split; assumption.
Qed.

Lemma replicate_snoc (k : nat) (x : Z) : replicate k x ++ [x] = replicate (S k) x.
Proof. induction k as [|k IH]; cbn; [reflexivity | rewrite IH; reflexivity]. Qed.

Lemma data_path_rxne (tx_data rx_data : list Z) (len : Z) (hw : irq_snapshot)
    (s s' : spi_transfer_state_t) (t : list event) (reads writes : list Z) :
  data_path tx_data rx_data len s reads writes ->
  handle_rxne hw s = Ret (s', t) ->
  data_path tx_data rx_data len s' (reads ++ dr_reads t) (writes ++ dr_writes t).
Proof.
  intros (Hb & Ht & Hmax & Htx & Hrx & Hw & Hle & Hlen & Htake & Hl & Hdrop) Hrun.
  apply handle_rxne_ret in Hrun as (-> & [(Hlt & Hin & ->) | (Hge & ->)]);
    cbn [dr_reads dr_writes]; rewrite app_nil_r.
  - rewrite Ht in Hlt. specialize (Hlen Hlt).
    unfold data_path. cbn.
    rewrite wrap_int_id by (unfold int_range, INT_MIN, INT_MAX in *; lia).
    replace (Z.to_nat (rx_index s + 1)) with (S (Z.to_nat (rx_index s))) by lia.
    repeat split; try assumption; try lia.
    + rewrite length_app. cbn. lia.
    + intros _. rewrite length_app. cbn. lia.
    + rewrite (take_S_r _ _ (low_byte (to_u32 (hw_dr hw))))
        by (apply list_lookup_insert_eq; lia).
      rewrite take_insert_ge by lia.
      rewrite (take_ge (reads ++ _)) by (rewrite length_app; cbn; lia).
      rewrite map_app. cbn. f_equal.
      rewrite Htake. rewrite (take_ge reads) by lia. reflexivity.
    + rewrite length_insert. exact Hl.
    + rewrite drop_insert_lt by lia. exact Hdrop.
  - rewrite Ht in Hge. unfold data_path.
    repeat split; try assumption; try lia.
    + rewrite length_app. lia.
    + rewrite take_app_le by lia. exact Htake.
Qed.

Lemma data_path_txe (tx_data rx_data : list Z) (len : Z) (cr2 : Z)
    (s s' : spi_transfer_state_t) (t : list event) (reads writes : list Z) :
  data_path tx_data rx_data len s reads writes ->
  handle_txe cr2 s = Ret (s', t) ->
  data_path tx_data rx_data len s' (reads ++ dr_reads t) (writes ++ dr_writes t).
Proof.
  intros (Hb & Ht & Hmax & Htx & Hrx & (k & Hw & Hk) & Hle & Hlen & Htake & Hl & Hdrop)
    Hrun.
  apply handle_txe_ret in Hrun
    as [(Hlt & H0 & b & Hbyte & -> & ->) | [(Hge & Hr & -> & ->) | (Hge & Hr & -> & -> & -> & _)]];
    cbn [dr_reads dr_writes]; rewrite ?app_nil_r.
  - rewrite Ht in Hlt. rewrite (Hk Hlt) in Hw. cbn in Hw. rewrite app_nil_r in Hw.
    unfold data_path. cbn.
    rewrite wrap_int_id by (unfold int_range, INT_MIN, INT_MAX in *; lia).
    replace (Z.to_nat (tx_index s + 1)) with (S (Z.to_nat (tx_index s))) by lia.
    repeat split; try assumption; try lia.
    exists O. split; [|reflexivity]. cbn. rewrite app_nil_r.
    rewrite Hb in Hbyte. rewrite (take_S_r _ _ b Hbyte), Hw. reflexivity.
  - rewrite Ht in Hge. unfold data_path.
    repeat split; try assumption; try lia.
    exists (S k). split; [|lia].
    rewrite Hw, <- app_assoc, replicate_snoc. reflexivity.
  - unfold data_path. cbn. repeat split; try assumption; try lia.
    exists k. split; assumption.
Qed.

(** One run of the handler keeps the data path. *)
Lemma data_path_handler (tx_data rx_data : list Z) (len : Z) (hw : irq_snapshot)
    (s s' : spi_transfer_state_t) (t t' : list event) :
  data_path tx_data rx_data len s (dr_reads t) (dr_writes t) ->
  spi0_interrupt_handler hw s = Ret (s', t') ->
  data_path tx_data rx_data len s' (dr_reads (t ++ t')) (dr_writes (t ++ t')).
Proof.
  intros Hdp Hrun. rewrite dr_reads_app, dr_writes_app.
  apply handler_inv in Hrun. cbv zeta in Hrun.
  destruct Hrun as [(_ & -> & _ & Hno) | (_ & s2 & t2 & t3 & H2 & H3 & ->)].
  - assert (dr_reads t' = [] /\ dr_writes t' = []) as [-> ->].
    { clear -Hno. induction t' as [|e t' IH]; [split; reflexivity|].
      destruct e as [[] v|[] v|f a]; cbn in Hno |- *; try discriminate; auto. }
    rewrite !app_nil_r. exact Hdp.
  - cbn [app dr_reads dr_writes]. rewrite dr_reads_app, dr_writes_app, !app_assoc.
    assert (data_path tx_data rx_data len s2
              (dr_reads t ++ dr_reads t2) (dr_writes t ++ dr_writes t2)) as Hdp2.
    { destruct (rxne_irq hw).
      - eapply data_path_rxne; [|exact H2]. exact Hdp.
      - injection H2 as <- <-. cbn. rewrite !app_nil_r. exact Hdp. }
    destruct (txe_irq hw).
    + eapply data_path_txe; [|exact H3]. exact Hdp2.
    + injection H3 as <- <-. cbn. rewrite !app_nil_r. exact Hdp2.
Qed.

Lemma data_path_runs (tx_data rx_data : list Z) (len : Z)
    (s : spi_transfer_state_t) (t : list event) :
  0 <= len <= INT_MAX ->
  runs (init_state tx_data rx_data len) s t ->
  data_path tx_data rx_data len s (dr_reads t) (dr_writes t).
Proof.
  intros Hlen Hruns. induction Hruns as [|s s' t t' hw _ IH Hrun].
  - unfold data_path. cbn. repeat split; try lia.
    exists O. split; reflexivity.
  - eapply data_path_handler; eassumption.
Qed.

(** ** The runs of the handler made by a transfer *)

Lemma deliver_runs (s0 : spi_transfer_state_t) (irqs : list irq_snapshot) :
  forall (s s' : spi_transfer_state_t) (t t' : list event),
  runs s0 s t -> deliver irqs s = Ret (s', t') -> runs s0 s' (t ++ t').
Proof.
  induction irqs as [|hw rest IH]; intros s s' t t' Hruns Hrun; cbn [deliver] in Hrun.
  - injection Hrun as <- <-. rewrite app_nil_r. exact Hruns.
  - destruct (spi0_interrupt_handler hw s) as [[s1 t1]| |] eqn:E1; cbn in Hrun;
      try discriminate.
    destruct (deliver rest s1) as [[s2 t2]| |] eqn:E2; cbn in Hrun; try discriminate.
    injection Hrun as <- <-. rewrite app_assoc.
    eapply IH; [|exact E2]. eapply runs_irq; eassumption.
Qed.

Lemma wait_loop_runs (s0 : spi_transfer_state_t) (sched : irq_schedule) (fuel : nat) :
  forall (k : Z) (s s' : spi_transfer_state_t) (t t' : list event) (n : Z),
  runs s0 s t -> wait_loop sched fuel k s = Ret (s', t', n) ->
  runs s0 s' (t ++ t').
Proof.
  induction fuel as [|fuel IH]; intros k s s' t t' n Hruns Hrun;
    cbn [wait_loop] in Hrun;
    destruct (deliver (irq_before_check sched k) s) as [[s1 t1]| |] eqn:E1;
    cbn in Hrun; try discriminate;
    pose proof (deliver_runs _ _ _ _ _ _ Hruns E1) as Hruns1;
    destruct (wait_cond s1 k); try discriminate.
  - injection Hrun as <- <- _. exact Hruns1.
  - destruct (wait_loop sched fuel (wrap_int (k + 1)) s1) as [[[s2 t2] n2]| |] eqn:E2;
      cbn in Hrun; try discriminate.
    injection Hrun as <- <- _. rewrite app_assoc. eapply IH; eassumption.
  - injection Hrun as <- <- _. exact Hruns1.
Qed.

(** A transfer, whenever it returns: its trace is the starting line, the
    enabling write, the events of the handler runs, the disabling write and
    the line that reports the result. *)
Lemma transfer_ret (env : environment) (tx_data rx_data : list Z) (len : Z)
    (m m' : machine) (r : Z) :
  g233_spi_transfer_interrupt env tx_data rx_data len m = Ret (r, m') ->
  exists t line,
    runs (init_state tx_data rx_data len) (spi_state m') t /\
    trace m' =
      trace m ++
      [LOG_INF "Starting interrupt-driven SPI transfer (%d bytes)" [len];
       MmioWrite SPI_CR2 cr2_enable] ++ t ++ [MmioWrite SPI_CR2 0; line] /\
    is_print line = true /\
    transfers m' = S (transfers m) /\
    pp_tx_data m' = pp_tx_data m /\ pp_rx_data m' = pp_rx_data m.
Proof.
  unfold g233_spi_transfer_interrupt. intros Hrun.
  destruct (wait_loop _ _ _ _) as [[[s1 t1] n]| |] eqn:E1; cbn in Hrun;
    try discriminate.
  destruct (deliver _ s1) as [[s2 t2]| |] eqn:E2; cbn in Hrun; try discriminate.
  destruct (transfer_result_cases s2 n) as (_ & line & Hline & Hprint).
  destruct (transfer_result s2 n) as [r' t3]. cbn in Hline. subst t3.
  injection Hrun as _ <-. cbn.
  exists (t1 ++ t2), line. split.
  - eapply deliver_runs; [|exact E2].
    eapply (wait_loop_runs _ _ _ _ _ _ [] t1); [apply runs_nil | exact E1].
  - repeat split; try assumption. rewrite <- !app_assoc. reflexivity.
Qed.

(** A transfer that returns 0 on fitting buffers ends with both cursors
    at [len]. *)
Lemma success_cursors (env : environment) (tx_data rx_data : list Z) (len : Z)
    (m m' : machine) :
  transfer_pre tx_data rx_data len ->
  g233_spi_transfer_interrupt env tx_data rx_data len m = Ret (0, m') ->
  tx_index (spi_state m') = len /\ rx_index (spi_state m') = len.
Proof.
  intros Hpre Hrun.
  destruct (transfer_run env tx_data rx_data len m Hpre)
    as (s1 & t1 & k & s2 & t2 & E & Hinv1 & Hinv2 & Hev1 & Hev2 & Hk & _ & _ & Hlast).
  rewrite Hrun in E. injection E as Hr ->. cbn [spi_state].
  destruct (transfer_result_cases s2 k) as ([[? _] | [[? _] | (_ & He & Hlt)]] & _);
    try lia.
  assert (transfer_complete s1 = 1) as Hc1.
  { destruct Hinv1 as (_ & _ & [Hc | [Hc _]]); [|exact Hc].
    exfalso. apply (Hlast Hlt). split; [exact Hc|].
    destruct (Z.eq_dec (error_occurred s1) 0) as [?|Hne]; [assumption|].
    destruct Hev2 as (_ & _ & _ & _ & Hmono). apply Hmono in Hne. contradiction. }
  assert (total_bytes s2 = len) as Ht.
  { destruct Hev1 as (Ht1 & _), Hev2 as (Ht2 & _). rewrite Ht2, Ht1. reflexivity. }
  assert (transfer_complete s2 = 1) as Hc2.
  { destruct Hev2 as (_ & _ & _ & Hmono & _). auto. }
  destruct Hinv2 as (_ & _ & [Hc | (_ & Hi & Hrx)]); [lia|].
  rewrite Hi, Hrx, Ht. auto.
Qed.

(** X1: whenever a transfer of [0 <= len <= INT_MAX] bytes returns, with
    any result, the bytes it wrote to the data register are the first
    [tx_index] bytes of [tx_data], in order, followed only by dummy zeros,
    and the first [rx_index] bytes of the receive buffer are the low bytes
    of the first [rx_index] values read from the data register, in order;
    the receive buffer keeps its size and is untouched from position [len]
    on.  When the buffers hold [len] bytes and the result is 0, both
    cursors are [len]: all of [tx_data] was sent and the receive buffer
    holds the first [len] bytes read. *)
Theorem transfer_data_path (env : environment) (tx_data rx_data : list Z) (len : Z)
    (m m' : machine) (r : Z) :
  0 <= len <= INT_MAX ->
  g233_spi_transfer_interrupt env tx_data rx_data len m = Ret (r, m') ->
  let s := spi_state m' in
  exists (t : list event) (k : nat),
    trace m' = trace m ++ t /\
    dr_writes t = take (Z.to_nat (tx_index s)) tx_data ++ replicate k 0 /\
    (Z.to_nat (rx_index s) <= length (dr_reads t))%nat /\
    take (Z.to_nat (rx_index s)) (rx_buffer s) =
      map low_byte (take (Z.to_nat (rx_index s)) (dr_reads t)) /\
    length (rx_buffer s) = length rx_data /\
    drop (Z.to_nat len) (rx_buffer s) = drop (Z.to_nat len) rx_data /\
    0 <= tx_index s <= len /\ 0 <= rx_index s <= len /\
    (transfer_pre tx_data rx_data len -> r = 0 ->
     tx_index s = len /\ rx_index s = len /\
     dr_writes t = take (Z.to_nat len) tx_data ++ replicate k 0 /\
     take (Z.to_nat len) (rx_buffer s) =
       map low_byte (take (Z.to_nat len) (dr_reads t))).
Proof.
  intros Hlen Hrun s.
  destruct (transfer_ret _ _ _ _ _ _ _ Hrun) as (t & line & Hruns & Htrace & Hprint & _).
  pose proof (data_path_runs _ _ _ _ _ Hlen Hruns)
    as (_ & _ & _ & Htx & Hrx & (k & Hw & _) & Hle & _ & Htake & Hl & Hdrop).
  fold s in Htx, Hrx, Hw, Hle, Htake, Hl, Hdrop.
  eexists _, k. split; [exact Htrace|].
  assert (dr_writes
            ([LOG_INF "Starting interrupt-driven SPI transfer (%d bytes)" [len];
              MmioWrite SPI_CR2 cr2_enable] ++ t ++ [MmioWrite SPI_CR2 0; line])
          = dr_writes t) as Ew.
  { clear -Hprint. destruct line; try discriminate.
    cbn. rewrite dr_writes_app. cbn. apply app_nil_r. }
  assert (dr_reads
            ([LOG_INF "Starting interrupt-driven SPI transfer (%d bytes)" [len];
              MmioWrite SPI_CR2 cr2_enable] ++ t ++ [MmioWrite SPI_CR2 0; line])
          = dr_reads t) as Er.
  { clear -Hprint. destruct line; try discriminate.
    cbn. rewrite dr_reads_app. cbn. apply app_nil_r. }
  rewrite Ew, Er.
  repeat (split; [assumption|]).
  intros Hpre ->.
  destruct (success_cursors _ _ _ _ _ _ Hpre Hrun) as [Hi Hr].
  fold s in Hi, Hr. rewrite Hi in Hw. rewrite Hr in Htake.
  repeat split; assumption.
Qed.

Lemma transfer_data_path_witness :
  exists m',
    g233_spi_transfer_interrupt (env_of [sched_reply [0xAA; 0x02]]) [5; 0] [0; 0] 2 boot
      = Ret (0, m') /\
    let s := spi_state m' in
    exists (t : list event) (k : nat),
      trace m' = trace boot ++ t /\
      dr_writes t = take (Z.to_nat (tx_index s)) [5; 0] ++ replicate k 0 /\
      (Z.to_nat (rx_index s) <= length (dr_reads t))%nat /\
      take (Z.to_nat (rx_index s)) (rx_buffer s) =
        map low_byte (take (Z.to_nat (rx_index s)) (dr_reads t)) /\
      length (rx_buffer s) = length [0; 0] /\
      drop (Z.to_nat 2) (rx_buffer s) = drop (Z.to_nat 2) [0; 0] /\
      0 <= tx_index s <= 2 /\ 0 <= rx_index s <= 2 /\
      (transfer_pre [5; 0] [0; 0] 2 -> 0 = 0 ->
       tx_index s = 2 /\ rx_index s = 2 /\
       dr_writes t = take (Z.to_nat 2) [5; 0] ++ replicate k 0 /\
       take (Z.to_nat 2) (rx_buffer s) =
         map low_byte (take (Z.to_nat 2) (dr_reads t))).
Proof.
  assert (exists m',
            g233_spi_transfer_interrupt (env_of [sched_reply [0xAA; 0x02]])
              [5; 0] [0; 0] 2 boot = Ret (0, m'))
    as (m' & E) by (vm_compute; eexists; reflexivity).
  exists m'. split; [exact E|].
  apply (transfer_data_path (env_of [sched_reply [0xAA; 0x02]]) [5; 0] [0; 0] 2
           boot m' 0); [unfold INT_MAX; lia | exact E].
Defined.

(** ** How many interrupts a transfer takes *)

Lemma handler_sr_reads (hw : irq_snapshot) (s s' : spi_transfer_state_t)
    (t : list event) :
  spi0_interrupt_handler hw s = Ret (s', t) -> sr_reads t = 1%nat.
Proof.
  unfold spi0_interrupt_handler, handle_rxne, handle_txe, buf_store, buf_load.
  intros H.
  repeat case_match; cbn in H; repeat case_match; cbn in H;
    try discriminate; injection H as <- <-; reflexivity.
Qed.

(** In a transfer, each byte sent took a run of the handler, and marking
    the transfer complete took one more. *)
Lemma runs_count (tx_data rx_data : list Z) (len : Z)
    (s : spi_transfer_state_t) (t : list event) :
  0 <= len <= INT_MAX ->
  runs (init_state tx_data rx_data len) s t ->
  (Z.to_nat (tx_index s) + (if (transfer_complete s =? 0)%Z then 0 else 1)
   <= sr_reads t)%nat.
Proof.
  intros Hlen Hruns. induction Hruns as [|s s' t t' hw Hpre IH Hrun].
  - cbn. lia.
  - pose proof (data_path_runs _ _ _ _ _ Hlen Hpre) as (_ & Ht & _ & Htx & _).
    rewrite sr_reads_app, (handler_sr_reads _ _ _ _ Hrun).
    apply handler_inv in Hrun. cbv zeta in Hrun.
    destruct Hrun as [(_ & -> & _) | (_ & s2 & t2 & t3 & H2 & H3 & _)].
    + cbn. lia.
    + assert (tx_index s2 = tx_index s /\ transfer_complete s2 = transfer_complete s /\
              total_bytes s2 = total_bytes s) as (Hi2 & Hc2 & Ht2).
      { destruct (rxne_irq hw).
        - apply handle_rxne_inv in H2 as (_ & ? & _ & ? & ? & _). auto.
        - injection H2 as <- _. auto. }
      destruct (txe_irq hw).
      * apply handle_txe_ret in H3
          as [(Hlt & H0 & b & _ & -> & _) | [(_ & _ & -> & _) | (_ & _ & -> & _)]].
        -- cbn. rewrite Hi2, Hc2.
           rewrite wrap_int_id by (unfold int_range, INT_MIN, INT_MAX in *; lia).
           destruct (transfer_complete s =? 0); lia.
        -- rewrite Hi2, Hc2. destruct (transfer_complete s =? 0); lia.
        -- cbn. rewrite Hi2. destruct (transfer_complete s =? 0); lia.
      * injection H3 as <- _. rewrite Hi2, Hc2.
        destruct (transfer_complete s =? 0); lia.
Qed.

(** X2: a transfer of [len] bytes that returns 0 (on buffers that hold
    [len] bytes) has taken at least [len + 1] runs of the interrupt
    handler: one per byte sent and one more to mark completion. *)
Theorem success_needs_interrupts (env : environment) (tx_data rx_data : list Z)
    (len : Z) (m m' : machine) :
  transfer_pre tx_data rx_data len ->
  g233_spi_transfer_interrupt env tx_data rx_data len m = Ret (0, m') ->
  exists t,
    trace m' = trace m ++ t /\
    (Z.to_nat len + 1 <= sr_reads t)%nat.
Proof.
  intros Hpre Hrun.
  destruct (transfer_ret _ _ _ _ _ _ _ Hrun) as (t & line & Hruns & Htrace & Hprint & _).
  pose proof (runs_count _ _ _ _ _ (proj1 Hpre) Hruns) as Hcount.
  destruct (success_cursors _ _ _ _ _ _ Hpre Hrun) as [Hi _].
  assert (transfer_complete (spi_state m') <> 0) as Hc.
  { destruct (transfer_run env tx_data rx_data len m Hpre)
      as (s1 & t1 & k & s2 & t2 & E & Hinv1 & Hinv2 & Hev1 & Hev2 & Hk & _ & _ & Hlast).
    rewrite Hrun in E. injection E as Hr ->. cbn [spi_state].
    destruct (transfer_result_cases s2 k) as ([[? _] | [[? _] | (_ & He & Hlt)]] & _);
      try lia.
    intros Hc2. apply (Hlast Hlt).
    destruct Hev2 as (_ & _ & _ & Hmonoc & Hmonoe).
    destruct Hinv1 as (_ & _ & [Hc | [Hc _]]).
    - split; [exact Hc|].
      destruct (Z.eq_dec (error_occurred s1) 0) as [?|Hne]; [assumption|].
      apply Hmonoe in Hne. contradiction.
    - apply Hmonoc in Hc. lia. }
  eexists. split; [exact Htrace|].
  rewrite Hi in Hcount.
  destruct (Z.eqb_spec (transfer_complete (spi_state m')) 0); [contradiction|].
  destruct line; try discriminate.
  cbn. rewrite sr_reads_app. cbn. lia.
Qed.

Lemma success_needs_interrupts_witness :
  exists m' t,
    g233_spi_transfer_interrupt (env_of [sched_reply [0xAA; 0x02]]) [5; 0] [0; 0] 2 boot
      = Ret (0, m') /\
    trace m' = trace boot ++ t /\
    (Z.to_nat 2 + 1 <= sr_reads t)%nat.
Proof.
  assert (exists m',
            g233_spi_transfer_interrupt (env_of [sched_reply [0xAA; 0x02]])
              [5; 0] [0; 0] 2 boot = Ret (0, m'))
    as (m' & E) by (vm_compute; eexists; reflexivity).
  destruct (success_needs_interrupts (env_of [sched_reply [0xAA; 0x02]])
              [5; 0] [0; 0] 2 boot m') as (t & H);
    [unfold transfer_pre, INT_MAX; simpl; lia | exact E |].
  exists m', t. split; [exact E | exact H].
Defined.

(** ** The address bytes of a command *)

Lemma land_255_bit (x j : Z) :
  0 <= j -> Z.testbit (Z.land x 0xFF) j = Z.testbit x j && (j <? 8).
Proof.
  intros Hj. rewrite Z.land_spec. change 255 with (Z.ones 8).
  rewrite Z.testbit_ones_nonneg by lia. reflexivity.
Qed.

Lemma addr_byte_range (x : Z) : 0 <= Z.land x 0xFF < 256.
Proof.
  change 255 with (Z.ones 8). rewrite Z.land_ones by lia.
  apply Z.mod_pos_bound. lia.
Qed.

Lemma addr_bytes_value (addr : Z) :
  Z.lor (Z.lor (Z.shiftl (Z.land (Z.shiftr addr 16) 0xFF) 16)
               (Z.shiftl (Z.land (Z.shiftr addr 8) 0xFF) 8))
        (Z.land addr 0xFF)
  = addr mod 2 ^ 24.
Proof.
  apply Z.bits_inj'. intros i Hi.
  rewrite !Z.lor_spec, !Z.shiftl_spec by lia.
  destruct (Z.ltb_spec i 24).
  - rewrite Z.mod_pow2_bits_low by lia.
    destruct (Z.ltb_spec i 8).
    + rewrite (Z.testbit_neg_r _ (i - 16)), (Z.testbit_neg_r _ (i - 8)) by lia.
      rewrite land_255_bit by lia.
      destruct (Z.ltb_spec i 8); [|lia]. cbn. apply andb_true_r.
    + destruct (Z.ltb_spec i 16).
      * rewrite (Z.testbit_neg_r _ (i - 16)) by lia.
        rewrite !land_255_bit, Z.shiftr_spec by lia.
        destruct (Z.ltb_spec (i - 8) 8); [|lia].
        destruct (Z.ltb_spec i 8); [lia|].
        replace (i - 8 + 8) with i by lia.
        cbn. rewrite andb_true_r, andb_false_r, orb_false_r. reflexivity.
      * rewrite !land_255_bit, !Z.shiftr_spec by lia.
        destruct (Z.ltb_spec (i - 16) 8); [|lia].
        destruct (Z.ltb_spec (i - 8) 8); [lia|].
        destruct (Z.ltb_spec i 8); [lia|].
        replace (i - 16 + 16) with i by lia.
        rewrite andb_true_r, !andb_false_r, !orb_false_r. reflexivity.
  - rewrite Z.mod_pow2_bits_high by lia.
    rewrite !land_255_bit by lia.
    destruct (Z.ltb_spec (i - 16) 8); [lia|].
    destruct (Z.ltb_spec (i - 8) 8); [lia|].
    destruct (Z.ltb_spec i 8); [lia|].
    rewrite !andb_false_r. reflexivity.
Qed.

(** X3: the three address bytes sent with the erase, program and read
    commands are bytes, most significant first, of the low 24 bits of the
    address: put together again they give [addr mod 2^24], and two
    addresses get the same bytes exactly when they agree modulo 2^24. *)
Theorem addr_bytes_big_endian (addr addr' : Z) :
  (exists b2 b1 b0,
     addr_bytes addr = [b2; b1; b0] /\
     0 <= b2 < 256 /\ 0 <= b1 < 256 /\ 0 <= b0 < 256 /\
     Z.lor (Z.lor (Z.shiftl b2 16) (Z.shiftl b1 8)) b0 = addr mod 2 ^ 24) /\
  (addr_bytes addr' = addr_bytes addr <-> addr' mod 2 ^ 24 = addr mod 2 ^ 24).
Proof.
  split.
  - eexists _, _, _. split; [reflexivity|].
    repeat (split; [apply addr_byte_range|]). apply addr_bytes_value.
  - split.
    + intros H. rewrite <- (addr_bytes_value addr), <- (addr_bytes_value addr').
      unfold addr_bytes in H. injection H as -> -> ->. reflexivity.
    + intros H.
      assert (forall a, addr_bytes a = addr_bytes (a mod 2 ^ 24)) as Hmod.
      { intros a. unfold addr_bytes.
        assert (forall k, 0 <= k <= 16 ->
                  Z.land (Z.shiftr a k) 0xFF = Z.land (Z.shiftr (a mod 2 ^ 24) k) 0xFF)
          as Hk.
        { intros k Hk. apply Z.bits_inj'. intros i Hi.
          rewrite !land_255_bit, !Z.shiftr_spec by lia.
          destruct (Z.ltb_spec i 8).
          - rewrite Z.mod_pow2_bits_low by lia. reflexivity.
          - rewrite !andb_false_r. reflexivity. }
        rewrite (Hk 16), (Hk 8) by lia.
        pose proof (Hk 0) as H0. rewrite !Z.shiftr_0_r in H0.
        rewrite H0 by lia. reflexivity. }
      rewrite (Hmod addr'), (Hmod addr), H. reflexivity.
Qed.

(** ** The busy wait *)

(** One status read: it always returns, counts as one transfer, ends by
    releasing chip select, and gives 0xFF when its transfer failed. *)
Lemma read_status_run (env : environment) (m : machine) :
  exists r m1 status m',
    g233_spi_transfer_interrupt env [W25X16_READ_STATUS; 0x00] [0; 0] 2
      (g233_spi_cs_assert m) = Ret (r, m1) /\
    flash_read_status env m = Ret (status, m') /\
    transfers m' = S (transfers m) /\
    last (trace m') = Some (MmioWrite SPI_CSCTRL 0) /\
    (r <> 0 -> status = 0xFF).
Proof.
  destruct (transfer_total env [W25X16_READ_STATUS; 0x00] [0; 0] 2 (g233_spi_cs_assert m))
    as (r & m1 & t & E & _ & Hn & _ & _ & _ & Hl & _).
  { apply pre_of_lengths; [lia | reflexivity | reflexivity]. }
  exists r, m1. unfold flash_read_status. rewrite E. cbn.
  destruct (Z.eqb_spec r 0) as [Hr|Hr].
  - destruct (buf_load_ok (rx_buffer (spi_state m1)) 1) as (b & _ & Hb).
    { rewrite Hl. cbn. lia. }
    rewrite Hb. cbn. eexists _, _. split; [reflexivity|]. split; [reflexivity|].
    cbn. split; [exact Hn|]. split; [apply last_snoc | contradiction].
  - cbn. eexists _, _. split; [reflexivity|]. split; [reflexivity|].
    cbn. split; [exact Hn|]. split; [apply last_snoc | reflexivity].
Qed.

Lemma wait_busy_loop_bounded (env : environment) (fuel : nat) :
  forall (retry_count : Z) (m : machine),
  0 <= retry_count -> Z.of_nat fuel = busy_retries - retry_count ->
  exists m',
    wait_busy_loop env fuel retry_count m = Ret m' /\
    (transfers m < transfers m')%nat /\
    retry_count + Z.of_nat (transfers m' - transfers m) <= 10001 /\
    ((exists status, last (trace m') = Some (busy_timeout_line status)) <->
     retry_count + Z.of_nat (transfers m' - transfers m) = 10001).
Proof.
  unfold busy_retries.
  induction fuel as [|fuel IH]; intros rc m Hrc Hfuel;
    destruct (read_status_run env m) as (r & m0 & status & m1 & _ & E1 & Hn1 & Hlast & _);
    cbn [wait_busy_loop]; rewrite E1; cbn;
    rewrite wrap_int_id by (unfold int_range, INT_MIN, INT_MAX in *; lia);
    unfold busy_retries.
  - destruct (Z.ltb_spec 10000 (rc + 1)); [|lia].
    eexists. split; [reflexivity|]. cbn. rewrite Hn1.
    split; [lia|]. split; [lia|]. split; [lia|].
    intros _. exists status. rewrite last_snoc.
    replace (rc + 1) with 10001 by lia. reflexivity.
  - destruct (Z.ltb_spec 10000 (rc + 1)).
    + eexists. split; [reflexivity|]. cbn. rewrite Hn1.
      split; [lia|]. split; [lia|]. split; [lia|].
      intros _. exists status. rewrite last_snoc.
      replace (rc + 1) with 10001 by lia. reflexivity.
    + destruct (c_true (Z.land status 1)).
      * destruct (IH (rc + 1) m1) as (m' & E & Hn & Hle & Hiff); [lia | lia |].
        exists m'. split; [exact E|]. split; [lia|]. split; [lia|].
        rewrite Hiff. lia.
      * exists m1. split; [reflexivity|]. rewrite Hn1. split; [lia|]. split; [lia|].
        split; [|lia]. intros [st Hst]. rewrite Hlast in Hst. discriminate.
Qed.

(** X4: [flash_wait_busy] always returns, after at least 1 and at most
    10001 status reads (each one transfer); it prints the busy-timeout
    warning exactly when it made all 10001 reads.  Running out of retries
    is reported, not failed: the call returns in both cases. *)
Theorem wait_busy_bounded (env : environment) (m : machine) :
  exists m',
    flash_wait_busy env m = Ret m' /\
    1 <= Z.of_nat (transfers m') - Z.of_nat (transfers m) <= 10001 /\
    ((exists status, last (trace m') = Some (busy_timeout_line status)) <->
     Z.of_nat (transfers m') - Z.of_nat (transfers m) = 10001).
Proof.
  destruct (wait_busy_loop_bounded env (Z.to_nat busy_retries) 0 m)
    as (m' & E & Hn & Hle & Hiff); [lia | unfold busy_retries; lia |].
  exists m'. split; [exact E|]. split; [lia|]. rewrite Hiff. lia.
Qed.

Lemma wait_busy_loop_all_fail (env : environment) (fuel : nat) :
  (forall m1 r m2,
     g233_spi_transfer_interrupt env [W25X16_READ_STATUS; 0x00] [0; 0] 2 m1
       = Ret (r, m2) -> r <> 0) ->
  forall (retry_count : Z) (m : machine),
  0 <= retry_count -> Z.of_nat fuel = busy_retries - retry_count ->
  exists m',
    wait_busy_loop env fuel retry_count m = Ret m' /\
    Z.of_nat (transfers m') = Z.of_nat (transfers m) + (10001 - retry_count) /\
    last (trace m') = Some (busy_timeout_line 0xFF).
Proof.
  intros Hfail. unfold busy_retries.
  induction fuel as [|fuel IH]; intros rc m Hrc Hfuel;
    destruct (read_status_run env m) as (r & m0 & status & m1 & E0 & E1 & Hn1 & _ & Hst);
    pose proof (Hst (Hfail _ _ _ E0)) as ->;
    cbn [wait_busy_loop]; rewrite E1; cbn;
    rewrite wrap_int_id by (unfold int_range, INT_MIN, INT_MAX in *; lia);
    unfold busy_retries.
  - destruct (Z.ltb_spec 10000 (rc + 1)); [|lia].
    eexists. split; [reflexivity|]. cbn. rewrite Hn1. split; [lia|].
    rewrite last_snoc. replace (rc + 1) with 10001 by lia. reflexivity.
  - destruct (Z.ltb_spec 10000 (rc + 1)).
    + eexists. split; [reflexivity|]. cbn. rewrite Hn1. split; [lia|].
      rewrite last_snoc. replace (rc + 1) with 10001 by lia. reflexivity.
    + change (c_true (Z.land 255 1)) with true. cbn match.
      destruct (IH (rc + 1) m1) as (m' & E & Hn & Hlast); [lia | lia |].
      exists m'. split; [exact E|]. split; [lia | exact Hlast].
Qed.

(** X5: a status read whose transfer fails counts as busy.  If every
    status transfer fails (error or timeout), [flash_wait_busy] makes all
    10001 status reads and then gives up with the busy-timeout warning,
    reporting the default status 0xFF. *)
Theorem wait_busy_counts_failure_as_busy (env : environment) (m : machine) :
  (forall m1 r m2,
     g233_spi_transfer_interrupt env [W25X16_READ_STATUS; 0x00] [0; 0] 2 m1
       = Ret (r, m2) -> r <> 0) ->
  exists m',
    flash_wait_busy env m = Ret m' /\
    Z.of_nat (transfers m') - Z.of_nat (transfers m) = 10001 /\
    last (trace m') = Some (busy_timeout_line 0xFF).
Proof.
  intros Hfail.
  destruct (wait_busy_loop_all_fail env (Z.to_nat busy_retries) Hfail 0 m)
    as (m' & E & Hn & Hlast); [lia | unfold busy_retries; lia |].
  exists m'. split; [exact E|]. split; [lia | exact Hlast].
Qed.

(** With a controller that always overruns, every transfer returns -1. *)
Lemma overrun_transfer_fails (tx_data rx_data : list Z) (len : Z)
    (m1 m2 : machine) (r : Z) :
  g233_spi_transfer_interrupt env_always_overrun tx_data rx_data len m1 = Ret (r, m2) ->
  r <> 0.
Proof.
  intros Hrun. apply transfer_ret in Hrun as Hshape.
  destruct Hshape as (t & line & Hruns & _).
  unfold g233_spi_transfer_interrupt in Hrun.
  change (env_always_overrun (transfers m1)) with sched_overrun in Hrun.
  destruct (Z.to_nat max_timeout) as [|fuel] eqn:Efuel;
    [unfold max_timeout in Efuel; lia|].
  cbn [wait_loop] in Hrun.
  change (irq_before_check sched_overrun 0) with [snap_overrun] in Hrun.
  cbn [deliver] in Hrun.
  change (spi0_interrupt_handler snap_overrun (init_state tx_data rx_data len))
    with (Ret (mk_spi_state tx_data rx_data 0 0 len 0 1 1,
               [MmioRead SPI_SR 0x41; MmioRead SPI_CR2 0xE0;
                LOG_ERR "IRQ #%d: UDR=%d, OVR=%d" [1; 0; 1]])) in Hrun.
  cbn in Hrun. injection Hrun as <- _. discriminate.
Qed.

Lemma wait_busy_counts_failure_as_busy_witness :
  exists m',
    flash_wait_busy env_always_overrun boot = Ret m' /\
    Z.of_nat (transfers m') - Z.of_nat (transfers boot) = 10001 /\
    last (trace m') = Some (busy_timeout_line 0xFF).
Proof.
  apply (wait_busy_counts_failure_as_busy env_always_overrun boot).
  intros m1 r m2. apply overrun_transfer_fails.
Defined.


(** ** Chip-select discipline *)

#[local] Arguments buf_load : simpl never.
#[local] Arguments buf_store : simpl never.

Lemma cs_scan_app (t1 t2 : list event) :
  forall a, cs_scan a (t1 ++ t2) =
            match cs_scan a t1 with Some b => cs_scan b t2 | None => None end.
Proof.
  induction t1 as [|e t1 IH]; intros a; [reflexivity|].
  destruct e as [r v|r v|fmt args]; try destruct r; cbn; try apply IH;
    destruct a; cbn; try apply IH; reflexivity.
Qed.

Lemma handler_cs_scan (hw : irq_snapshot) (s s' : spi_transfer_state_t)
    (t : list event) :
  spi0_interrupt_handler hw s = Ret (s', t) -> cs_scan true t = Some true.
Proof.
  intros H. rewrite handler_cases in H. cbv zeta in H.
  destruct (error_irq hw).
  - injection H as _ <-. reflexivity.
  - destruct (if rxne_irq hw then _ else _) as [[s2 t2]| |] eqn:E2; cbn in H;
      try discriminate.
    destruct (if txe_irq hw then _ else _) as [[s3 t3]| |] eqn:E3; cbn in H;
      try discriminate.
    injection H as _ <-.
    assert (cs_scan true t2 = Some true) as H2.
    { destruct (rxne_irq hw).
      - apply handle_rxne_inv in E2 as (-> & _). reflexivity.
      - injection E2 as _ <-. reflexivity. }
    assert (cs_scan true t3 = Some true) as H3.
    { destruct (txe_irq hw).
      - apply handle_txe_inv in E3 as (_ & _ & _ & [([b ->] & _) | (-> & _)]);
          reflexivity.
      - injection E3 as _ <-. reflexivity. }
    cbn. rewrite cs_scan_app, H2. exact H3.
Qed.

Lemma runs_cs_scan (s0 s : spi_transfer_state_t) (t : list event) :
  runs s0 s t -> cs_scan true t = Some true.
Proof.
  induction 1 as [|s s' t t' hw _ IH Hh]; [reflexivity|].
  rewrite cs_scan_app, IH. exact (handler_cs_scan _ _ _ _ Hh).
Qed.

Lemma cs_from_trans (a b c : bool) (m m1 m2 : machine) :
  cs_from a b m m1 -> cs_from b c m1 m2 -> cs_from a c m m2.
Proof.
  intros (t1 & E1 & H1) (t2 & E2 & H2). exists (t1 ++ t2). split.
  - rewrite E2, E1, app_assoc. reflexivity.
  - rewrite cs_scan_app, H1. exact H2.
Qed.

Lemma cs_from_emit (a b : bool) (es : list event) (m : machine) :
  cs_scan a es = Some b -> cs_from a b m (emit es m).
Proof. intros H. exists es. split; [reflexivity | exact H]. Qed.

Lemma cs_from_log (a : bool) (es : list event) (m : machine) :
  forallb is_print es = true -> cs_from a a m (emit es m).
Proof.
  intros H. apply cs_from_emit. induction es as [|e es IH]; [reflexivity|].
  cbn in H. apply andb_true_iff in H as [He Hes].
  destruct e; try discriminate. cbn. exact (IH Hes).
Qed.

Lemma cs_from_refl (a : bool) (m : machine) : cs_from a a m m.
Proof. exists []. split; [rewrite app_nil_r|]; reflexivity. Qed.

Lemma cs_from_assert (a : bool) (m : machine) :
  cs_from a true m (g233_spi_cs_assert m).
Proof. apply cs_from_emit. reflexivity. Qed.

Lemma cs_from_deassert (a : bool) (m : machine) :
  cs_from a false m (g233_spi_cs_deassert m).
Proof. apply cs_from_emit. reflexivity. Qed.

Lemma cs_from_transfer (env : environment) (tx_data rx_data : list Z) (len : Z)
    (m m' : machine) (r : Z) :
  g233_spi_transfer_interrupt env tx_data rx_data len m = Ret (r, m') ->
  cs_from true true m m'.
Proof.
  intros H. apply transfer_ret in H as (t & line & Hruns & Ht & Hline & _).
  eexists. split; [exact Ht|].
  change (cs_scan true (t ++ [MmioWrite SPI_CR2 0; line]) = Some true).
  rewrite cs_scan_app, (runs_cs_scan _ _ _ Hruns).
  destruct line; try discriminate. reflexivity.
Qed.

(** A chip-select frame: assert, one transfer, then events that touch
    neither the data register nor chip select, and deassert. *)
Lemma cs_from_frame (env : environment) (tx_data rx_data : list Z) (len : Z)
    (a : bool) (m m1 m2 : machine) (r : Z) :
  g233_spi_transfer_interrupt env tx_data rx_data len (g233_spi_cs_assert m)
    = Ret (r, m1) ->
  cs_from true true m1 m2 ->
  cs_from a false m (g233_spi_cs_deassert m2).
Proof.
  intros H H12.
  eapply cs_from_trans; [apply cs_from_assert|].
  eapply cs_from_trans; [exact (cs_from_transfer _ _ _ _ _ _ _ H)|].
  eapply cs_from_trans; [exact H12 | apply cs_from_deassert].
Qed.

Lemma read_status_cs (env : environment) (a : bool) (m m' : machine) (status : Z) :
  flash_read_status env m = Ret (status, m') -> cs_from a false m m'.
Proof.
  unfold flash_read_status. intros H.
  destruct (g233_spi_transfer_interrupt _ _ _ _ _) as [[r m1]| |] eqn:E;
    cbn in H; try discriminate.
  destruct (r =? 0).
  - destruct (buf_load _ 1); cbn in H; try discriminate.
    injection H as _ <-. eapply cs_from_frame; [exact E | apply cs_from_refl].
  - cbn in H. injection H as _ <-.
    eapply cs_from_frame; [exact E | apply cs_from_emit; reflexivity].
Qed.

Lemma read_jedec_id_cs (env : environment) (a : bool) (m m' : machine) (id : Z) :
  flash_read_jedec_id env m = Ret (id, m') -> cs_from a false m m'.
Proof.
  unfold flash_read_jedec_id. intros H.
  destruct (g233_spi_transfer_interrupt _ _ _ _ _) as [[r m1]| |] eqn:E;
    cbn in H; try discriminate.
  assert (forall m2, cs_from true true m1 m2 ->
                     cs_from a false m (g233_spi_cs_deassert m2)) as Hframe.
  { intros m2 H12.
    eapply cs_from_trans; [|eapply cs_from_frame; [exact E | exact H12]].
    apply cs_from_log. reflexivity. }
  destruct (r =? 0).
  - destruct (buf_load _ 0); cbn in H; try discriminate.
    destruct (buf_load _ 1); cbn in H; try discriminate.
    destruct (buf_load _ 2); cbn in H; try discriminate.
    destruct (buf_load _ 3); cbn in H; try discriminate.
    injection H as _ <-. apply Hframe, cs_from_log. reflexivity.
  - cbn in H. injection H as _ <-. apply Hframe, cs_from_log. reflexivity.
Qed.

Lemma write_enable_cs (env : environment) (a : bool) (m m' : machine) :
  flash_write_enable env m = Ret m' -> cs_from a false m m'.
Proof.
  unfold flash_write_enable. intros H.
  destruct (g233_spi_transfer_interrupt _ _ _ _ _) as [[r m1]| |] eqn:E;
    cbn in H; try discriminate.
  injection H as <-. eapply cs_from_frame; [exact E | apply cs_from_refl].
Qed.

Lemma wait_busy_loop_cs (env : environment) (fuel : nat) :
  forall (a : bool) (retry_count : Z) (m m' : machine),
  wait_busy_loop env fuel retry_count m = Ret m' -> cs_from a false m m'.
Proof.
  induction fuel as [|fuel IH]; intros a rc m m' H; cbn [wait_busy_loop] in H;
    destruct (flash_read_status env m) as [[status m1]| |] eqn:E1; cbn in H;
    try discriminate; apply (read_status_cs _ a) in E1;
    destruct (busy_retries <? _).
  - injection H as <-.
    eapply cs_from_trans; [exact E1 | apply cs_from_emit; reflexivity].
  - destruct (c_true _); [discriminate|]. injection H as <-. exact E1.
  - injection H as <-.
    eapply cs_from_trans; [exact E1 | apply cs_from_emit; reflexivity].
  - destruct (c_true _).
    + eapply cs_from_trans; [exact E1 | exact (IH _ _ _ _ H)].
    + injection H as <-. exact E1.
Qed.

Lemma sector_erase_cs (env : environment) (a : bool) (addr : Z) (m m' : machine) :
  flash_sector_erase env addr m = Ret m' -> cs_from a false m m'.
Proof.
  unfold flash_sector_erase, sector_erase_command. intros H.
  destruct (flash_write_enable _ _) as [m1| |] eqn:E1; cbn in H; try discriminate.
  destruct (g233_spi_transfer_interrupt _ _ _ _ _) as [[r m2]| |] eqn:E2;
    cbn in H; try discriminate.
  destruct (flash_wait_busy _ _) as [m3| |] eqn:E3; cbn in H; try discriminate.
  injection H as <-.
  eapply cs_from_trans; [|eapply cs_from_trans;
                            [exact (write_enable_cs _ a _ _ E1)|]];
    [apply cs_from_log; reflexivity|].
  eapply cs_from_trans;
    [eapply (cs_from_frame _ _ _ _ false); [exact E2 | apply cs_from_refl]|].
  eapply cs_from_trans; [exact (wait_busy_loop_cs _ _ false _ _ _ E3)|].
  apply cs_from_emit. reflexivity.
Qed.

Lemma page_program_cs (env : environment) (a : bool) (addr : Z) (data : list Z)
    (len : Z) (m m' : machine) :
  flash_page_program env addr data len m = Ret m' -> cs_from a false m m'.
Proof.
  unfold flash_page_program, page_program_command. intros H.
  destruct (buf_store _ 0 _) as [tx0| |]; cbn in H; try discriminate.
  destruct (buf_store tx0 1 _) as [tx1| |]; cbn in H; try discriminate.
  destruct (buf_store tx1 2 _) as [tx2| |]; cbn in H; try discriminate.
  destruct (buf_store tx2 3 _) as [tx3| |]; cbn in H; try discriminate.
  destruct (fill_payload _ _ _ _) as [tx| |]; cbn in H; try discriminate.
  destruct (flash_write_enable _ _) as [m1| |] eqn:E1; cbn in H; try discriminate.
  destruct (g233_spi_transfer_interrupt _ _ _ _ _) as [[r m2]| |] eqn:E2;
    cbn in H; try discriminate.
  destruct (flash_wait_busy _ _) as [m3| |] eqn:E3; cbn in H; try discriminate.
  injection H as <-.
  eapply cs_from_trans; [|eapply cs_from_trans;
                            [exact (write_enable_cs _ a _ _ E1)|]];
    [apply cs_from_log; reflexivity|].
  eapply cs_from_trans;
    [eapply (cs_from_frame _ _ _ _ false); [exact E2 | apply cs_from_refl]|].
  eapply cs_from_trans; [|apply (cs_from_emit false false); reflexivity].
  apply (wait_busy_loop_cs _ _ false) in E3. exact E3.
Qed.

Lemma read_data_cs (env : environment) (a : bool) (addr : Z) (data data' : list Z)
    (len : Z) (st st' : read_statics) (m m' : machine) :
  flash_read_data env addr data len st m = Ret (data', st', m') ->
  cs_from a false m m'.
Proof.
  unfold flash_read_data. intros H.
  destruct (buf_store _ 0 _) as [tx0| |]; cbn in H; try discriminate.
  destruct (buf_store tx0 1 _) as [tx1| |]; cbn in H; try discriminate.
  destruct (buf_store tx1 2 _) as [tx2| |]; cbn in H; try discriminate.
  destruct (buf_store tx2 3 _) as [tx3| |]; cbn in H; try discriminate.
  destruct (fill_dummy _ _ _) as [tx| |]; cbn in H; try discriminate.
  destruct (g233_spi_transfer_interrupt _ _ _ _ _) as [[r m1]| |] eqn:E;
    cbn in H; try discriminate.
  destruct (if r =? 0 then _ else _) as [d| |]; cbn in H; try discriminate.
  injection H as _ _ <-.
  eapply cs_from_frame; [exact E | apply cs_from_refl].
Qed.

Lemma run_command_cs (env : environment) (c : flash_command) (a : bool)
    (m m' : machine) :
  run_command env c m = Ret m' -> cs_from a false m m'.
Proof.
  destruct c; cbn [run_command]; intros H.
  - destruct (flash_read_status env m) as [[x m1]| |] eqn:E; cbn in H;
      try discriminate.
    injection H as <-. exact (read_status_cs _ _ _ _ _ E).
  - destruct (flash_read_jedec_id env m) as [[x m1]| |] eqn:E; cbn in H;
      try discriminate.
    injection H as <-. exact (read_jedec_id_cs _ _ _ _ _ E).
  - exact (write_enable_cs _ _ _ _ H).
  - exact (wait_busy_loop_cs _ _ _ _ _ _ H).
  - exact (sector_erase_cs _ _ _ _ _ H).
  - exact (page_program_cs _ _ _ _ _ _ _ H).
  - destruct (flash_read_data _ _ _ _ _ _) as [[[d st'] m1]| |] eqn:E; cbn in H;
      try discriminate.
    injection H as <-. exact (read_data_cs _ _ _ _ _ _ _ _ _ _ E).
Qed.

(** X7: chip-select discipline.  Whatever the controller does and whatever
    the state of the chip-select line before the call, a flash command of the
    interrupt-driven program that returns has accessed the data register
    only while chip select 0 was active, and has left the line inactive. *)
Theorem commands_frame_chip_select (env : environment) (c : flash_command)
    (m m' : machine) :
  run_command env c m = Ret m' -> cs_disciplined m m'.
Proof.
  intros H.
  destruct (run_command_cs env c true m m' H) as (t & Et & Ht).
  exists t. split; [exact Et|]. intros [|]; [exact Ht|].
  destruct (run_command_cs env c false m m' H) as (t' & Et' & Ht').
  rewrite Et in Et'. apply app_inv_head in Et'. subst t'. exact Ht'.
Qed.

Lemma commands_frame_chip_select_witness :
  exists m', run_command env_command_fails (SectorErase 0) boot = Ret m' /\
             cs_disciplined boot m'.
Proof.
  assert (exists m', run_command env_command_fails (SectorErase 0) boot = Ret m')
    as [m' E] by (vm_compute; eexists; reflexivity).
  exists m'. split; [exact E|].
  exact (commands_frame_chip_select env_command_fails (SectorErase 0) boot m' E).
Defined.


(** ** Reading data *)

Lemma fill_dummy_ok (n : nat) :
  forall (tx_data : list Z) (i : nat),
  (4 + i + n <= length tx_data)%nat ->
  Z.of_nat (length tx_data) <= INT_MAX ->
  fill_dummy tx_data (Z.of_nat i) n =
    Ret (take (4 + i) tx_data ++ replicate n 0 ++ drop (4 + i + n) tx_data).
Proof.
  induction n as [|n IH]; intros tx i Hfit Hmax; cbn [fill_dummy replicate].
  - rewrite Nat.add_0_r. cbn [app]. rewrite take_drop. reflexivity.
  - unfold INT_MAX in Hmax.
    rewrite !wrap_int_id by (unfold int_range, INT_MIN, INT_MAX; lia).
    rewrite buf_store_ok by lia. cbn.
    replace (Z.of_nat i + 1) with (Z.of_nat (S i)) by lia.
    replace (Z.to_nat (4 + Z.of_nat i)) with (4 + i)%nat by lia.
    rewrite IH by (rewrite length_insert; unfold INT_MAX; lia).
    replace (4 + S i)%nat with (S (4 + i)) by lia.
    rewrite (take_S_r _ _ 0) by (apply list_lookup_insert_eq; lia).
    rewrite take_insert_ge by lia.
    rewrite drop_insert_lt by lia.
    rewrite <- app_assoc. cbn [app].
    replace (S (4 + i) + n)%nat with (4 + i + S n)%nat by lia. reflexivity.
Qed.

Lemma copy_payload_ok (rx_data : list Z) (n : nat) :
  forall (data : list Z) (i : nat),
  (4 + i + n <= length rx_data)%nat -> (i + n <= length data)%nat ->
  Z.of_nat (length rx_data) <= INT_MAX ->
  copy_payload rx_data data (Z.of_nat i) n =
    Ret (take i data ++ take n (drop (4 + i) rx_data) ++ drop (i + n) data).
Proof.
  induction n as [|n IH]; intros data i Hrx Hdata Hmax; cbn [copy_payload].
  - rewrite Nat.add_0_r, take_0. cbn [app]. rewrite take_drop. reflexivity.
  - unfold INT_MAX in Hmax.
    rewrite !wrap_int_id by (unfold int_range, INT_MIN, INT_MAX; lia).
    destruct (buf_load_ok rx_data (4 + Z.of_nat i)) as (b & -> & Hb); [lia|].
    cbn. rewrite buf_store_ok by lia. cbn.
    replace (Z.of_nat i + 1) with (Z.of_nat (S i)) by lia.
    replace (Z.to_nat (4 + Z.of_nat i)) with (4 + i)%nat in Hb by lia.
    rewrite Nat2Z.id.
    rewrite IH by (rewrite ?length_insert; unfold INT_MAX; lia).
    rewrite (take_S_r _ _ b) by (apply list_lookup_insert_eq; lia).
    rewrite take_insert_ge by lia.
    rewrite drop_insert_lt by lia.
    change (S (S (S (S i)))) with (4 + i)%nat.
    rewrite (drop_S _ _ _ Hb). cbn [firstn].
    replace (4 + S i)%nat with (S (4 + i)) by lia.
    rewrite <- app_assoc. cbn [app].
    replace (S i + n)%nat with (i + S n)%nat by lia. reflexivity.
Qed.

(** What a successful transfer on fitting buffers sent and received. *)
Lemma transfer_success_path (env : environment) (tx_data rx_data : list Z)
    (len : Z) (m m' : machine) :
  transfer_pre tx_data rx_data len ->
  g233_spi_transfer_interrupt env tx_data rx_data len m = Ret (0, m') ->
  exists (t : list event) (k : nat),
    trace m' = trace m ++ t /\
    dr_writes t = take (Z.to_nat len) tx_data ++ replicate k 0 /\
    take (Z.to_nat len) (rx_buffer (spi_state m')) =
      map low_byte (take (Z.to_nat len) (dr_reads t)) /\
    (Z.to_nat len <= length (dr_reads t))%nat.
Proof.
  intros Hpre Hrun.
  destruct (transfer_ret _ _ _ _ _ _ _ Hrun) as (t & line & Hruns & Htrace & Hprint & _).
  pose proof (data_path_runs _ _ _ _ _ (proj1 Hpre) Hruns)
    as (_ & _ & _ & _ & _ & (k & Hw & _) & Hle & _ & Htake & _).
  destruct (success_cursors _ _ _ _ _ _ Hpre Hrun) as [Hi Hr].
  rewrite Hi in Hw. rewrite Hr in Htake, Hle.
  eexists _, k. split; [exact Htrace|].
  destruct line; try discriminate.
  cbn. rewrite dr_writes_app, dr_reads_app. cbn. rewrite !app_nil_r.
  repeat split; assumption.
Qed.

(** X6: [flash_read_data] on a request of at most 256 bytes that fits the
    caller's buffer always returns.  Its one transfer sends the command
    0x03, the three address bytes (most significant first) and [len] zero
    bytes.  When the transfer succeeds, the first [len] bytes of the
    caller's buffer become the low bytes of the 5th to (4+len)th values
    read from the data register, in order, and the rest of the buffer is
    unchanged; when it fails, the caller's buffer is not touched at all. *)
Theorem read_data_payload (env : environment) (addr : Z) (data : list Z)
    (len : Z) (st : read_statics) (m : machine) :
  0 <= len <= 256 ->
  length (rd_tx_data st) = 260%nat -> length (rd_rx_data st) = 260%nat ->
  len <= Z.of_nat (length data) ->
  let tx_data := W25X16_READ_DATA :: addr_bytes addr ++
                 replicate (Z.to_nat len) 0 ++
                 drop (4 + Z.to_nat len) (rd_tx_data st) in
  exists (r : Z) (m1 : machine) (data' : list Z) (st' : read_statics)
         (m' : machine) (t : list event),
    g233_spi_transfer_interrupt env tx_data (rd_rx_data st) (4 + len)
      (g233_spi_cs_assert m) = Ret (r, m1) /\
    flash_read_data env addr data len st m = Ret (data', st', m') /\
    trace m' = trace m ++ t /\
    length data' = length data /\
    (r <> 0 -> data' = data) /\
    (r = 0 ->
     data' = map low_byte (take (Z.to_nat len) (drop 4 (dr_reads t))) ++
             drop (Z.to_nat len) data /\
     (4 + Z.to_nat len <= length (dr_reads t))%nat /\
     exists k, dr_writes t =
               W25X16_READ_DATA :: addr_bytes addr ++ replicate (Z.to_nat len + k) 0).
Proof.
  intros Hlen Htx Hrx Hdata tx_data.
  destruct (rd_tx_data st) as [|x0 [|x1 [|x2 [|x3 rest]]]] eqn:Etx;
    try (cbn in Htx; lia).
  assert (length rest = 256%nat) as Hrest by (cbn in Htx; lia).
  assert (length tx_data = 260%nat) as Hltx.
  { unfold tx_data. cbn. rewrite length_app, length_replicate, length_drop. lia. }
  assert (transfer_pre tx_data (rd_rx_data st) (4 + len)) as Hpre.
  { unfold transfer_pre, INT_MAX. lia. }
  destruct (transfer_total env _ _ _ (g233_spi_cs_assert m) Hpre)
    as (r & m1 & t1 & E & _ & _ & Ht1 & _ & _ & Hl1 & _).
  exists r, m1.
  unfold flash_read_data. rewrite Etx.
  rewrite (buf_store_ok _ 0) by (rewrite ?length_insert; cbn [length]; lia).
  cbn [mbind outcome_bind].
  rewrite (buf_store_ok _ 1) by (rewrite ?length_insert; cbn [length]; lia).
  cbn [mbind outcome_bind].
  rewrite (buf_store_ok _ 2) by (rewrite ?length_insert; cbn [length]; lia).
  cbn [mbind outcome_bind].
  rewrite (buf_store_ok _ 3) by (rewrite ?length_insert; cbn [length]; lia).
  cbn [mbind outcome_bind].
  change (<[Z.to_nat 3:=_]> _) with (W25X16_READ_DATA :: addr_bytes addr ++ rest).
  change (fill_dummy ?b 0 ?n) with (fill_dummy b (Z.of_nat 0) n).
  rewrite fill_dummy_ok by (cbn [length app addr_bytes]; unfold INT_MAX; lia).
  cbn [mbind outcome_bind].
  change (take (4 + 0) _ ++ replicate (Z.to_nat len) 0 ++ drop (4 + 0 + Z.to_nat len) _)
    with tx_data.
  rewrite wrap_int_id by (unfold int_range, INT_MIN, INT_MAX; lia).
  rewrite E. cbn [mbind outcome_bind].
  destruct (Z.eqb_spec r 0) as [->|Hr].
  - change (copy_payload ?b ?d 0 ?n) with (copy_payload b d (Z.of_nat 0) n).
    rewrite copy_payload_ok by (rewrite ?Hl1, ?Hrx; unfold INT_MAX; lia).
    cbn [mbind outcome_bind].
    destruct (transfer_success_path _ _ _ _ _ _ Hpre E) as (t & k & Ht & Hw & Hr & Hn).
    eexists _, _, _,
      ([MmioWrite SPI_CSCTRL (Z.lor SPI_CSCTRL_CS0_EN SPI_CSCTRL_CS0_ACT)]
       ++ t ++ [MmioWrite SPI_CSCTRL 0]).
    split; [reflexivity|]. split; [reflexivity|].
    split.
    { cbn [g233_spi_cs_deassert emit trace]. rewrite Ht.
      cbn [g233_spi_cs_assert emit trace]. rewrite <- !app_assoc. reflexivity. }
    rewrite take_0. cbn [app Nat.add].
    split.
    { rewrite length_app, length_take, !length_drop, Hl1, Hrx. lia. }
    split; [contradiction|]. intros _.
    replace (Z.to_nat (4 + len)) with (4 + Z.to_nat len)%nat in Hw, Hr, Hn by lia.
    assert (dr_reads (MmioWrite SPI_CSCTRL (Z.lor SPI_CSCTRL_CS0_EN SPI_CSCTRL_CS0_ACT)
                      :: t ++ [MmioWrite SPI_CSCTRL 0]) = dr_reads t) as ->.
    { cbn. rewrite dr_reads_app. apply app_nil_r. }
    assert (dr_writes (MmioWrite SPI_CSCTRL (Z.lor SPI_CSCTRL_CS0_EN SPI_CSCTRL_CS0_ACT)
                       :: t ++ [MmioWrite SPI_CSCTRL 0]) = dr_writes t) as ->.
    { cbn. rewrite dr_writes_app. apply app_nil_r. }
    split; [|split; [exact Hn|]].
    + f_equal. rewrite take_drop_commute, Hr, skipn_map, <- take_drop_commute.
      reflexivity.
    + exists k. rewrite Hw. unfold tx_data, addr_bytes.
      change (4 + Z.to_nat len)%nat with (S (S (S (S (Z.to_nat len))))).
      cbn [firstn app].
      rewrite take_app_length' by (rewrite length_replicate; reflexivity).
      rewrite replicate_add. reflexivity.
  - cbn [mbind outcome_bind].
    eexists _, _, _,
      ([MmioWrite SPI_CSCTRL (Z.lor SPI_CSCTRL_CS0_EN SPI_CSCTRL_CS0_ACT)]
       ++ t1 ++ [MmioWrite SPI_CSCTRL 0]).
    split; [reflexivity|]. split; [reflexivity|].
    split.
    { cbn [g233_spi_cs_deassert emit trace]. rewrite Ht1.
      cbn [g233_spi_cs_assert emit trace]. rewrite <- !app_assoc. reflexivity. }
    split; [reflexivity|]. split; [reflexivity | contradiction].
Qed.

Lemma read_data_payload_witness :
  let st := mk_read_statics (replicate 260 0) (replicate 260 0) in
  let env := env_of [sched_reply [0; 0; 0; 0; 0x1AB; 0xCD]] in
  let tx_data := W25X16_READ_DATA :: addr_bytes 0x010203 ++
                 replicate (Z.to_nat 2) 0 ++
                 drop (4 + Z.to_nat 2) (rd_tx_data st) in
  exists (r : Z) (m1 : machine) (data' : list Z) (st' : read_statics)
         (m' : machine) (t : list event),
    g233_spi_transfer_interrupt env tx_data (rd_rx_data st) (4 + 2)
      (g233_spi_cs_assert boot) = Ret (r, m1) /\
    flash_read_data env 0x010203 [7; 8; 9] 2 st boot = Ret (data', st', m') /\
    trace m' = trace boot ++ t /\
    length data' = length [7; 8; 9] /\
    (r <> 0 -> data' = [7; 8; 9]) /\
    (r = 0 ->
     data' = map low_byte (take (Z.to_nat 2) (drop 4 (dr_reads t))) ++
             drop (Z.to_nat 2) [7; 8; 9] /\
     (4 + Z.to_nat 2 <= length (dr_reads t))%nat /\
     exists k, dr_writes t =
               W25X16_READ_DATA :: addr_bytes 0x010203 ++
               replicate (Z.to_nat 2 + k) 0).
Proof.
  apply (read_data_payload (env_of [sched_reply [0; 0; 0; 0; 0x1AB; 0xCD]])
           0x010203 [7; 8; 9] 2
           (mk_read_statics (replicate 260 0) (replicate 260 0)) boot).
  - lia.
  - reflexivity.
  - reflexivity.
  - cbn. lia.
Defined.


(** ** Requests longer than a page *)

Lemma buf_store_out (b : list Z) (i v : Z) :
  Z.of_nat (length b) <= i -> buf_store b i v = Undef.
Proof.
  intros H. unfold buf_store.
  destruct (Z.ltb_spec i (Z.of_nat (length b))); [lia|].
  rewrite andb_false_r. reflexivity.
Qed.

Lemma fill_payload_overrun (data : list Z) (n : nat) :
  forall (tx_data : list Z) (i : Z),
  length tx_data = 260%nat -> 0 <= i <= 256 -> 256 < i + Z.of_nat n ->
  fill_payload data tx_data i n = Undef.
Proof.
  induction n as [|n IH]; intros tx i Hl Hi Hn; [lia|].
  cbn [fill_payload].
  destruct (buf_load data i) as [b| |] eqn:Eb; cbn [mbind outcome_bind];
    [|reflexivity|].
  - rewrite !wrap_int_id by (unfold int_range, INT_MIN, INT_MAX; lia).
    destruct (Z.eq_dec i 256) as [->|Hne].
    + rewrite buf_store_out by lia. reflexivity.
    + rewrite buf_store_ok by lia. cbn [mbind outcome_bind].
      apply IH; [rewrite length_insert; exact Hl | lia | lia].
  - exfalso. unfold buf_load in Eb.
    destruct (0 <=? i); [|discriminate].
    destruct (data !! Z.to_nat i); discriminate.
Qed.

Lemma fill_dummy_overrun (n : nat) :
  forall (tx_data : list Z) (i : Z),
  length tx_data = 260%nat -> 0 <= i <= 256 -> 256 < i + Z.of_nat n ->
  fill_dummy tx_data i n = Undef.
Proof.
  induction n as [|n IH]; intros tx i Hl Hi Hn; [lia|].
  cbn [fill_dummy].
  rewrite !wrap_int_id by (unfold int_range, INT_MIN, INT_MAX; lia).
  destruct (Z.eq_dec i 256) as [->|Hne].
  - rewrite buf_store_out by lia. reflexivity.
  - rewrite buf_store_ok by lia. cbn [mbind outcome_bind].
    apply IH; [rewrite length_insert; exact Hl | lia | lia].
Qed.

(** X22: neither [flash_page_program] nor [flash_read_data] checks its
    length against the 260-byte static buffers.  A request of more than 256
    bytes writes past the end of the transmit buffer while the command is
    being laid out, before anything is sent: the behaviour is undefined. *)
Theorem long_requests_overrun (env : environment) (addr : Z) (data : list Z)
    (len : Z) (st : read_statics) (m : machine) :
  256 < len ->
  length (pp_tx_data m) = 260%nat -> length (rd_tx_data st) = 260%nat ->
  flash_page_program env addr data len m = Undef /\
  flash_read_data env addr data len st m = Undef.
Proof.
  intros Hlen Hpp Hrd. split.
  - unfold flash_page_program, page_program_command. cbv zeta.
    cbn [emit pp_tx_data].
    rewrite (buf_store_ok _ 0) by lia. cbn [mbind outcome_bind].
    rewrite (buf_store_ok _ 1) by (rewrite ?length_insert; lia).
    cbn [mbind outcome_bind].
    rewrite (buf_store_ok _ 2) by (rewrite ?length_insert; lia).
    cbn [mbind outcome_bind].
    rewrite (buf_store_ok _ 3) by (rewrite ?length_insert; lia).
    cbn [mbind outcome_bind].
    rewrite fill_payload_overrun; [reflexivity | | lia | lia].
    rewrite !length_insert. exact Hpp.
  - unfold flash_read_data.
    rewrite (buf_store_ok _ 0) by lia. cbn [mbind outcome_bind].
    rewrite (buf_store_ok _ 1) by (rewrite ?length_insert; lia).
    cbn [mbind outcome_bind].
    rewrite (buf_store_ok _ 2) by (rewrite ?length_insert; lia).
    cbn [mbind outcome_bind].
    rewrite (buf_store_ok _ 3) by (rewrite ?length_insert; lia).
    cbn [mbind outcome_bind].
    rewrite fill_dummy_overrun; [reflexivity | | lia | lia].
    rewrite !length_insert. exact Hrd.
Qed.

Lemma long_requests_overrun_witness :
  flash_page_program env_command_fails 0 (replicate 300 0x61) 257 boot = Undef /\
  flash_read_data env_command_fails 0 (replicate 300 0x61) 257
    (mk_read_statics (replicate 260 0) (replicate 260 0)) boot = Undef.
Proof.
  apply (long_requests_overrun env_command_fails 0 (replicate 300 0x61) 257
           (mk_read_statics (replicate 260 0) (replicate 260 0)) boot).
  - lia.
  - reflexivity.
  - reflexivity.
Defined.


(** ** Programming a page *)






End InterruptMore.

(** * Further properties of the polled program *)

Module DualCSMore.
Import DualCS DualCSExt DualNotions.

#[local] Arguments Z.testbit : simpl never.
#[local] Arguments Z.land : simpl never.
#[local] Arguments to_u32 : simpl never.

(** ** Traces *)

Lemma wire_app (t1 t2 : list event) : wire (t1 ++ t2) = wire t1 ++ wire t2.
Proof. apply List.filter_app. Qed.

Lemma sr_trace_S (hw : bus) (start n : nat) :
  sr_trace hw start (S n) =
  MmioRead SPI_SR (to_u32 (hw start)) :: sr_trace hw (S start) n.
Proof. reflexivity. Qed.

Lemma wire_sr_trace (hw : bus) (n : nat) :
  forall start, wire (sr_trace hw start n) = [].
Proof.
  induction n as [|n IH]; intros start; [reflexivity|].
  rewrite sr_trace_S. cbn. apply IH.
Qed.

Lemma wire_poll_warning (warning : string) (n : nat) :
  wire (poll_warning warning n) = [].
Proof. unfold poll_warning. destruct (_ =? _); reflexivity. Qed.

(** ** The polling loops *)

(** A polling loop entered with [retry_count] reads the status register [n]
    times, where [n] is the number of the first read that shows the flag,
    at most [1001 - retry_count]; it prints its warning exactly when it
    stops at that bound. *)
Lemma poll_sr_shape (hw : bus) (flag : Z) (warning : string) (fuel : nat) :
  forall (retry_count : Z) (m : machine),
  0 <= retry_count -> Z.of_nat fuel = poll_retries - retry_count ->
  exists (n : nat) (m' : machine),
    poll_sr hw flag warning fuel retry_count m = Ret m' /\
    (1 <= n)%nat /\ retry_count + Z.of_nat n <= 1001 /\
    csctrl m' = csctrl m /\ reads m' = (reads m + n)%nat /\
    trace m' = trace m ++ sr_trace hw (reads m) n ++
               (if retry_count + Z.of_nat n =? 1001 then [Print warning []] else []) /\
    (forall k, (S k < n)%nat ->
       c_true (Z.land (to_u32 (hw (reads m + k)%nat)) flag) = false) /\
    (retry_count + Z.of_nat n < 1001 ->
       c_true (Z.land (to_u32 (hw (reads m + n - 1)%nat)) flag) = true).
Proof.
  unfold poll_retries.
  induction fuel as [|fuel IH]; intros rc m Hrc Hfuel; cbn [poll_sr read_reg];
    rewrite InterruptFacts.wrap_int_id
      by (unfold int_range, INT_MIN, INT_MAX in *; lia);
    unfold poll_retries.
  - assert (rc = 1000) as -> by lia.
    exists 1%nat. eexists. split; [reflexivity|]. cbn.
    rewrite <- app_assoc.
    repeat split; try lia.
  - destruct (Z.ltb_spec 1000 (rc + 1)).
    + assert (rc = 1000) as -> by lia.
      exists 1%nat. eexists. split; [reflexivity|]. cbn.
      rewrite <- app_assoc.
      repeat split; try lia.
    + destruct (c_true _) eqn:Ef; cbn [negb].
      * exists 1%nat. eexists. split; [reflexivity|]. cbn [csctrl reads trace].
        split; [lia|]. split; [lia|]. split; [reflexivity|].
        split; [lia|]. split.
        { destruct (Z.eqb_spec (rc + Z.of_nat 1) 1001); [lia|]. reflexivity. }
        split; [intros k Hk; lia|]. intros _.
        replace (reads m + 1 - 1)%nat with (reads m) by lia. exact Ef.
      * destruct (IH (rc + 1) (mk_machine (csctrl m) (S (reads m))
                     (trace m ++ [MmioRead SPI_SR (to_u32 (hw (reads m)))])))
          as (n & m' & E & Hn & Hle & Hcs & Hreads & Htrace & Hclear & Hset);
          [lia | lia |].
        cbn [csctrl reads trace] in Hcs, Hreads, Htrace, Hclear, Hset.
        exists (S n), m'. split; [exact E|].
        split; [lia|]. split; [lia|]. split; [exact Hcs|]. split; [lia|].
        split.
        { rewrite Htrace, <- app_assoc, sr_trace_S.
          replace (rc + 1 + Z.of_nat n) with (rc + Z.of_nat (S n)) by lia.
          reflexivity. }
        split.
        { intros [|k] Hk.
          - rewrite Nat.add_0_r. exact Ef.
          - replace (reads m + S k)%nat with (S (reads m) + k)%nat by lia.
            apply Hclear. lia. }
        intros Hlt.
        replace (reads m + S n - 1)%nat with (S (reads m) + n - 1)%nat by lia.
        apply Hset. lia.
Qed.

(** What later proofs need of a polled byte transfer. *)
Lemma transfer_wire (hw : bus) (data : Z) (m : machine) :
  exists d m' t,
    g233_spi_transfer hw data m = Ret (Z.land d 0xFF, m') /\
    trace m' = trace m ++ t /\
    wire t = [MmioWrite SPI_DR (to_u32 data); MmioRead SPI_DR d] /\
    last t = Some (MmioRead SPI_DR d) /\
    csctrl m' = csctrl m.
Proof.
  unfold g233_spi_transfer.
  destruct (poll_sr_shape hw SPI_SR_TXE "Warning: TX buffer empty timeout"
              (Z.to_nat poll_retries) 0 m)
    as (n1 & m1 & E1 & _ & _ & Hcs1 & _ & Ht1 & _);
    [lia | unfold poll_retries; lia |].
  rewrite E1. cbn [mbind outcome_bind].
  destruct (poll_sr_shape hw SPI_SR_RXNE "Warning: RX buffer not empty timeout"
              (Z.to_nat poll_retries) 0 (write_reg SPI_DR data m1))
    as (n2 & m2 & E2 & _ & _ & Hcs2 & _ & Ht2 & _);
    [lia | unfold poll_retries; lia |].
  rewrite E2. cbn [mbind outcome_bind read_reg].
  cbn [write_reg csctrl reads trace] in Hcs2, Ht2.
  eexists _, _, _. split; [reflexivity|]. cbn [trace csctrl].
  rewrite Ht2, Ht1, <- !app_assoc. split; [reflexivity|].
  split; [|split; [|congruence]].
  - rewrite !wire_app, !wire_sr_trace.
    destruct (_ =? _); destruct (_ =? _); reflexivity.
  - rewrite !app_assoc. apply last_snoc.
Qed.

(** X8: the complete trace of a polled byte transfer.  [g233_spi_transfer]
    always returns.  It polls the status register [n1] times, up to the
    first read that shows TXE (bit 1) and at most 1001 times, and prints the
    TX warning exactly when it made all 1001 reads; then it writes the byte
    to the data register in any case; it polls again [n2] times for RXNE
    (bit 0) in the same way, reads the data register once, and returns the
    low byte of that read.  It leaves the chip-select register alone. *)
Theorem polled_transfer_trace (hw : bus) (data : Z) (m : machine) :
  exists (n1 n2 : nat) (m' : machine),
    let d := to_u32 (hw (reads m + n1 + n2)%nat) in
    g233_spi_transfer hw data m = Ret (Z.land d 0xFF, m') /\
    1 <= Z.of_nat n1 <= 1001 /\ 1 <= Z.of_nat n2 <= 1001 /\
    csctrl m' = csctrl m /\ reads m' = (reads m + n1 + n2 + 1)%nat /\
    trace m' =
      trace m ++
      sr_trace hw (reads m) n1 ++
      poll_warning "Warning: TX buffer empty timeout" n1 ++
      [MmioWrite SPI_DR (to_u32 data)] ++
      sr_trace hw (reads m + n1) n2 ++
      poll_warning "Warning: RX buffer not empty timeout" n2 ++
      [MmioRead SPI_DR d] /\
    (forall k, (S k < n1)%nat -> Z.testbit (hw (reads m + k)%nat) 1 = false) /\
    (Z.of_nat n1 < 1001 -> Z.testbit (hw (reads m + n1 - 1)%nat) 1 = true) /\
    (forall k, (S k < n2)%nat -> Z.testbit (hw (reads m + n1 + k)%nat) 0 = false) /\
    (Z.of_nat n2 < 1001 -> Z.testbit (hw (reads m + n1 + n2 - 1)%nat) 0 = true).
Proof.
  unfold g233_spi_transfer.
  destruct (poll_sr_shape hw SPI_SR_TXE "Warning: TX buffer empty timeout"
              (Z.to_nat poll_retries) 0 m)
    as (n1 & m1 & E1 & Hn1 & Hle1 & Hcs1 & Hr1 & Ht1 & Hclear1 & Hset1);
    [lia | unfold poll_retries; lia |].
  rewrite E1. cbn [mbind outcome_bind].
  destruct (poll_sr_shape hw SPI_SR_RXNE "Warning: RX buffer not empty timeout"
              (Z.to_nat poll_retries) 0 (write_reg SPI_DR data m1))
    as (n2 & m2 & E2 & Hn2 & Hle2 & Hcs2 & Hr2 & Ht2 & Hclear2 & Hset2);
    [lia | unfold poll_retries; lia |].
  rewrite E2. cbn [mbind outcome_bind read_reg].
  cbn [write_reg csctrl reads trace] in Hcs2, Hr2, Ht2, Hclear2, Hset2.
  rewrite Hr1 in Hr2, Ht2, Hclear2, Hset2.
  exists n1, n2. eexists. cbv zeta. rewrite Hr2.
  split; [reflexivity|]. cbn [trace csctrl reads].
  split; [lia|]. split; [lia|]. split; [congruence|]. split; [lia|].
  split.
  { rewrite Ht2, Ht1, <- !app_assoc. reflexivity. }
  split; [|split; [|split]].
  - intros k Hk. rewrite <- (InterruptFacts.c_true_bit _ 1) by lia.
    exact (Hclear1 k Hk).
  - intros Hlt. rewrite <- (InterruptFacts.c_true_bit _ 1) by lia.
    apply Hset1. lia.
  - intros k Hk. rewrite <- (InterruptFacts.c_true_bit _ 0) by lia.
    exact (Hclear2 k Hk).
  - intros Hlt. rewrite <- (InterruptFacts.c_true_bit _ 0) by lia.
    apply Hset2. lia.
Qed.

(** X9: the timeouts of a polled transfer are soft.  When none of its first
    1001 status reads shows TXE and none of the next 1001 shows RXNE, the
    transfer makes all 2002 reads, prints both warnings, and still writes
    the byte to the data register and returns the low byte it then reads
    from it: the caller cannot tell the result from received data. *)
Theorem polled_transfer_soft_timeout (hw : bus) (data : Z) (m : machine) :
  (forall k, (k < 1001)%nat -> Z.testbit (hw (reads m + k)%nat) 1 = false) ->
  (forall k, (k < 1001)%nat -> Z.testbit (hw (reads m + 1001 + k)%nat) 0 = false) ->
  exists m',
    let d := to_u32 (hw (reads m + 2002)%nat) in
    g233_spi_transfer hw data m = Ret (Z.land d 0xFF, m') /\
    reads m' = (reads m + 2003)%nat /\
    trace m' =
      trace m ++
      sr_trace hw (reads m) 1001 ++
      [Print "Warning: TX buffer empty timeout" [];
       MmioWrite SPI_DR (to_u32 data)] ++
      sr_trace hw (reads m + 1001) 1001 ++
      [Print "Warning: RX buffer not empty timeout" [];
       MmioRead SPI_DR d].
Proof.
  intros Htxe Hrxne. unfold g233_spi_transfer.
  destruct (poll_sr_shape hw SPI_SR_TXE "Warning: TX buffer empty timeout"
              (Z.to_nat poll_retries) 0 m)
    as (n1 & m1 & E1 & Hn1 & Hle1 & Hcs1 & Hr1 & Ht1 & Hclear1 & Hset1);
    [lia | unfold poll_retries; lia |].
  assert (n1 = 1001%nat) as ->.
  { destruct (Z.eq_dec (Z.of_nat n1) 1001) as [?|Hne]; [lia|].
    assert (0 + Z.of_nat n1 < 1001) as Hlt by lia. apply Hset1 in Hlt.
    rewrite (InterruptFacts.c_true_bit _ 1) in Hlt by lia.
    replace (reads m + n1 - 1)%nat with (reads m + (n1 - 1))%nat in Hlt by lia.
    rewrite Htxe in Hlt by lia. discriminate. }
  rewrite E1. cbn [mbind outcome_bind].
  destruct (poll_sr_shape hw SPI_SR_RXNE "Warning: RX buffer not empty timeout"
              (Z.to_nat poll_retries) 0 (write_reg SPI_DR data m1))
    as (n2 & m2 & E2 & Hn2 & Hle2 & Hcs2 & Hr2 & Ht2 & Hclear2 & Hset2);
    [lia | unfold poll_retries; lia |].
  cbn [write_reg csctrl reads trace] in Hcs2, Hr2, Ht2, Hclear2, Hset2.
  rewrite Hr1 in Hr2, Ht2, Hclear2, Hset2.
  assert (n2 = 1001%nat) as ->.
  { destruct (Z.eq_dec (Z.of_nat n2) 1001) as [?|Hne]; [lia|].
    assert (0 + Z.of_nat n2 < 1001) as Hlt by lia. apply Hset2 in Hlt.
    rewrite (InterruptFacts.c_true_bit _ 0) in Hlt by lia.
    replace (reads m + 1001 + n2 - 1)%nat
      with (reads m + 1001 + (n2 - 1))%nat in Hlt by lia.
    rewrite Hrxne in Hlt by lia. discriminate. }
  rewrite E2. cbn [mbind outcome_bind read_reg].
  eexists. cbv zeta. rewrite Hr2.
  replace (reads m + 1001 + 1001)%nat with (reads m + 2002)%nat by lia.
  split; [reflexivity|]. cbn [trace reads].
  split; [lia|].
  rewrite Ht2, Ht1, <- !app_assoc. reflexivity.
Qed.

Lemma polled_transfer_soft_timeout_witness :
  exists m',
    let d := to_u32 (bus_silent (reads (mk_machine 0 0 []) + 2002)%nat) in
    g233_spi_transfer bus_silent 0xA5 (mk_machine 0 0 []) = Ret (Z.land d 0xFF, m') /\
    reads m' = (reads (mk_machine 0 0 []) + 2003)%nat /\
    trace m' =
      trace (mk_machine 0 0 []) ++
      sr_trace bus_silent (reads (mk_machine 0 0 [])) 1001 ++
      [Print "Warning: TX buffer empty timeout" [];
       MmioWrite SPI_DR (to_u32 0xA5)] ++
      sr_trace bus_silent (reads (mk_machine 0 0 []) + 1001) 1001 ++
      [Print "Warning: RX buffer not empty timeout" [];
       MmioRead SPI_DR d].
Proof.
  apply (polled_transfer_soft_timeout bus_silent 0xA5 (mk_machine 0 0 []));
    intros k Hk; reflexivity.
Defined.


(** ** Chip-select frames *)

Ltac next_transfer d m t E Ht Hw Hcs :=
  match goal with
  | |- context [g233_spi_transfer ?hw ?x ?m0] =>
      destruct (transfer_wire hw x m0) as (d & m & t & E & Ht & Hw & _ & Hcs);
      rewrite E; cbn [mbind outcome_bind]
  end.

Lemma to_u32_byte (x : Z) : to_u32 (Z.land x 0xFF) = Z.land x 0xFF.
Proof.
  pose proof (InterruptMore.addr_byte_range x).
  unfold to_u32. apply Z.mod_small. lia.
Qed.

Lemma status_busy_bit (d : Z) : c_true (Z.land (Z.land d 0xFF) 0x01) = Z.testbit d 0.
Proof.
  rewrite <- Z.land_assoc. change (Z.land 255 1) with (Z.shiftl 1 0).
  rewrite InterruptFacts.land_bit by lia. unfold c_true.
  destruct (Z.testbit d 0); reflexivity.
Qed.

Lemma read_status_wire (hw : bus) (cs : Z) (m : machine) :
  exists d0 d1 m' t,
    flash_read_status hw cs m = Ret (Z.land d1 0xFF, m') /\
    trace m' = trace m ++ t /\
    wire t = frame (select_value cs) [W25X_READ_STATUS; 0] [d0; d1] /\
    last t = Some (MmioWrite SPI_CSCTRL 0) /\
    csctrl m' = 0.
Proof.
  unfold flash_read_status.
  next_transfer d0 m0 t0 E0 Ht0 Hw0 Hcs0.
  next_transfer d1 m1 t1 E1 Ht1 Hw1 Hcs1.
  exists d0, d1. eexists.
  exists ([MmioWrite SPI_CSCTRL (select_value cs)] ++ t0 ++ t1 ++
          [MmioWrite SPI_CSCTRL 0]).
  split; [reflexivity|]. split.
  { cbn [g233_spi_cs_deassert write_csctrl trace]. rewrite Ht1, Ht0.
    cbn [g233_spi_cs_assert write_csctrl trace]. rewrite <- !app_assoc.
    reflexivity. }
  split.
  { rewrite !wire_app, Hw0, Hw1. reflexivity. }
  split; [|reflexivity].
  rewrite !app_assoc. apply last_snoc.
Qed.

Lemma status_frames_cons (sel d0 d1 : Z) (dss : list (Z * Z)) :
  status_frames sel ((d0, d1) :: dss) =
  frame sel [W25X_READ_STATUS; 0] [d0; d1] ++ status_frames sel dss.
Proof. reflexivity. Qed.

Lemma status_frames_nonempty (sel : Z) (dss : list (Z * Z)) :
  (1 <= length dss)%nat -> status_frames sel dss <> [].
Proof. destruct dss as [|[d0 d1] dss]; cbn; [lia | discriminate]. Qed.

Lemma wait_busy_loop_frames (hw : bus) (cs : Z) (fuel : nat) :
  forall (retry_count : Z) (m : machine),
  0 <= retry_count -> Z.of_nat fuel = busy_retries - retry_count ->
  exists (dss : list (Z * Z)) (m' : machine) (t : list event),
    wait_busy_loop hw cs fuel retry_count m = Ret m' /\
    trace m' = trace m ++ t /\
    wire t = status_frames (select_value cs) dss /\
    csctrl m' = 0 /\
    (1 <= length dss)%nat /\
    retry_count + Z.of_nat (length dss) <= 10001 /\
    (last t = Some (Print "Warning: Flash %d busy timeout" [cs]) <->
     retry_count + Z.of_nat (length dss) = 10001) /\
    (retry_count + Z.of_nat (length dss) < 10001 ->
     exists d0 d1, last dss = Some (d0, d1) /\ Z.testbit d1 0 = false) /\
    (forall i d0 d1, (S i < length dss)%nat -> dss !! i = Some (d0, d1) ->
       Z.testbit d1 0 = true).
Proof.
  unfold busy_retries.
  induction fuel as [|fuel IH]; intros rc m Hrc Hfuel;
    destruct (read_status_wire hw cs m)
      as (d0 & d1 & m1 & t1 & E1 & Ht1 & Hw1 & Hlast1 & Hcs1);
    cbn [wait_busy_loop]; rewrite E1; cbn [mbind outcome_bind];
    rewrite InterruptFacts.wrap_int_id
      by (unfold int_range, INT_MIN, INT_MAX in *; lia);
    unfold busy_retries.
  - assert (rc = 10000) as -> by lia.
    exists [(d0, d1)]. eexists.
    exists (t1 ++ [Print "Warning: Flash %d busy timeout" [cs]]).
    split; [reflexivity|]. cbn [printf trace csctrl length].
    split; [rewrite Ht1, <- app_assoc; reflexivity|].
    split; [rewrite wire_app, Hw1; cbn; rewrite ?app_nil_r; reflexivity|].
    split; [exact Hcs1|]. split; [lia|]. split; [lia|].
    split; [split; [lia | intros _; apply last_snoc]|].
    split; [lia|]. intros i e0 e1 Hi. cbn in Hi. lia.
  - destruct (Z.ltb_spec 10000 (rc + 1)).
    + assert (rc = 10000) as -> by lia.
      exists [(d0, d1)]. eexists.
      exists (t1 ++ [Print "Warning: Flash %d busy timeout" [cs]]).
      split; [reflexivity|]. cbn [printf trace csctrl length].
      split; [rewrite Ht1, <- app_assoc; reflexivity|].
      split; [rewrite wire_app, Hw1; cbn; rewrite ?app_nil_r; reflexivity|].
      split; [exact Hcs1|]. split; [lia|]. split; [lia|].
      split; [split; [lia | intros _; apply last_snoc]|].
      split; [lia|]. intros i e0 e1 Hi. cbn in Hi. lia.
    + rewrite status_busy_bit. destruct (Z.testbit d1 0) eqn:Eb.
      * destruct (IH (rc + 1) m1)
          as (dss & m' & t & E & Ht & Hw & Hcs & Hlen & Hle & Hwarn & Hidle & Hbusy);
          [lia | lia |].
        exists ((d0, d1) :: dss), m', (t1 ++ t).
        split; [exact E|].
        split; [rewrite Ht, Ht1, <- app_assoc; reflexivity|].
        split; [rewrite wire_app, Hw1, Hw; reflexivity|].
        split; [exact Hcs|]. cbn [length].
        split; [lia|]. split; [lia|].
        assert (exists e, last t = Some e) as [e He].
        { destruct (last t) as [e|] eqn:El; [eauto|].
          apply last_None in El. subst t.
          exfalso. apply (status_frames_nonempty (select_value cs) dss Hlen).
          symmetry. exact Hw. }
        split.
        { rewrite last_app, He, <- He, Hwarn. lia. }
        split.
        { intros Hlt. destruct Hidle as (e0 & e1 & Hl & Hb); [lia|].
          exists e0, e1. split; [|exact Hb]. rewrite last_cons, Hl. reflexivity. }
        intros [|i] e0 e1 Hi Hlook.
        -- injection Hlook as <- <-. exact Eb.
        -- apply (Hbusy i e0 e1); [lia | exact Hlook].
      * exists [(d0, d1)], m1, t1.
        split; [reflexivity|]. split; [exact Ht1|].
        split; [rewrite Hw1; cbn; rewrite ?app_nil_r; reflexivity|].
        split; [exact Hcs1|]. cbn [length].
        split; [lia|]. split; [lia|].
        split; [split; [rewrite Hlast1; discriminate | lia]|].
        split; [intros _; exists d0, d1; split; [reflexivity | exact Eb]|].
        intros i e0 e1 Hi. lia.
Qed.

(** X10: the busy wait of the polled program.  [flash_wait_busy] always
    returns, after between 1 and 10001 status frames on the selected line
    (select, exchange 0x05 and 0x00, deselect), and leaves no line selected.
    Every status read but the last showed BUSY (bit 0); the last one shows
    the flash idle unless all 10001 reads were made, and the busy-timeout
    warning is the last event exactly in that case. *)
Theorem polled_wait_busy_frames (hw : bus) (cs : Z) (m : machine) :
  exists (dss : list (Z * Z)) (m' : machine) (t : list event),
    flash_wait_busy hw cs m = Ret m' /\
    trace m' = trace m ++ t /\
    wire t = status_frames (select_value cs) dss /\
    csctrl m' = 0 /\
    1 <= Z.of_nat (length dss) <= 10001 /\
    (last t = Some (Print "Warning: Flash %d busy timeout" [cs]) <->
     Z.of_nat (length dss) = 10001) /\
    (Z.of_nat (length dss) < 10001 ->
     exists d0 d1, last dss = Some (d0, d1) /\ Z.testbit d1 0 = false) /\
    (forall i d0 d1, (S i < length dss)%nat -> dss !! i = Some (d0, d1) ->
       Z.testbit d1 0 = true).
Proof.
  destruct (wait_busy_loop_frames hw cs (Z.to_nat busy_retries) 0 m)
    as (dss & m' & t & E & Ht & Hw & Hcs & Hlen & Hle & Hwarn & Hidle & Hbusy);
    [lia | unfold busy_retries; lia |].
  exists dss, m', t. split; [exact E|]. split; [exact Ht|]. split; [exact Hw|].
  split; [exact Hcs|]. split; [lia|].
  split; [rewrite Hwarn; lia|].
  split; [intros Hlt; apply Hidle; lia | exact Hbusy].
Qed.

Lemma exchange_app (xs xs' ds ds' : list Z) :
  length xs = length ds ->
  exchange (xs ++ xs') (ds ++ ds') = exchange xs ds ++ exchange xs' ds'.
Proof.
  revert ds. induction xs as [|x xs IH]; intros [|d ds] Hlen;
    try discriminate; [reflexivity|].
  cbn. rewrite IH by (cbn in Hlen; lia). reflexivity.
Qed.

Lemma send_command_wire (hw : bus) (cmd addr : Z) (m : machine) :
  exists ds m' t,
    send_command hw cmd addr m = Ret m' /\
    trace m' = trace m ++ t /\
    length ds = 4%nat /\
    wire t = exchange (to_u32 cmd :: Interrupt.addr_bytes addr) ds /\
    csctrl m' = csctrl m.
Proof.
  unfold send_command. cbv zeta.
  next_transfer d0 m0 t0 E0 Ht0 Hw0 Hcs0.
  next_transfer d1 m1 t1 E1 Ht1 Hw1 Hcs1.
  next_transfer d2 m2 t2 E2 Ht2 Hw2 Hcs2.
  next_transfer d3 m3 t3 E3 Ht3 Hw3 Hcs3.
  exists [d0; d1; d2; d3], m3, (t0 ++ t1 ++ t2 ++ t3).
  split; [reflexivity|].
  split; [rewrite Ht3, Ht2, Ht1, Ht0, <- !app_assoc; reflexivity|].
  split; [reflexivity|].
  split; [|congruence].
  rewrite !wire_app, Hw0, Hw1, Hw2, Hw3, !to_u32_byte. reflexivity.
Qed.

Lemma recv_payload_wire (hw : bus) (n : nat) :
  forall (data : list Z) (i : nat) (m : machine),
  (i + n <= length data)%nat -> Z.of_nat (i + n) <= INT_MAX ->
  exists ds m' t,
    recv_payload hw data (Z.of_nat i) n m =
      Ret (take i data ++ map MoreNotions.low_byte ds ++ drop (i + n) data, m') /\
    trace m' = trace m ++ t /\
    length ds = n /\
    wire t = exchange (replicate n 0) ds /\
    csctrl m' = csctrl m.
Proof.
  induction n as [|n IH]; intros data i m Hfit Hmax; cbn [recv_payload].
  - exists [], m, []. rewrite Nat.add_0_r. cbn [map app].
    rewrite take_drop, app_nil_r. repeat split.
  - next_transfer d m1 t1 E1 Ht1 Hw1 Hcs1.
    rewrite InterruptFacts.buf_store_ok by lia. cbn [mbind outcome_bind].
    unfold INT_MAX in Hmax.
    rewrite InterruptFacts.wrap_int_id
      by (unfold int_range, INT_MIN, INT_MAX; lia).
    replace (Z.of_nat i + 1) with (Z.of_nat (S i)) by lia.
    rewrite Nat2Z.id.
    destruct (IH (<[i := Z.land d 0xFF]> data) (S i) m1)
      as (ds & m' & t & E & Ht & Hlen & Hw & Hcs);
      [rewrite length_insert; lia | unfold INT_MAX; lia |].
    exists (d :: ds), m', (t1 ++ t). rewrite E.
    split.
    { rewrite (take_S_r _ _ (Z.land d 0xFF)) by (apply list_lookup_insert_eq; lia).
      rewrite take_insert_ge by lia. rewrite drop_insert_lt by lia.
      rewrite <- app_assoc. cbn [map app].
      replace (S i + n)%nat with (i + S n)%nat by lia. reflexivity. }
    split; [rewrite Ht, Ht1, <- app_assoc; reflexivity|].
    split; [cbn; lia|].
    split; [rewrite wire_app, Hw1, Hw; reflexivity | congruence].
Qed.

Lemma send_payload_wire (hw : bus) (data : list Z) (n : nat) :
  forall (i : nat) (m : machine),
  (i + n <= length data)%nat -> Z.of_nat (i + n) <= INT_MAX ->
  exists ds m' t,
    send_payload hw data (Z.of_nat i) n m = Ret m' /\
    trace m' = trace m ++ t /\
    length ds = n /\
    wire t = exchange (map to_u32 (take n (drop i data))) ds /\
    csctrl m' = csctrl m.
Proof.
  induction n as [|n IH]; intros i m Hfit Hmax; cbn [send_payload].
  - exists [], m, []. rewrite app_nil_r. repeat split.
  - destruct (InterruptFacts.buf_load_ok data (Z.of_nat i)) as (b & -> & Hb); [lia|].
    cbn [mbind outcome_bind]. rewrite Nat2Z.id in Hb.
    next_transfer d m1 t1 E1 Ht1 Hw1 Hcs1.
    unfold INT_MAX in Hmax.
    rewrite InterruptFacts.wrap_int_id
      by (unfold int_range, INT_MIN, INT_MAX; lia).
    replace (Z.of_nat i + 1) with (Z.of_nat (S i)) by lia.
    destruct (IH (S i) m1) as (ds & m' & t & E & Ht & Hlen & Hw & Hcs);
      [lia | unfold INT_MAX; lia |].
    exists (d :: ds), m', (t1 ++ t).
    split; [exact E|].
    split; [rewrite Ht, Ht1, <- app_assoc; reflexivity|].
    split; [cbn; lia|].
    split; [|congruence].
    rewrite wire_app, Hw1, Hw, (drop_S _ _ _ Hb). reflexivity.
Qed.

(** X11: [flash_read_data] of the polled program, for [0 <= len] bytes that
    fit the caller's buffer, always returns.  On the wire it is one frame on
    the selected line: 0x03, the three address bytes (most significant
    first) and [len] zero bytes, each byte followed by one read of the data
    register.  The first [len] bytes of the caller's buffer become the low
    bytes read after the 5th to last byte sent, in order; the rest of the
    buffer is unchanged; no line is left selected. *)
Theorem polled_read_data_frame (hw : bus) (cs addr : Z) (data : list Z) (len : Z)
    (m : machine) :
  0 <= len <= INT_MAX -> len <= Z.of_nat (length data) ->
  exists (ds data' : list Z) (m' : machine) (t : list event),
    flash_read_data hw cs addr data len m = Ret (data', m') /\
    trace m' = trace m ++ t /\
    length ds = (4 + Z.to_nat len)%nat /\
    wire t = frame (select_value cs)
               (W25X_READ_DATA :: Interrupt.addr_bytes addr ++
                replicate (Z.to_nat len) 0) ds /\
    data' = map MoreNotions.low_byte (drop 4 ds) ++ drop (Z.to_nat len) data /\
    csctrl m' = 0.
Proof.
  intros Hlen Hfit. unfold flash_read_data. cbv zeta.
  destruct (send_command_wire hw W25X_READ_DATA addr (g233_spi_cs_assert cs m))
    as (ds0 & m0 & t0 & E0 & Ht0 & Hl0 & Hw0 & Hcs0).
  rewrite E0. cbn [mbind outcome_bind].
  destruct (recv_payload_wire hw (Z.to_nat len) data 0 m0)
    as (ds1 & m1 & t1 & E1 & Ht1 & Hl1 & Hw1 & Hcs1); [lia | lia |].
  change (recv_payload hw data 0) with (recv_payload hw data (Z.of_nat 0)).
  rewrite E1. cbn [mbind outcome_bind].
  exists (ds0 ++ ds1). eexists. eexists.
  exists ([MmioWrite SPI_CSCTRL (select_value cs)] ++ t0 ++ t1 ++
          [MmioWrite SPI_CSCTRL 0]).
  split; [reflexivity|]. split.
  { cbn [g233_spi_cs_deassert write_csctrl trace]. rewrite Ht1, Ht0.
    cbn [g233_spi_cs_assert write_csctrl trace]. rewrite <- !app_assoc.
    reflexivity. }
  split; [rewrite length_app; lia|].
  split.
  { rewrite !wire_app, Hw0, Hw1. unfold frame.
    change (W25X_READ_DATA :: Interrupt.addr_bytes addr ++ replicate (Z.to_nat len) 0)
      with ((to_u32 W25X_READ_DATA :: Interrupt.addr_bytes addr) ++
            replicate (Z.to_nat len) 0).
    rewrite exchange_app by (rewrite Hl0; reflexivity).
    rewrite <- app_assoc. reflexivity. }
  split; [|reflexivity].
  rewrite take_0. cbn [app Nat.add].
  rewrite drop_app_length' by (symmetry; exact Hl0). reflexivity.
Qed.

Lemma polled_read_data_frame_witness :
  exists (ds data' : list Z) (m' : machine) (t : list event),
    flash_read_data (bus_const 0x1A3) 1 0x010203 [7; 8; 9] 2 (mk_machine 0 0 [])
      = Ret (data', m') /\
    trace m' = trace (mk_machine 0 0 []) ++ t /\
    length ds = (4 + Z.to_nat 2)%nat /\
    wire t = frame (select_value 1)
               (W25X_READ_DATA :: Interrupt.addr_bytes 0x010203 ++
                replicate (Z.to_nat 2) 0) ds /\
    data' = map MoreNotions.low_byte (drop 4 ds) ++ drop (Z.to_nat 2) [7; 8; 9] /\
    csctrl m' = 0.
Proof.
  apply (polled_read_data_frame (bus_const 0x1A3) 1 0x010203 [7; 8; 9] 2
           (mk_machine 0 0 [])).
  - unfold INT_MAX. lia.
  - cbn. lia.
Defined.


Lemma write_enable_wire (hw : bus) (cs : Z) (m : machine) :
  exists d m' t,
    flash_write_enable hw cs m = Ret m' /\
    trace m' = trace m ++ t /\
    wire t = frame (select_value cs) [W25X_WRITE_ENABLE] [d] /\
    csctrl m' = 0.
Proof.
  unfold flash_write_enable.
  next_transfer d0 m0 t0 E0 Ht0 Hw0 Hcs0.
  exists d0. eexists.
  exists ([MmioWrite SPI_CSCTRL (select_value cs)] ++ t0 ++ [MmioWrite SPI_CSCTRL 0]).
  split; [reflexivity|]. split.
  { cbn [g233_spi_cs_deassert write_csctrl trace]. rewrite Ht0.
    cbn [g233_spi_cs_assert write_csctrl trace]. rewrite <- !app_assoc.
    reflexivity. }
  split; [|reflexivity].
  rewrite !wire_app, Hw0. reflexivity.
Qed.

Lemma last_of_wire (t : list event) : wire t <> [] -> exists e, last t = Some e.
Proof.
  intros H. destruct (last t) as [e|] eqn:El; [eauto|].
  apply last_None in El. subst t. contradiction.
Qed.

Lemma last_app_some (t1 t2 : list event) (e : event) :
  last t2 = Some e -> last (t1 ++ t2) = Some e.
Proof. intros H. rewrite last_app, H. reflexivity. Qed.

Lemma map_to_u32_bytes (l : list Z) :
  Forall (fun b => 0 <= b < 256) l -> map to_u32 l = l.
Proof.
  induction 1 as [|b l Hb _ IH]; [reflexivity|].
  cbn [map]. rewrite IH. unfold to_u32. rewrite Z.mod_small by lia. reflexivity.
Qed.

(** The part shared by erase and program: after the command frame comes
    the busy wait, and then the completion line, in any case. *)
Lemma wait_then_report (hw : bus) (cs : Z) (line : string) (m : machine) :
  exists (dss : list (Z * Z)) (m' : machine) (t : list event),
    (m1 ← flash_wait_busy hw cs m; Ret (printf line [cs] m1)) = Ret m' /\
    trace m' = trace m ++ t ++ [Print line [cs]] /\
    wire t = status_frames (select_value cs) dss /\
    csctrl m' = 0 /\
    1 <= Z.of_nat (length dss) <= 10001 /\
    (forall t0, last (t0 ++ t) = Some (Print "Warning: Flash %d busy timeout" [cs]) <->
                Z.of_nat (length dss) = 10001).
Proof.
  destruct (wait_busy_loop_frames hw cs (Z.to_nat busy_retries) 0 m)
    as (dss & m1 & t & E & Ht & Hw & Hcs & Hlen & Hle & Hwarn & _);
    [lia | unfold busy_retries; lia |].
  unfold flash_wait_busy. rewrite E. cbn [mbind outcome_bind].
  exists dss. eexists. exists t. split; [reflexivity|].
  cbn [printf trace csctrl]. split; [rewrite Ht, <- app_assoc; reflexivity|].
  split; [exact Hw|]. split; [exact Hcs|]. split; [lia|].
  intros t0.
  destruct (last_of_wire t) as [e He].
  { rewrite Hw. apply status_frames_nonempty. exact Hlen. }
  rewrite (last_app_some _ _ _ He), <- He, Hwarn. lia.
Qed.

(** X12: [flash_sector_erase] of the polled program always returns.  On
    the wire it makes a write-enable frame (0x06), a frame with 0x20 and the
    three address bytes, most significant first, and then between 1 and
    10001 status frames, all on the selected line, and it leaves no line
    selected.  Its last event is the completion line in every case, also
    directly after the busy-timeout warning. *)
Theorem polled_sector_erase_frames (hw : bus) (cs addr : Z) (m : machine) :
  exists (d : Z) (ds : list Z) (dss : list (Z * Z)) (m' : machine)
         (t : list event),
    flash_sector_erase hw cs addr m = Ret m' /\
    trace m' = trace m ++ t ++ [Print "Sector erase completed on Flash %d" [cs]] /\
    wire t =
      frame (select_value cs) [W25X_WRITE_ENABLE] [d] ++
      frame (select_value cs) (W25X_SECTOR_ERASE :: Interrupt.addr_bytes addr) ds ++
      status_frames (select_value cs) dss /\
    length ds = 4%nat /\
    1 <= Z.of_nat (length dss) <= 10001 /\
    csctrl m' = 0 /\
    (last t = Some (Print "Warning: Flash %d busy timeout" [cs]) <->
     Z.of_nat (length dss) = 10001).
Proof.
  unfold flash_sector_erase. cbv zeta.
  destruct (write_enable_wire hw cs
              (printf "Erasing sector at address 0x%06X on Flash %d..." [addr; cs] m))
    as (d & m0 & t0 & E0 & Ht0 & Hw0 & _).
  rewrite E0. cbn [mbind outcome_bind].
  destruct (send_command_wire hw W25X_SECTOR_ERASE addr (g233_spi_cs_assert cs m0))
    as (ds & m1 & t1 & E1 & Ht1 & Hl1 & Hw1 & _).
  rewrite E1. cbn [mbind outcome_bind].
  destruct (wait_then_report hw cs "Sector erase completed on Flash %d"
              (g233_spi_cs_deassert m1))
    as (dss & m2 & t2 & E2 & Ht2 & Hw2 & Hcs2 & Hlen & Hwarn).
  exists d, ds, dss, m2.
  exists ([Print "Erasing sector at address 0x%06X on Flash %d..." [addr; cs]] ++
          t0 ++ [MmioWrite SPI_CSCTRL (select_value cs)] ++ t1 ++
          [MmioWrite SPI_CSCTRL 0] ++ t2).
  split; [exact E2|]. split.
  { rewrite Ht2. cbn [g233_spi_cs_deassert write_csctrl trace]. rewrite Ht1.
    cbn [g233_spi_cs_assert write_csctrl trace]. rewrite Ht0.
    cbn [printf trace]. rewrite <- !app_assoc. reflexivity. }
  split.
  { rewrite !wire_app, Hw0, Hw1, Hw2. cbn [wire List.filter is_bus_event app].
    f_equal. unfold frame. cbn [app]. rewrite <- app_assoc. reflexivity. }
  split; [exact Hl1|]. split; [exact Hlen|]. split; [exact Hcs2|].
  rewrite !app_assoc. apply Hwarn.
Qed.

(** X13: [flash_page_program] of the polled program, for [0 <= len] bytes
    held by the caller's buffer, always returns.  On the wire it makes a
    write-enable frame (0x06), one frame with 0x02, the three address bytes
    and the first [len] bytes of the data, in order, and then between 1 and
    10001 status frames, all on the selected line; it leaves no line
    selected and ends with the completion line in every case. *)
Theorem polled_page_program_frames (hw : bus) (cs addr : Z) (data : list Z)
    (len : Z) (m : machine) :
  0 <= len <= INT_MAX -> len <= Z.of_nat (length data) ->
  Forall (fun b => 0 <= b < 256) data ->
  exists (d : Z) (ds : list Z) (dss : list (Z * Z)) (m' : machine)
         (t : list event),
    flash_page_program hw cs addr data len m = Ret m' /\
    trace m' = trace m ++ t ++ [Print "Page program completed on Flash %d" [cs]] /\
    wire t =
      frame (select_value cs) [W25X_WRITE_ENABLE] [d] ++
      frame (select_value cs)
        (W25X_PAGE_PROGRAM :: Interrupt.addr_bytes addr ++
         take (Z.to_nat len) data) ds ++
      status_frames (select_value cs) dss /\
    length ds = (4 + Z.to_nat len)%nat /\
    1 <= Z.of_nat (length dss) <= 10001 /\
    csctrl m' = 0 /\
    (last t = Some (Print "Warning: Flash %d busy timeout" [cs]) <->
     Z.of_nat (length dss) = 10001).
Proof.
  intros Hlen Hfit Hbytes. unfold flash_page_program. cbv zeta.
  destruct (write_enable_wire hw cs
              (printf
                 "Programming page at address 0x%06X on Flash %d, length %d bytes..."
                 [addr; cs; len] m))
    as (d & m0 & t0 & E0 & Ht0 & Hw0 & _).
  rewrite E0. cbn [mbind outcome_bind].
  destruct (send_command_wire hw W25X_PAGE_PROGRAM addr (g233_spi_cs_assert cs m0))
    as (ds1 & m1 & t1 & E1 & Ht1 & Hl1 & Hw1 & _).
  rewrite E1. cbn [mbind outcome_bind].
  destruct (send_payload_wire hw data (Z.to_nat len) 0 m1)
    as (ds2 & m2 & t2 & E2 & Ht2 & Hl2 & Hw2 & _); [lia | lia |].
  change (send_payload hw data 0) with (send_payload hw data (Z.of_nat 0)).
  rewrite E2. cbn [mbind outcome_bind].
  destruct (wait_then_report hw cs "Page program completed on Flash %d"
              (g233_spi_cs_deassert m2))
    as (dss & m3 & t3 & E3 & Ht3 & Hw3 & Hcs3 & Hlen3 & Hwarn).
  exists d, (ds1 ++ ds2), dss, m3.
  exists ([Print "Programming page at address 0x%06X on Flash %d, length %d bytes..."
             [addr; cs; len]] ++
          t0 ++ [MmioWrite SPI_CSCTRL (select_value cs)] ++ t1 ++ t2 ++
          [MmioWrite SPI_CSCTRL 0] ++ t3).
  split; [exact E3|]. split.
  { rewrite Ht3. cbn [g233_spi_cs_deassert write_csctrl trace]. rewrite Ht2, Ht1.
    cbn [g233_spi_cs_assert write_csctrl trace]. rewrite Ht0.
    cbn [printf trace]. rewrite <- !app_assoc. reflexivity. }
  split.
  { rewrite !wire_app, Hw0, Hw1, Hw2, Hw3. cbn [wire List.filter is_bus_event app].
    rewrite drop_0, map_to_u32_bytes by (apply Forall_take; exact Hbytes).
    unfold frame.
    change (W25X_PAGE_PROGRAM :: Interrupt.addr_bytes addr ++ take (Z.to_nat len) data)
      with ((to_u32 W25X_PAGE_PROGRAM :: Interrupt.addr_bytes addr) ++
            take (Z.to_nat len) data).
    rewrite exchange_app by (rewrite Hl1; reflexivity).
    f_equal. cbn [app]. rewrite <- !app_assoc. reflexivity. }
  split; [rewrite length_app; lia|]. split; [exact Hlen3|]. split; [exact Hcs3|].
  rewrite !app_assoc. apply Hwarn.
Qed.

Lemma polled_page_program_frames_witness :
  exists (d : Z) (ds : list Z) (dss : list (Z * Z)) (m' : machine)
         (t : list event),
    flash_page_program (bus_const 0x02) 0 0x010203 [0xAA; 0x55; 0x33] 2
      (mk_machine 0 0 []) = Ret m' /\
    trace m' = trace (mk_machine 0 0 []) ++ t ++
               [Print "Page program completed on Flash %d" [0]] /\
    wire t =
      frame (select_value 0) [W25X_WRITE_ENABLE] [d] ++
      frame (select_value 0)
        (W25X_PAGE_PROGRAM :: Interrupt.addr_bytes 0x010203 ++
         take (Z.to_nat 2) [0xAA; 0x55; 0x33]) ds ++
      status_frames (select_value 0) dss /\
    length ds = (4 + Z.to_nat 2)%nat /\
    1 <= Z.of_nat (length dss) <= 10001 /\
    csctrl m' = 0 /\
    (last t = Some (Print "Warning: Flash %d busy timeout" [0]) <->
     Z.of_nat (length dss) = 10001).
Proof.
  apply (polled_page_program_frames (bus_const 0x02) 0 0x010203 [0xAA; 0x55; 0x33] 2
           (mk_machine 0 0 [])).
  - unfold INT_MAX. lia.
  - cbn. lia.
  - repeat constructor; lia.
Defined.


(** ** Device isolation *)

Lemma sel_scan_app (sel : Z) (t1 t2 : list event) :
  forall a, sel_scan sel a (t1 ++ t2) =
            match sel_scan sel a t1 with
            | Some b => sel_scan sel b t2
            | None => None
            end.
Proof.
  induction t1 as [|e t1 IH]; intros a; [reflexivity|].
  destruct e as [r v|r v|fmt args]; try destruct r; cbn;
    repeat (destruct (_ || _) || destruct (negb _)); try apply IH; reflexivity.
Qed.

Lemma sel_scan_wire (sel : Z) (t : list event) :
  forall a, sel_scan sel a t = sel_scan sel a (wire t).
Proof.
  induction t as [|e t IH]; intros a; [reflexivity|].
  destruct e as [r v|r v|fmt args]; try destruct r; cbn;
    repeat (destruct (_ || _) || destruct (negb _)); try apply IH; reflexivity.
Qed.

Lemma sel_from_refl (sel : Z) (m : machine) : sel_from sel (csctrl m) m m.
Proof. exists []. rewrite app_nil_r. repeat split. Qed.

Lemma sel_from_printf (sel b : Z) (fmt : string) (args : list Z) (m m1 : machine) :
  sel_from sel b m m1 -> sel_from sel b m (printf fmt args m1).
Proof.
  intros (t & Ht & Hs & Hc). exists (t ++ [Print fmt args]).
  cbn [printf trace csctrl]. split; [rewrite Ht, <- app_assoc; reflexivity|].
  split; [|exact Hc]. rewrite sel_scan_app, Hs. reflexivity.
Qed.

Lemma sel_from_assert (cs b : Z) (m m1 : machine) :
  sel_from (select_value cs) b m m1 ->
  sel_from (select_value cs) (select_value cs) m (g233_spi_cs_assert cs m1).
Proof.
  intros (t & Ht & Hs & Hc). exists (t ++ [MmioWrite SPI_CSCTRL (select_value cs)]).
  split.
  { cbn [g233_spi_cs_assert write_csctrl trace]. rewrite Ht, <- app_assoc.
    reflexivity. }
  split; [|reflexivity].
  rewrite sel_scan_app, Hs. cbn. rewrite Z.eqb_refl. reflexivity.
Qed.

Lemma sel_from_deassert (sel b : Z) (m m1 : machine) :
  sel_from sel b m m1 -> sel_from sel 0 m (g233_spi_cs_deassert m1).
Proof.
  intros (t & Ht & Hs & Hc). exists (t ++ [MmioWrite SPI_CSCTRL 0]).
  split.
  { cbn [g233_spi_cs_deassert write_csctrl trace]. rewrite Ht, <- app_assoc.
    reflexivity. }
  split; [|reflexivity].
  rewrite sel_scan_app, Hs. cbn. rewrite orb_true_r. reflexivity.
Qed.

Lemma sel_from_transfer (hw : bus) (sel x r : Z) (m m0 m1 : machine) :
  sel_from sel sel m m0 ->
  g233_spi_transfer hw x m0 = Ret (r, m1) ->
  sel_from sel sel m m1.
Proof.
  intros (t & Ht & Hs & Hc) H.
  destruct (transfer_wire hw x m0) as (d & m1' & t1 & E & Ht1 & Hw1 & _ & Hcs1).
  rewrite H in E. injection E as _ <-.
  exists (t ++ t1). split; [rewrite Ht1, Ht, <- app_assoc; reflexivity|].
  split; [|congruence].
  rewrite sel_scan_app, Hs, sel_scan_wire, Hw1. cbn.
  rewrite Z.eqb_refl. reflexivity.
Qed.

Ltac bind_transfer H r m E :=
  match type of H with
  | context [g233_spi_transfer ?hw ?x ?m0] =>
      destruct (g233_spi_transfer hw x m0) as [[r m]| |] eqn:E;
      cbn [mbind outcome_bind] in H; try discriminate
  end.

Lemma read_status_sel (hw : bus) (cs b status : Z) (m m0 m1 : machine) :
  sel_from (select_value cs) b m m0 ->
  flash_read_status hw cs m0 = Ret (status, m1) ->
  sel_from (select_value cs) 0 m m1.
Proof.
  intros H0 H. unfold flash_read_status in H. cbv zeta in H.
  apply sel_from_assert in H0.
  bind_transfer H r1 m2 E1. apply (sel_from_transfer _ _ _ _ _ _ _ H0) in E1.
  bind_transfer H r2 m3 E2. apply (sel_from_transfer _ _ _ _ _ _ _ E1) in E2.
  injection H as _ <-. exact (sel_from_deassert _ _ _ _ E2).
Qed.

Lemma write_enable_sel (hw : bus) (cs b : Z) (m m0 m1 : machine) :
  sel_from (select_value cs) b m m0 ->
  flash_write_enable hw cs m0 = Ret m1 ->
  sel_from (select_value cs) 0 m m1.
Proof.
  intros H0 H. unfold flash_write_enable in H. cbv zeta in H.
  apply sel_from_assert in H0.
  bind_transfer H r1 m2 E1. apply (sel_from_transfer _ _ _ _ _ _ _ H0) in E1.
  injection H as <-. exact (sel_from_deassert _ _ _ _ E1).
Qed.

Lemma read_id_sel (hw : bus) (cs b id : Z) (m m0 m1 : machine) :
  sel_from (select_value cs) b m m0 ->
  flash_read_id hw cs m0 = Ret (id, m1) ->
  sel_from (select_value cs) 0 m m1.
Proof.
  intros H0 H. unfold flash_read_id in H. cbv zeta in H.
  apply sel_from_assert in H0.
  bind_transfer H r1 m2 E1. apply (sel_from_transfer _ _ _ _ _ _ _ H0) in E1.
  bind_transfer H r2 m3 E2. apply (sel_from_transfer _ _ _ _ _ _ _ E1) in E2.
  bind_transfer H r3 m4 E3. apply (sel_from_transfer _ _ _ _ _ _ _ E2) in E3.
  bind_transfer H r4 m5 E4. apply (sel_from_transfer _ _ _ _ _ _ _ E3) in E4.
  injection H as _ <-. exact (sel_from_deassert _ _ _ _ E4).
Qed.

Lemma send_command_sel (hw : bus) (sel cmd addr : Z) (m m0 m1 : machine) :
  sel_from sel sel m m0 ->
  send_command hw cmd addr m0 = Ret m1 ->
  sel_from sel sel m m1.
Proof.
  intros H0 H. unfold send_command in H. cbv zeta in H.
  bind_transfer H r1 m2 E1. apply (sel_from_transfer _ _ _ _ _ _ _ H0) in E1.
  bind_transfer H r2 m3 E2. apply (sel_from_transfer _ _ _ _ _ _ _ E1) in E2.
  bind_transfer H r3 m4 E3. apply (sel_from_transfer _ _ _ _ _ _ _ E2) in E3.
  bind_transfer H r4 m5 E4. apply (sel_from_transfer _ _ _ _ _ _ _ E3) in E4.
  injection H as <-. exact E4.
Qed.

Lemma wait_busy_loop_sel (hw : bus) (cs : Z) (fuel : nat) :
  forall (b retry_count : Z) (m m0 m1 : machine),
  sel_from (select_value cs) b m m0 ->
  wait_busy_loop hw cs fuel retry_count m0 = Ret m1 ->
  sel_from (select_value cs) 0 m m1.
Proof.
  induction fuel as [|fuel IH]; intros b rc m m0 m1 H0 H;
    cbn [wait_busy_loop] in H;
    destruct (flash_read_status hw cs m0) as [[status m2]| |] eqn:E;
    cbn [mbind outcome_bind] in H; try discriminate;
    apply (read_status_sel _ _ _ _ _ _ _ H0) in E;
    destruct (busy_retries <? _).
  - injection H as <-. apply sel_from_printf. exact E.
  - destruct (c_true _); [discriminate|]. injection H as <-. exact E.
  - injection H as <-. apply sel_from_printf. exact E.
  - destruct (c_true _).
    + exact (IH _ _ _ _ _ E H).
    + injection H as <-. exact E.
Qed.

Lemma send_payload_sel (hw : bus) (sel : Z) (data : list Z) (n : nat) :
  forall (i : Z) (m m0 m1 : machine),
  sel_from sel sel m m0 ->
  send_payload hw data i n m0 = Ret m1 ->
  sel_from sel sel m m1.
Proof.
  induction n as [|n IH]; intros i m m0 m1 H0 H; cbn [send_payload] in H.
  - injection H as <-. exact H0.
  - destruct (buf_load data i) as [b| |]; cbn [mbind outcome_bind] in H;
      try discriminate.
    bind_transfer H r m2 E. apply (sel_from_transfer _ _ _ _ _ _ _ H0) in E.
    exact (IH _ _ _ _ E H).
Qed.

Lemma recv_payload_sel (hw : bus) (sel : Z) (n : nat) :
  forall (data data' : list Z) (i : Z) (m m0 m1 : machine),
  sel_from sel sel m m0 ->
  recv_payload hw data i n m0 = Ret (data', m1) ->
  sel_from sel sel m m1.
Proof.
  induction n as [|n IH]; intros data data' i m m0 m1 H0 H; cbn [recv_payload] in H.
  - injection H as _ <-. exact H0.
  - bind_transfer H r m2 E. apply (sel_from_transfer _ _ _ _ _ _ _ H0) in E.
    destruct (buf_store data i r) as [d| |]; cbn [mbind outcome_bind] in H;
      try discriminate.
    exact (IH _ _ _ _ _ _ E H).
Qed.

(** X14: device isolation in the polled program.  Whatever the bus answers
    and whatever the chip-select register held before, a flash command on
    line [cs] that returns (read status, write enable, wait busy, read id,
    sector erase, page program, read data) writes to the chip-select
    register only the select value of [cs] or 0, accesses the data register
    only while that register holds the select value of [cs], and leaves 0 in
    it.  The select value is 0x11 for line 0 and 0x22 for line 1; for any
    other [cs] it is 0, so the command is clocked out with no line
    selected. *)
Theorem polled_commands_keep_to_their_line (hw : bus) (cs : Z) (c : flash_command)
    (m m' : machine) :
  run_command hw cs c m = Ret m' ->
  (exists t, trace m' = trace m ++ t /\
             sel_scan (select_value cs) (csctrl m) t = Some 0 /\
             csctrl m' = 0) /\
  select_value cs = (if cs =? 0 then 0x11 else if cs =? 1 then 0x22 else 0).
Proof.
  intros H. split; [|apply DualCSFacts.csctrl_after_assert].
  pose proof (sel_from_refl (select_value cs) m) as H0.
  destruct c; cbn [run_command] in H.
  - destruct (flash_read_status hw cs m) as [[x m1]| |] eqn:E;
      cbn [mbind outcome_bind] in H; try discriminate.
    injection H as <-. exact (read_status_sel _ _ _ _ _ _ _ H0 E).
  - exact (write_enable_sel _ _ _ _ _ _ H0 H).
  - exact (wait_busy_loop_sel _ _ _ _ _ _ _ _ H0 H).
  - destruct (flash_read_id hw cs m) as [[x m1]| |] eqn:E;
      cbn [mbind outcome_bind] in H; try discriminate.
    injection H as <-. exact (read_id_sel _ _ _ _ _ _ _ H0 E).
  - unfold flash_sector_erase in H. cbv zeta in H.
    apply (sel_from_printf _ _ "Erasing sector at address 0x%06X on Flash %d..."
             [addr; cs]) in H0.
    destruct (flash_write_enable hw cs _) as [m1| |] eqn:E1;
      cbn [mbind outcome_bind] in H; try discriminate.
    apply (write_enable_sel _ _ _ _ _ _ H0) in E1. apply sel_from_assert in E1.
    destruct (send_command hw _ addr _) as [m2| |] eqn:E2;
      cbn [mbind outcome_bind] in H; try discriminate.
    apply (send_command_sel _ _ _ _ _ _ _ E1) in E2.
    apply sel_from_deassert in E2.
    destruct (flash_wait_busy hw cs _) as [m3| |] eqn:E3;
      cbn [mbind outcome_bind] in H; try discriminate.
    apply (wait_busy_loop_sel _ _ _ _ _ _ _ _ E2) in E3.
    injection H as <-. apply sel_from_printf. exact E3.
  - unfold flash_page_program in H. cbv zeta in H.
    apply (sel_from_printf _ _
             "Programming page at address 0x%06X on Flash %d, length %d bytes..."
             [addr; cs; len]) in H0.
    destruct (flash_write_enable hw cs _) as [m1| |] eqn:E1;
      cbn [mbind outcome_bind] in H; try discriminate.
    apply (write_enable_sel _ _ _ _ _ _ H0) in E1. apply sel_from_assert in E1.
    destruct (send_command hw _ addr _) as [m2| |] eqn:E2;
      cbn [mbind outcome_bind] in H; try discriminate.
    apply (send_command_sel _ _ _ _ _ _ _ E1) in E2.
    destruct (send_payload hw data 0 _ _) as [m3| |] eqn:E3;
      cbn [mbind outcome_bind] in H; try discriminate.
    apply (send_payload_sel _ _ _ _ _ _ _ _ E2) in E3.
    apply sel_from_deassert in E3.
    destruct (flash_wait_busy hw cs _) as [m4| |] eqn:E4;
      cbn [mbind outcome_bind] in H; try discriminate.
    apply (wait_busy_loop_sel _ _ _ _ _ _ _ _ E3) in E4.
    injection H as <-. apply sel_from_printf. exact E4.
  - destruct (flash_read_data hw cs addr data len m) as [[x m1]| |] eqn:E;
      cbn [mbind outcome_bind] in H; try discriminate.
    injection H as <-.
    unfold flash_read_data in E. cbv zeta in E.
    apply sel_from_assert in H0.
    destruct (send_command hw _ addr _) as [m2| |] eqn:E2;
      cbn [mbind outcome_bind] in E; try discriminate.
    apply (send_command_sel _ _ _ _ _ _ _ H0) in E2.
    destruct (recv_payload hw data 0 _ _) as [[d m3]| |] eqn:E3;
      cbn [mbind outcome_bind] in E; try discriminate.
    apply (recv_payload_sel _ _ _ _ _ _ _ _ _ E2) in E3.
    injection E as _ <-. exact (sel_from_deassert _ _ _ _ E3).
Qed.

Lemma polled_commands_keep_to_their_line_witness :
  exists m',
    run_command (bus_const 3) 1 ReadId (mk_machine 0x11 0 []) = Ret m' /\
    (exists t, trace m' = trace (mk_machine 0x11 0 []) ++ t /\
               sel_scan (select_value 1) (csctrl (mk_machine 0x11 0 [])) t = Some 0 /\
               csctrl m' = 0) /\
    select_value 1 = (if 1 =? 0 then 0x11 else if 1 =? 1 then 0x22 else 0).
Proof.
  assert (exists m', run_command (bus_const 3) 1 ReadId (mk_machine 0x11 0 []) = Ret m')
    as [m' E] by (vm_compute; eexists; reflexivity).
  exists m'. split; [exact E|].
  exact (polled_commands_keep_to_their_line (bus_const 3) 1 ReadId
           (mk_machine 0x11 0 []) m' E).
Defined.

End DualCSMore.

(** * Properties of the nibble functions *)

Module NibbleFacts.
Import Nibbles NibbleNotions.

#[local] Arguments Z.land : simpl never.
#[local] Arguments Z.lor : simpl never.
#[local] Arguments Z.shiftl : simpl never.
#[local] Arguments Z.shiftr : simpl never.
#[local] Arguments to_u8 : simpl never.
#[local] Arguments to_size : simpl never.

Lemma to_size_id (z : Z) : 0 <= z < 2 ^ 64 -> to_size z = z.
Proof. intros H. unfold to_size. apply Z.mod_small. exact H. Qed.

Lemma buf_load_middle (pre post : list Z) (a : Z) :
  buf_load (pre ++ a :: post) (Z.of_nat (length pre)) = Ret a.
Proof.
  unfold buf_load. destruct (Z.leb_spec 0 (Z.of_nat (length pre))); [|lia].
  rewrite Nat2Z.id, list_lookup_middle by reflexivity. reflexivity.
Qed.

Lemma buf_store_nat (b : list Z) (i : nat) (v : Z) :
  (i < length b)%nat -> buf_store b (Z.of_nat i) v = Ret (<[i := v]> b).
Proof.
  intros H. rewrite InterruptFacts.buf_store_ok by lia.
  rewrite Nat2Z.id. reflexivity.
Qed.

(** ** [pack_low4bits] *)

Lemma pack_short (fuel : nat) (src pre rest post dst : list Z) (j : nat) :
  src = pre ++ rest ++ post -> (length rest <= 1)%nat ->
  (j + length (pack_pairs rest) <= length dst)%nat ->
  Z.of_nat (length src) < 2 ^ 63 -> Z.of_nat (length dst) < 2 ^ 63 ->
  ('(dst', i, j') ← pack_loop fuel src (Z.of_nat (length pre + length rest)) dst
                     (Z.of_nat (length pre)) (Z.of_nat j);
   pack_tail src (Z.of_nat (length pre + length rest)) dst' i j') =
  Ret (take j dst ++ pack_pairs rest ++ drop (j + length (pack_pairs rest)) dst,
       Z.of_nat (j + length (pack_pairs rest))).
Proof.
  intros Hsrc Hshort Hfit Hs Hd.
  assert (pack_loop fuel src (Z.of_nat (length pre + length rest)) dst
            (Z.of_nat (length pre)) (Z.of_nat j)
          = Ret (dst, Z.of_nat (length pre), Z.of_nat j)) as ->.
  { assert ((to_size (Z.of_nat (length pre) + 1)
             <? Z.of_nat (length pre + length rest)) = false) as Hc.
    { rewrite to_size_id by (rewrite Hsrc, length_app in Hs; lia).
      apply Z.ltb_ge. lia. }
    destruct fuel; cbn [pack_loop]; rewrite Hc; reflexivity. }
  cbn [mbind outcome_bind]. unfold pack_tail.
  destruct rest as [|a [|b r]]; cbn [length] in Hshort; [| |lia].
  - rewrite (proj2 (Z.ltb_ge _ _)) by (cbn [length]; lia).
    cbn [pack_pairs length app]. rewrite Nat.add_0_r, take_drop. reflexivity.
  - rewrite (proj2 (Z.ltb_lt _ _)) by (cbn [length]; lia).
    rewrite Hsrc. cbn [app]. rewrite buf_load_middle. cbn [mbind outcome_bind].
    cbn [pack_pairs length] in Hfit |- *.
    rewrite buf_store_nat by lia. cbn [mbind outcome_bind].
    rewrite to_size_id by lia.
    rewrite insert_take_drop by lia. cbn [app].
    replace (j + 1)%nat with (S j) by lia.
    replace (Z.of_nat j + 1) with (Z.of_nat (S j)) by lia. reflexivity.
Qed.

Lemma pack_rest_spec (src post : list Z) (fuel : nat) :
  forall (rest pre dst : list Z) (j : nat),
  src = pre ++ rest ++ post -> (length rest <= 2 * fuel + 1)%nat ->
  (j + length (pack_pairs rest) <= length dst)%nat ->
  Z.of_nat (length src) < 2 ^ 63 -> Z.of_nat (length dst) < 2 ^ 63 ->
  ('(dst', i, j') ← pack_loop fuel src (Z.of_nat (length pre + length rest)) dst
                     (Z.of_nat (length pre)) (Z.of_nat j);
   pack_tail src (Z.of_nat (length pre + length rest)) dst' i j') =
  Ret (take j dst ++ pack_pairs rest ++ drop (j + length (pack_pairs rest)) dst,
       Z.of_nat (j + length (pack_pairs rest))).
Proof.
  induction fuel as [|fuel IH]; intros rest pre dst j Hsrc Hlen Hfit Hs Hd.
  - apply pack_short with (post := post); try assumption; lia.
  - destruct rest as [|a [|b r]];
      [apply pack_short with (post := post); try assumption; cbn; lia ..|].
    cbn [pack_loop].
    assert (Z.of_nat (length pre) + 2 <= Z.of_nat (length src)) as Hin.
    { rewrite Hsrc, !length_app. cbn [length]. lia. }
    rewrite !to_size_id by lia.
    rewrite (proj2 (Z.ltb_lt _ _)) by (cbn [length]; lia).
    assert (buf_load src (Z.of_nat (length pre)) = Ret a) as ->.
    { rewrite Hsrc. cbn [app]. apply buf_load_middle. }
    cbn [mbind outcome_bind].
    assert (buf_load src (Z.of_nat (length pre) + 1) = Ret b) as ->.
    { replace (Z.of_nat (length pre) + 1) with (Z.of_nat (length (pre ++ [a])))
        by (rewrite length_app; cbn [length]; lia).
      rewrite Hsrc. cbn [app].
      replace (pre ++ a :: b :: r ++ post) with ((pre ++ [a]) ++ b :: r ++ post)
        by (rewrite <- app_assoc; reflexivity).
      apply buf_load_middle. }
    cbn [mbind outcome_bind].
    cbn [pack_pairs length] in Hfit |- *.
    rewrite buf_store_nat by lia. cbn [mbind outcome_bind].
    replace (Z.of_nat (length pre) + 2) with (Z.of_nat (length (pre ++ [a; b])))
      by (rewrite length_app; cbn [length]; lia).
    replace (Z.of_nat j + 1) with (Z.of_nat (S j)) by lia.
    replace (Z.of_nat (length pre + S (S (length r))))
      with (Z.of_nat (length (pre ++ [a; b]) + length r))
      by (rewrite length_app; cbn [length]; lia).
    rewrite IH.
    + rewrite (take_S_r _ _ (to_u8 (Z.lor (Z.land a 15) (Z.shiftl (Z.land b 15) 4))))
        by (apply list_lookup_insert_eq; lia).
      rewrite take_insert_ge by lia. rewrite drop_insert_lt by lia.
      rewrite <- app_assoc. cbn [app].
      replace (S j + length (pack_pairs r))%nat
        with (j + S (length (pack_pairs r)))%nat by lia.
      reflexivity.
    + rewrite Hsrc, <- app_assoc. reflexivity.
    + cbn [length] in Hlen. lia.
    + rewrite length_insert. lia.
    + exact Hs.
    + rewrite length_insert. exact Hd.
Qed.

Lemma pack_pairs_length (l : list Z) :
  forall n, (length l <= n)%nat ->
  Z.of_nat (length (pack_pairs l)) = (Z.of_nat (length l) + 1) / 2.
Proof.
  intros n. revert l. induction n as [|n IH]; intros l Hl.
  - destruct l; [reflexivity | cbn in Hl; lia].
  - destruct l as [|a [|b r]]; [reflexivity | reflexivity |].
    cbn [pack_pairs length]. cbn [length] in Hl.
    rewrite Nat2Z.inj_succ, IH by lia.
    replace (Z.of_nat (S (S (length r))) + 1) with (Z.of_nat (length r) + 1 + 1 * 2)
      by lia.
    rewrite Z.div_add by lia. lia.
Qed.

(** [pack_low4bits] on the first [n] elements of [src]. *)
Lemma pack_spec (src dst : list Z) (n : nat) :
  (n <= length src)%nat ->
  (Z.of_nat n + 1) / 2 <= Z.of_nat (length dst) ->
  Z.of_nat (length src) < 2 ^ 63 -> Z.of_nat (length dst) < 2 ^ 63 ->
  pack_low4bits src (Z.of_nat n) dst =
  Ret (pack_pairs (take n src) ++ drop (length (pack_pairs (take n src))) dst,
       (Z.of_nat n + 1) / 2).
Proof.
  intros Hn Hfit Hs Hd. unfold pack_low4bits.
  pose proof (pack_pairs_length (take n src) n) as Hlen.
  rewrite length_take in Hlen. rewrite Nat.min_l in Hlen by lia.
  specialize (Hlen (Nat.le_refl _)).
  pose proof (pack_rest_spec src (drop n src) (Z.to_nat (Z.of_nat n))
                (take n src) [] dst 0) as H.
  cbn [length app Nat.add] in H. rewrite length_take, Nat.min_l in H by lia.
  change (pack_loop ?f ?s ?k ?d 0 0)
    with (pack_loop f s k d (Z.of_nat 0) (Z.of_nat 0)).
  rewrite H.
  - rewrite take_0, Hlen. reflexivity.
  - rewrite take_drop. reflexivity.
  - lia.
  - lia.
  - exact Hs.
  - exact Hd.
Qed.

(** ** [split_to_4bits] *)

Lemma split_rest_spec (src post : list Z) :
  forall (rest pre dst : list Z) (fuel j : nat),
  src = pre ++ rest ++ post -> (length rest <= fuel)%nat ->
  (j + 2 * length rest <= length dst)%nat ->
  Z.of_nat (length src) < 2 ^ 63 -> Z.of_nat (length dst) < 2 ^ 63 ->
  split_loop fuel src (Z.of_nat (length pre + length rest)) dst
    (Z.of_nat (length pre)) (Z.of_nat j) =
  Ret (take j dst ++ nibbles rest ++ drop (j + 2 * length rest) dst,
       Z.of_nat (j + 2 * length rest)).
Proof.
  induction rest as [|a rest IH]; intros pre dst fuel j Hsrc Hfuel Hfit Hs Hd.
  - assert ((Z.of_nat (length pre) <? Z.of_nat (length pre + length (@nil Z)))
            = false) as Hc by (apply Z.ltb_ge; cbn [length]; lia).
    destruct fuel; cbn [split_loop]; rewrite Hc; cbn [nibbles length app];
      rewrite Nat.mul_0_r, Nat.add_0_r, take_drop; reflexivity.
  - destruct fuel as [|fuel]; [cbn in Hfuel; lia|].
    cbn [split_loop].
    rewrite (proj2 (Z.ltb_lt _ _)) by (cbn [length]; lia).
    assert (buf_load src (Z.of_nat (length pre)) = Ret a) as ->.
    { rewrite Hsrc. cbn [app]. apply buf_load_middle. }
    cbn [mbind outcome_bind]. cbn [length] in Hfit, Hfuel.
    assert (Z.of_nat (length pre) + 1 <= Z.of_nat (length src)) as Hin.
    { rewrite Hsrc, !length_app. cbn [length]. lia. }
    rewrite (to_size_id (Z.of_nat (length pre) + 1)) by lia.
    rewrite !(to_size_id (Z.of_nat j + 1)) by lia.
    rewrite (to_size_id (Z.of_nat j + 1 + 1)) by lia.
    rewrite buf_store_nat by lia. cbn [mbind outcome_bind].
    replace (Z.of_nat j + 1) with (Z.of_nat (S j)) by lia.
    rewrite buf_store_nat by (rewrite length_insert; lia).
    cbn [mbind outcome_bind].
    replace (Z.of_nat (length pre) + 1) with (Z.of_nat (length (pre ++ [a])))
      by (rewrite length_app; cbn [length]; lia).
    replace (Z.of_nat (S j) + 1) with (Z.of_nat (S (S j))) by lia.
    replace (Z.of_nat (length pre + length (a :: rest)))
      with (Z.of_nat (length (pre ++ [a]) + length rest))
      by (rewrite length_app; cbn [length]; lia).
    rewrite IH.
    + rewrite (take_S_r _ _ (to_u8 (Z.land (Z.shiftr a 4) 15)))
        by (apply list_lookup_insert_eq; rewrite length_insert; lia).
      rewrite take_insert_ge by lia.
      rewrite (take_S_r _ _ (to_u8 (Z.land a 15)))
        by (apply list_lookup_insert_eq; lia).
      rewrite take_insert_ge by lia.
      rewrite !drop_insert_lt by lia.
      rewrite <- !app_assoc. cbn [app nibbles length].
      replace (S (S j) + 2 * length rest)%nat with (j + 2 * S (length rest))%nat
        by lia.
      reflexivity.
    + rewrite Hsrc, <- app_assoc. reflexivity.
    + lia.
    + rewrite !length_insert. lia.
    + exact Hs.
    + rewrite !length_insert. exact Hd.
Qed.

(** [split_to_4bits] on the first [n] elements of [src]. *)
Lemma split_spec (src dst : list Z) (n : nat) :
  (n <= length src)%nat -> (2 * n <= length dst)%nat ->
  Z.of_nat (length src) < 2 ^ 63 -> Z.of_nat (length dst) < 2 ^ 63 ->
  split_to_4bits src (Z.of_nat n) dst =
  Ret (nibbles (take n src) ++ drop (2 * n) dst, 2 * Z.of_nat n).
Proof.
  intros Hn Hfit Hs Hd. unfold split_to_4bits.
  pose proof (split_rest_spec src (drop n src) (take n src) [] dst
                (Z.to_nat (Z.of_nat n)) 0) as H.
  cbn [length app Nat.add] in H. rewrite length_take, Nat.min_l in H by lia.
  change (split_loop ?f ?s ?k ?d 0 0)
    with (split_loop f s k d (Z.of_nat 0) (Z.of_nat 0)).
  rewrite H.
  - rewrite take_0. cbn [app]. f_equal. f_equal. lia.
  - rewrite take_drop. reflexivity.
  - lia.
  - lia.
  - exact Hs.
  - exact Hd.
Qed.


(** ** Round trips *)

Lemma byte_enum (P : Z -> bool) :
  forallb P (map Z.of_nat (seq 0 256)) = true ->
  forall a, 0 <= a < 256 -> P a = true.
Proof.
  intros H a Ha. rewrite forallb_forall in H. apply H.
  apply in_map_iff. exists (Z.to_nat a). split; [lia|]. apply in_seq. lia.
Qed.

Lemma nibble_enum (P : Z -> bool) :
  forallb P (map Z.of_nat (seq 0 16)) = true ->
  forall a, 0 <= a < 16 -> P a = true.
Proof.
  intros H a Ha. rewrite forallb_forall in H. apply H.
  apply in_map_iff. exists (Z.to_nat a). split; [lia|]. apply in_seq. lia.
Qed.

Lemma join_split (a : Z) :
  is_byte a ->
  to_u8 (Z.lor (Z.land (to_u8 (Z.land a 0x0F)) 0x0F)
           (Z.shiftl (Z.land (to_u8 (Z.land (Z.shiftr a 4) 0x0F)) 0x0F) 4)) = a.
Proof.
  intros Ha. apply Z.eqb_eq.
  apply (byte_enum
           (fun a =>
              to_u8 (Z.lor (Z.land (to_u8 (Z.land a 0x0F)) 0x0F)
                       (Z.shiftl (Z.land (to_u8 (Z.land (Z.shiftr a 4) 0x0F)) 0x0F) 4))
              =? a)); [vm_compute; reflexivity | exact Ha].
Qed.

Lemma split_join (a b : Z) :
  is_nibble a -> is_nibble b ->
  let v := to_u8 (Z.lor (Z.land a 0x0F) (Z.shiftl (Z.land b 0x0F) 4)) in
  to_u8 (Z.land v 0x0F) = a /\ to_u8 (Z.land (Z.shiftr v 4) 0x0F) = b.
Proof.
  intros Ha Hb. cbv zeta.
  pose proof (nibble_enum
    (fun a => forallb
       (fun b =>
          let v := to_u8 (Z.lor (Z.land a 0x0F) (Z.shiftl (Z.land b 0x0F) 4)) in
          (to_u8 (Z.land v 0x0F) =? a) && (to_u8 (Z.land (Z.shiftr v 4) 0x0F) =? b))
       (map Z.of_nat (seq 0 16)))) as H.
  specialize (H ltac:(vm_compute; reflexivity) a Ha).
  pose proof (nibble_enum _ H b Hb) as H'. cbv beta zeta in H'.
  apply andb_true_iff in H' as [H1 H2].
  split; apply Z.eqb_eq; assumption.
Qed.

Lemma split_single (a : Z) :
  is_nibble a ->
  let v := to_u8 (Z.land a 0x0F) in
  to_u8 (Z.land v 0x0F) = a /\ to_u8 (Z.land (Z.shiftr v 4) 0x0F) = 0.
Proof.
  intros Ha. cbv zeta.
  pose proof (nibble_enum
    (fun a =>
       let v := to_u8 (Z.land a 0x0F) in
       (to_u8 (Z.land v 0x0F) =? a) && (to_u8 (Z.land (Z.shiftr v 4) 0x0F) =? 0))
    ltac:(vm_compute; reflexivity) a Ha) as H.
  cbv beta zeta in H. apply andb_true_iff in H as [H1 H2].
  split; apply Z.eqb_eq; assumption.
Qed.

Lemma nibble_range (x : Z) : is_nibble (to_u8 (Z.land x 0x0F)).
Proof.
  unfold is_nibble, to_u8. change 15 with (Z.ones 4).
  rewrite Z.land_ones by lia.
  pose proof (Z.mod_pos_bound x (2 ^ 4) ltac:(lia)).
  rewrite Z.mod_small by lia. lia.
Qed.

Lemma nibbles_are_nibbles (l : list Z) : Forall is_nibble (nibbles l).
Proof.
  induction l as [|a l IH]; cbn [nibbles]; [constructor|].
  repeat (constructor; [apply nibble_range|]). exact IH.
Qed.

Lemma nibbles_length (l : list Z) : length (nibbles l) = (2 * length l)%nat.
Proof. induction l as [|a l IH]; cbn [nibbles length]; [reflexivity | lia]. Qed.

Lemma pack_nibbles (l : list Z) : Forall is_byte l -> pack_pairs (nibbles l) = l.
Proof.
  induction 1 as [|a l Ha _ IH]; [reflexivity|].
  cbn [nibbles pack_pairs]. rewrite join_split by exact Ha. rewrite IH. reflexivity.
Qed.

Lemma nibbles_pack (n : nat) :
  forall l, (length l <= n)%nat -> Forall is_nibble l ->
  nibbles (pack_pairs l) = l ++ (if Nat.even (length l) then [] else [0]).
Proof.
  induction n as [|n IH]; intros l Hn Hl.
  - destruct l; [reflexivity | cbn in Hn; lia].
  - destruct l as [|a [|b r]]; [reflexivity | |].
    + apply Forall_cons in Hl as [Ha _].
      cbn [pack_pairs nibbles length Nat.even app].
      destruct (split_single a Ha) as [-> ->]. reflexivity.
    + apply Forall_cons in Hl as [Ha Hl]. apply Forall_cons in Hl as [Hb Hr].
      cbn [pack_pairs nibbles length Nat.even app].
      destruct (split_join a b Ha Hb) as [-> ->].
      rewrite IH by (cbn [length] in Hn; try lia; exact Hr). reflexivity.
Qed.

Lemma pack_pairs_bytes (n : nat) :
  forall l, (length l <= n)%nat -> Forall is_byte (pack_pairs l).
Proof.
  assert (forall z, is_byte (to_u8 z)) as Hb.
  { intros z. unfold is_byte, to_u8.
    pose proof (Z.mod_pos_bound z (2 ^ 8) ltac:(lia)). lia. }
  induction n as [|n IH]; intros l Hn.
  - destruct l; [constructor | cbn in Hn; lia].
  - destruct l as [|a [|b r]]; cbn [pack_pairs]; [constructor | |].
    + constructor; [apply Hb | constructor].
    + constructor; [apply Hb|]. apply IH. cbn [length] in Hn. lia.
Qed.

Lemma pack_pairs_low (n : nat) :
  forall l l', (length l <= n)%nat ->
  map (fun a => Z.land a 0x0F) l = map (fun a => Z.land a 0x0F) l' ->
  pack_pairs l = pack_pairs l'.
Proof.
  induction n as [|n IH]; intros l l' Hn Hmap.
  - destruct l; [|cbn in Hn; lia]. destruct l'; [reflexivity | discriminate].
  - destruct l as [|a [|b r]]; destruct l' as [|a' [|b' r']]; try discriminate;
      [reflexivity | |].
    + cbn [map] in Hmap. injection Hmap as Ha. cbn [pack_pairs].
      rewrite Ha. reflexivity.
    + cbn [map] in Hmap. injection Hmap as Ha Hb Hr. cbn [pack_pairs].
      rewrite Ha, Hb.
      rewrite (IH r r') by (cbn [length] in Hn; try lia; exact Hr). reflexivity.
Qed.

(** X15: splitting bytes into nibbles and packing them again gives the
    bytes back.  For a source of bytes, [split_to_4bits] returns with
    [*dst_len = 2 * src_len], writes only nibbles (values below 16) to the
    first [2 * src_len] places of its destination and leaves the rest of it
    alone; [pack_low4bits] run on that result then returns the source bytes
    in the first [src_len] places of its destination, with
    [*dst_len = src_len]. *)
Theorem split_then_pack (src dst1 dst2 : list Z) :
  Forall is_byte src ->
  (2 * length src <= length dst1)%nat -> (length src <= length dst2)%nat ->
  Z.of_nat (length dst1) < 2 ^ 63 -> Z.of_nat (length dst2) < 2 ^ 63 ->
  exists d1,
    split_to_4bits src (Z.of_nat (length src)) dst1
      = Ret (d1, 2 * Z.of_nat (length src)) /\
    length d1 = length dst1 /\
    Forall is_nibble (take (2 * length src) d1) /\
    drop (2 * length src) d1 = drop (2 * length src) dst1 /\
    pack_low4bits d1 (2 * Z.of_nat (length src)) dst2
      = Ret (src ++ drop (length src) dst2, Z.of_nat (length src)).
Proof.
  intros Hbytes Hfit1 Hfit2 Hd1 Hd2.
  pose proof (nibbles_length src) as Hnl.
  exists (nibbles src ++ drop (2 * length src) dst1).
  assert (length (nibbles src ++ drop (2 * length src) dst1) = length dst1) as Hl1.
  { rewrite length_app, length_drop, Hnl. lia. }
  split.
  { rewrite split_spec by lia. rewrite take_ge by lia. reflexivity. }
  split; [exact Hl1|].
  split; [rewrite take_app_length' by lia; apply nibbles_are_nibbles|].
  split; [rewrite drop_app_length' by lia; reflexivity|].
  replace (2 * Z.of_nat (length src)) with (Z.of_nat (2 * length src)) by lia.
  rewrite pack_spec.
  - rewrite take_app_length' by lia. rewrite pack_nibbles by exact Hbytes.
    f_equal. f_equal. Z.div_mod_to_equations. lia.
  - rewrite Hl1. lia.
  - Z.div_mod_to_equations. lia.
  - rewrite Hl1. exact Hd1.
  - exact Hd2.
Qed.

Lemma split_then_pack_witness :
  exists d1,
    split_to_4bits [0xAB; 0x0C; 0xF0] (Z.of_nat (length [0xAB; 0x0C; 0xF0]))
      (replicate 8 0xEE) = Ret (d1, 2 * Z.of_nat (length [0xAB; 0x0C; 0xF0])) /\
    length d1 = length (replicate 8 0xEE) /\
    Forall is_nibble (take (2 * length [0xAB; 0x0C; 0xF0]) d1) /\
    drop (2 * length [0xAB; 0x0C; 0xF0]) d1
      = drop (2 * length [0xAB; 0x0C; 0xF0]) (replicate 8 0xEE) /\
    pack_low4bits d1 (2 * Z.of_nat (length [0xAB; 0x0C; 0xF0])) (replicate 4 0xDD)
      = Ret ([0xAB; 0x0C; 0xF0] ++ drop (length [0xAB; 0x0C; 0xF0]) (replicate 4 0xDD),
             Z.of_nat (length [0xAB; 0x0C; 0xF0])).
Proof.
  apply (split_then_pack [0xAB; 0x0C; 0xF0] (replicate 8 0xEE) (replicate 4 0xDD)).
  - repeat constructor; unfold is_byte; lia.
  - cbn. lia.
  - cbn. lia.
  - cbn. lia.
  - cbn. lia.
Defined.

(** X16: packing nibbles and splitting the result gives the nibbles back,
    followed by one zero nibble when their number is odd.  For a source of
    [n] nibbles, [pack_low4bits] returns with [*dst_len = (n + 1) / 2], and
    [split_to_4bits] run on that result returns the source in the first
    places of its destination, with [*dst_len = 2 * ((n + 1) / 2)]. *)
Theorem pack_then_split (src dst1 dst2 : list Z) :
  Forall is_nibble src ->
  let n := Z.of_nat (length src) in
  (n + 1) / 2 <= Z.of_nat (length dst1) ->
  2 * ((n + 1) / 2) <= Z.of_nat (length dst2) ->
  Z.of_nat (length dst1) < 2 ^ 63 -> Z.of_nat (length dst2) < 2 ^ 63 ->
  exists d1,
    pack_low4bits src n dst1 = Ret (d1, (n + 1) / 2) /\
    length d1 = length dst1 /\
    split_to_4bits d1 ((n + 1) / 2) dst2
      = Ret ((src ++ (if Nat.even (length src) then [] else [0])) ++
             drop (Z.to_nat (2 * ((n + 1) / 2))) dst2,
             2 * ((n + 1) / 2)).
Proof.
  intros Hnib n Hfit1 Hfit2 Hd1 Hd2. subst n.
  pose proof (pack_pairs_length src (length src) (Nat.le_refl _)) as Hpl.
  assert (Z.of_nat (length src) < 2 ^ 63) as Hs
    by (Z.div_mod_to_equations; lia).
  exists (pack_pairs src ++ drop (length (pack_pairs src)) dst1).
  assert (length (pack_pairs src ++ drop (length (pack_pairs src)) dst1)
          = length dst1) as Hl1.
  { rewrite length_app, length_drop. lia. }
  split.
  { rewrite pack_spec by (try lia; exact Hfit1). rewrite take_ge by lia.
    reflexivity. }
  split; [exact Hl1|].
  rewrite <- Hpl.
  rewrite split_spec.
  - rewrite take_app_length' by reflexivity.
    rewrite (nibbles_pack (length src)) by (try lia; exact Hnib).
    replace (Z.to_nat (2 * Z.of_nat (length (pack_pairs src))))
      with (2 * length (pack_pairs src))%nat by lia.
    reflexivity.
  - rewrite Hl1. lia.
  - lia.
  - rewrite Hl1. exact Hd1.
  - exact Hd2.
Qed.

Lemma pack_then_split_witness :
  let n := Z.of_nat (length [0xA; 0xB; 0xC]) in
  exists d1,
    pack_low4bits [0xA; 0xB; 0xC] n (replicate 3 0xEE) = Ret (d1, (n + 1) / 2) /\
    length d1 = length (replicate 3 0xEE) /\
    split_to_4bits d1 ((n + 1) / 2) (replicate 5 0xDD)
      = Ret (([0xA; 0xB; 0xC] ++
              (if Nat.even (length [0xA; 0xB; 0xC]) then [] else [0])) ++
             drop (Z.to_nat (2 * ((n + 1) / 2))) (replicate 5 0xDD),
             2 * ((n + 1) / 2)).
Proof.
  apply (pack_then_split [0xA; 0xB; 0xC] (replicate 3 0xEE) (replicate 5 0xDD)).
  - repeat constructor; unfold is_nibble; lia.
  - vm_compute. discriminate.
  - vm_compute. discriminate.
  - vm_compute. reflexivity.
  - vm_compute. reflexivity.
Defined.

(** X17: [pack_low4bits] looks only at the low four bits of its input.  On
    [n] elements it returns with [*dst_len = (n + 1) / 2], writes bytes to
    the first [(n + 1) / 2] places of its destination and leaves the rest
    of it alone; and two sources whose first [n] elements agree in their
    low four bits give the same result. *)
Theorem pack_ignores_high_bits (src src' dst : list Z) (n : nat) :
  (n <= length src)%nat -> (n <= length src')%nat ->
  (Z.of_nat n + 1) / 2 <= Z.of_nat (length dst) ->
  Z.of_nat (length src) < 2 ^ 63 -> Z.of_nat (length src') < 2 ^ 63 ->
  Z.of_nat (length dst) < 2 ^ 63 ->
  map (fun a => Z.land a 0x0F) (take n src) =
    map (fun a => Z.land a 0x0F) (take n src') ->
  exists d,
    pack_low4bits src (Z.of_nat n) dst = Ret (d, (Z.of_nat n + 1) / 2) /\
    pack_low4bits src' (Z.of_nat n) dst = Ret (d, (Z.of_nat n + 1) / 2) /\
    length d = length dst /\
    Forall is_byte (take (Z.to_nat ((Z.of_nat n + 1) / 2)) d) /\
    drop (Z.to_nat ((Z.of_nat n + 1) / 2)) d =
      drop (Z.to_nat ((Z.of_nat n + 1) / 2)) dst.
Proof.
  intros Hn Hn' Hfit Hs Hs' Hd Hlow.
  pose proof (pack_pairs_length (take n src) n) as Hpl.
  rewrite length_take, Nat.min_l in Hpl by lia.
  specialize (Hpl (Nat.le_refl _)).
  exists (pack_pairs (take n src) ++ drop (length (pack_pairs (take n src))) dst).
  split; [apply pack_spec; assumption|].
  split.
  { rewrite pack_spec by assumption.
    rewrite (pack_pairs_low n (take n src') (take n src))
      by (try (rewrite length_take; lia); symmetry; exact Hlow).
    reflexivity. }
  rewrite <- Hpl, Nat2Z.id.
  split; [rewrite length_app, length_drop; lia|].
  split.
  - rewrite take_app_length' by reflexivity.
    apply (pack_pairs_bytes n). rewrite length_take. lia.
  - rewrite drop_app_length' by reflexivity. reflexivity.
Qed.

Lemma pack_ignores_high_bits_witness :
  exists d,
    pack_low4bits [0x1A; 0x2B; 0x3C] (Z.of_nat 3) [0xEE; 0xEE; 0xEE]
      = Ret (d, (Z.of_nat 3 + 1) / 2) /\
    pack_low4bits [0xFA; 0x0B; 0x7C] (Z.of_nat 3) [0xEE; 0xEE; 0xEE]
      = Ret (d, (Z.of_nat 3 + 1) / 2) /\
    length d = length [0xEE; 0xEE; 0xEE] /\
    Forall is_byte (take (Z.to_nat ((Z.of_nat 3 + 1) / 2)) d) /\
    drop (Z.to_nat ((Z.of_nat 3 + 1) / 2)) d =
      drop (Z.to_nat ((Z.of_nat 3 + 1) / 2)) [0xEE; 0xEE; 0xEE].
Proof.
  apply (pack_ignores_high_bits [0x1A; 0x2B; 0x3C] [0xFA; 0x0B; 0x7C]
           [0xEE; 0xEE; 0xEE] 3).
  - cbn. lia.
  - cbn. lia.
  - vm_compute. discriminate.
  - vm_compute. reflexivity.
  - vm_compute. reflexivity.
  - vm_compute. reflexivity.
  - reflexivity.
Defined.

End NibbleFacts.

(** * Properties of the sort *)

Module SortFacts.
Import Sort SortNotions.

(** ** One pass over a list *)

Lemma bubble_from_perm (rest : list Z) :
  forall x s, (bubble_from x rest s).1 ≡ₚ x :: rest.
Proof.
  induction rest as [|y r IH]; intros x s; cbn [bubble_from]; [reflexivity|].
  destruct (y <? x).
  - specialize (IH x 1). destruct (bubble_from x r 1) as [l s']. cbn in *.
    rewrite IH. apply perm_swap.
  - specialize (IH y s). destruct (bubble_from y r s) as [l s']. cbn in *.
    rewrite IH. reflexivity.
Qed.

(** The largest element ends up last. *)
Lemma bubble_from_last (rest : list Z) :
  forall x s, exists l mx,
    (bubble_from x rest s).1 = l ++ [mx] /\ x <= mx /\ Forall (fun y => y <= mx) l.
Proof.
  induction rest as [|y r IH]; intros x s; cbn [bubble_from].
  - exists [], x. split; [reflexivity|]. split; [lia | constructor].
  - destruct (Z.ltb_spec y x).
    + destruct (IH x 1) as (l & mx & E & Hx & Hl).
      destruct (bubble_from x r 1) as [l' s']. cbn in *. subst l'.
      exists (y :: l), mx. split; [reflexivity|]. split; [exact Hx|].
      constructor; [lia | exact Hl].
    + destruct (IH y s) as (l & mx & E & Hy & Hl).
      destruct (bubble_from y r s) as [l' s']. cbn in *. subst l'.
      exists (x :: l), mx. split; [reflexivity|]. split; [lia|].
      constructor; [lia | exact Hl].
Qed.

Lemma bubble_from_swapped (rest : list Z) :
  forall x, (bubble_from x rest 1).2 = 1.
Proof.
  induction rest as [|y r IH]; intros x; cbn [bubble_from]; [reflexivity|].
  destruct (y <? x).
  - specialize (IH x). destruct (bubble_from x r 1). exact IH.
  - specialize (IH y). destruct (bubble_from y r 1). exact IH.
Qed.

(** A pass that swaps nothing went over a sorted list and left it alone. *)
Lemma bubble_from_clean (rest : list Z) :
  forall x, (bubble_from x rest 0).2 = 0 ->
  (bubble_from x rest 0).1 = x :: rest /\ StronglySorted Z.le (x :: rest).
Proof.
  induction rest as [|y r IH]; intros x H; cbn [bubble_from] in *.
  - split; [reflexivity|]. repeat constructor.
  - destruct (Z.ltb_spec y x).
    + pose proof (bubble_from_swapped r x) as Hs.
      destruct (bubble_from x r 1). cbn in *. congruence.
    + specialize (IH y). destruct (bubble_from y r 0) as [l s']. cbn in *.
      destruct (IH H) as [-> Hsorted]. split; [reflexivity|].
      constructor; [exact Hsorted|].
      apply StronglySorted_inv in Hsorted as [_ Hall].
      constructor; [exact H0|].
      eapply Forall_impl; [exact Hall|]. cbn. intros z Hz. lia.
Qed.

(** ** The loops *)

Lemma buf_store_middle (pre post : list Z) (a v : Z) :
  buf_store (pre ++ a :: post) (Z.of_nat (length pre)) v = Ret (pre ++ v :: post).
Proof.
  rewrite InterruptFacts.buf_store_ok
    by (rewrite length_app; cbn [length]; lia).
  rewrite Nat2Z.id, insert_app_r_alt, Nat.sub_diag by lia. reflexivity.
Qed.

Lemma u32_round_trip (x : Z) : is_u32 x -> to_u32 (wrap_int x) = x.
Proof.
  unfold is_u32, to_u32, wrap_int. intros H.
  rewrite Zminus_mod_idemp_l.
  replace (x + 2 ^ 31 - 2 ^ 31) with x by lia.
  apply Z.mod_small. exact H.
Qed.

Lemma inner_spec (post : list Z) (n i : Z) :
  forall (rest arr pre : list Z) (x : Z) (fuel : nat) (swapped : Z),
  arr = pre ++ x :: rest ++ post ->
  Forall is_u32 (x :: rest) ->
  n - i = Z.of_nat (length pre + 1 + length rest) ->
  0 <= i -> n <= INT_MAX ->
  (length rest <= fuel)%nat ->
  inner_loop fuel arr n i (Z.of_nat (length pre)) swapped =
  Ret (pre ++ (bubble_from x rest swapped).1 ++ post,
       (bubble_from x rest swapped).2).
Proof.
  unfold INT_MAX.
  induction rest as [|y r IH]; intros arr pre x fuel swapped Harr Hu Hn Hi Hmax Hfuel.
  - assert ((Z.of_nat (length pre) <? wrap_int (wrap_int (n - i) - 1)) = false) as Hc.
    { cbn [length] in Hn.
      rewrite (InterruptFacts.wrap_int_id (n - i))
        by (unfold int_range, INT_MIN, INT_MAX; lia).
      rewrite (InterruptFacts.wrap_int_id (n - i - 1))
        by (unfold int_range, INT_MIN, INT_MAX; lia).
      apply Z.ltb_ge. lia. }
    destruct fuel; cbn [inner_loop]; rewrite Hc; rewrite Harr; reflexivity.
  - destruct fuel as [|fuel]; [cbn in Hfuel; lia|].
    cbn [length] in Hn, Hfuel. cbn [inner_loop].
    rewrite (InterruptFacts.wrap_int_id (n - i))
      by (unfold int_range, INT_MIN, INT_MAX; lia).
    rewrite (InterruptFacts.wrap_int_id (n - i - 1))
      by (unfold int_range, INT_MIN, INT_MAX; lia).
    rewrite !(InterruptFacts.wrap_int_id (Z.of_nat (length pre) + 1))
      by (unfold int_range, INT_MIN, INT_MAX; lia).
    rewrite (proj2 (Z.ltb_lt _ _)) by lia.
    assert (forall a b t, buf_load (pre ++ a :: b :: t) (Z.of_nat (length pre) + 1)
                          = Ret b) as Hload1.
    { intros a b t.
      replace (Z.of_nat (length pre) + 1) with (Z.of_nat (length (pre ++ [a])))
        by (rewrite length_app; cbn [length]; lia).
      replace (pre ++ a :: b :: t) with ((pre ++ [a]) ++ b :: t)
        by (rewrite <- app_assoc; reflexivity).
      apply NibbleFacts.buf_load_middle. }
    rewrite Harr. cbn [app].
    rewrite NibbleFacts.buf_load_middle. cbn [mbind outcome_bind].
    rewrite Hload1. cbn [mbind outcome_bind].
    apply Forall_cons in Hu as [Hx Hu]. apply Forall_cons in Hu as [Hy Hr].
    cbn [bubble_from].
    replace (Z.of_nat (length pre) + 1) with (Z.of_nat (length (pre ++ [y])))
      by (rewrite length_app; cbn [length]; lia).
    destruct (y <? x).
    + rewrite buf_store_middle. cbn [mbind outcome_bind].
      replace (pre ++ y :: y :: r ++ post) with ((pre ++ [y]) ++ y :: r ++ post)
        by (rewrite <- app_assoc; reflexivity).
      rewrite buf_store_middle. cbn [mbind outcome_bind].
      rewrite u32_round_trip by exact Hx.
      rewrite (IH _ (pre ++ [y]) x fuel 1); try assumption; try reflexivity.
      * destruct (bubble_from x r 1) as [l s]. cbn [fst snd].
        rewrite <- !app_assoc. reflexivity.
      * constructor; assumption.
      * rewrite length_app. cbn [length]. lia.
      * lia.
    + cbn [mbind outcome_bind].
      replace (Z.of_nat (length (pre ++ [y]))) with (Z.of_nat (length (pre ++ [x])))
        by (rewrite !length_app; reflexivity).
      rewrite (IH _ (pre ++ [x]) y fuel swapped); try assumption.
      * destruct (bubble_from y r swapped) as [l s]. cbn [fst snd].
        rewrite <- !app_assoc. reflexivity.
      * rewrite <- app_assoc. reflexivity.
      * constructor; assumption.
      * rewrite length_app. cbn [length]. lia.
      * lia.
Qed.

Lemma short_sorted (l : list Z) : (length l <= 1)%nat -> StronglySorted Z.le l.
Proof.
  destruct l as [|x [|y r]]; cbn; intros H; try lia; repeat constructor.
Qed.

Lemma outer_spec (post : list Z) (n : Z) (fuel : nat) :
  forall (front back : list Z) (i : Z),
  Z.of_nat (length front) = n - i -> Z.of_nat (length back) = i ->
  n <= INT_MAX ->
  (length front <= fuel + 1)%nat ->
  Forall is_u32 front ->
  StronglySorted Z.le back ->
  (forall x y, x ∈ front -> y ∈ back -> x <= y) ->
  exists sorted,
    outer_loop fuel (front ++ back ++ post) n i = Ret (sorted ++ post) /\
    sorted ≡ₚ front ++ back /\
    StronglySorted Z.le sorted.
Proof.
  unfold INT_MAX.
  induction fuel as [|fuel IH]; intros front back i Hf Hb Hmax Hfuel Hu Hsb Hle.
  - assert ((i <? wrap_int (n - 1)) = false) as Hc.
    { rewrite InterruptFacts.wrap_int_id
        by (unfold int_range, INT_MIN, INT_MAX; lia).
      apply Z.ltb_ge. lia. }
    cbn [outer_loop]. rewrite Hc.
    exists (front ++ back). rewrite <- app_assoc. split; [reflexivity|].
    split; [reflexivity|].
    apply StronglySorted_app_2; [exact Hle | apply short_sorted; lia | exact Hsb].
  - cbn [outer_loop].
    rewrite InterruptFacts.wrap_int_id
      by (unfold int_range, INT_MIN, INT_MAX; lia).
    destruct (Z.ltb_spec i (n - 1)) as [Hlt|Hge].
    + destruct front as [|x rest]; [cbn in Hf; lia|].
      cbn [length] in Hf, Hfuel.
      pose proof (inner_spec (back ++ post) n i rest
                    ((x :: rest) ++ back ++ post) [] x (Z.to_nat n) 0) as Hin.
      cbn [length app Nat.add] in Hin.
      change (inner_loop (Z.to_nat n) ((x :: rest) ++ back ++ post) n i 0 0)
        with (inner_loop (Z.to_nat n) (x :: rest ++ back ++ post) n i
                (Z.of_nat 0) 0).
      rewrite (InterruptFacts.wrap_int_id (i + 1))
        by (unfold int_range, INT_MIN, INT_MAX; lia).
      rewrite Hin; [|reflexivity | exact Hu | lia | lia | unfold INT_MAX; lia | lia].
      cbn [mbind outcome_bind].
      pose proof (bubble_from_perm rest x 0) as Hperm.
      destruct (bubble_from_last rest x 0) as (l & mx & El & _ & Hl).
      pose proof (bubble_from_clean rest x) as Hclean.
      destruct (bubble_from x rest 0) as [front' swapped]. cbn [fst snd] in *.
      unfold c_true. destruct (Z.eqb_spec swapped 0) as [->|Hne]; cbn [negb].
      * destruct (Hclean eq_refl) as [-> Hsorted].
        exists ((x :: rest) ++ back). rewrite <- app_assoc.
        split; [reflexivity|]. split; [reflexivity|].
        apply StronglySorted_app_2; [exact Hle | exact Hsorted | exact Hsb].
      * subst front'.
        assert (mx ∈ x :: rest) as Hmx.
        { rewrite <- Hperm. apply elem_of_app. right. constructor. }
        assert (forall z, z ∈ l -> z ∈ x :: rest) as Hsub.
        { intros z Hz. rewrite <- Hperm. apply elem_of_app. left. exact Hz. }
        destruct (IH l (mx :: back) (i + 1)) as (sorted & E & Hp & Hs).
        -- apply Permutation_length in Hperm.
           rewrite length_app in Hperm. cbn [length] in Hperm. lia.
        -- cbn [length]. lia.
        -- lia.
        -- apply Permutation_length in Hperm.
           rewrite length_app in Hperm. cbn [length] in Hperm. lia.
        -- apply Forall_forall. intros z Hz.
           rewrite Forall_forall in Hu. apply Hu, Hsub, Hz.
        -- constructor; [exact Hsb|].
           apply Forall_forall. intros y Hy. exact (Hle mx y Hmx Hy).
        -- intros z y Hz Hy. apply elem_of_cons in Hy as [->|Hy].
           ++ rewrite Forall_forall in Hl. exact (Hl z Hz).
           ++ exact (Hle z y (Hsub z Hz) Hy).
        -- exists sorted. split.
           ++ rewrite <- E. rewrite <- !app_assoc. reflexivity.
           ++ split; [|exact Hs].
              rewrite Hp, <- Hperm, <- app_assoc. reflexivity.
    + exists (front ++ back). rewrite <- app_assoc. split; [reflexivity|].
      split; [reflexivity|].
      apply StronglySorted_app_2; [exact Hle | apply short_sorted; lia | exact Hsb].
Qed.

(** X18: [bubble_sort] sorts.  For [0 <= n] elements of type [uint32_t]
    held by the array, it returns with the first [n] elements in ascending
    (unsigned) order and a permutation of what they were; the rest of the
    array is not touched.  On an array whose first [n] elements are already
    in order it returns the array as it was. *)
Theorem bubble_sort_sorts (arr : list Z) (n : Z) :
  0 <= n <= INT_MAX -> n <= Z.of_nat (length arr) ->
  Forall is_u32 (take (Z.to_nat n) arr) ->
  exists arr',
    bubble_sort arr n = Ret arr' /\
    length arr' = length arr /\
    StronglySorted Z.le (take (Z.to_nat n) arr') /\
    take (Z.to_nat n) arr' ≡ₚ take (Z.to_nat n) arr /\
    drop (Z.to_nat n) arr' = drop (Z.to_nat n) arr /\
    (StronglySorted Z.le (take (Z.to_nat n) arr) -> arr' = arr).
Proof.
  intros Hn Hfit Hu. unfold bubble_sort.
  destruct (outer_spec (drop (Z.to_nat n) arr) n (Z.to_nat n)
              (take (Z.to_nat n) arr) [] 0)
    as (sorted & E & Hp & Hs).
  - rewrite length_take. lia.
  - reflexivity.
  - lia.
  - rewrite length_take. lia.
  - exact Hu.
  - constructor.
  - intros x y _ Hy. apply elem_of_nil in Hy. contradiction.
  - cbn [app] in E. rewrite take_drop in E. rewrite app_nil_r in Hp.
    assert (length sorted = Z.to_nat n) as Hl.
    { rewrite (Permutation_length Hp), length_take. lia. }
    exists (sorted ++ drop (Z.to_nat n) arr). split; [exact E|].
    split.
    { rewrite length_app, length_drop. lia. }
    split; [rewrite take_app_length' by (symmetry; exact Hl); exact Hs|].
    split; [rewrite take_app_length' by (symmetry; exact Hl); exact Hp|].
    split; [rewrite drop_app_length' by (symmetry; exact Hl); reflexivity|].
    intros Hsorted.
    assert (sorted = take (Z.to_nat n) arr) as ->.
    { apply (StronglySorted_unique Z.le); [exact Hs | exact Hsorted | exact Hp]. }
    apply take_drop.
Qed.

Lemma bubble_sort_sorts_witness :
  exists arr',
    bubble_sort [3; 7; 23; 9; 81; 33; 4; 607747; 0; 5] 8 = Ret arr' /\
    length arr' = length [3; 7; 23; 9; 81; 33; 4; 607747; 0; 5] /\
    StronglySorted Z.le (take (Z.to_nat 8) arr') /\
    take (Z.to_nat 8) arr' ≡ₚ
      take (Z.to_nat 8) [3; 7; 23; 9; 81; 33; 4; 607747; 0; 5] /\
    drop (Z.to_nat 8) arr' = drop (Z.to_nat 8) [3; 7; 23; 9; 81; 33; 4; 607747; 0; 5] /\
    (StronglySorted Z.le (take (Z.to_nat 8) [3; 7; 23; 9; 81; 33; 4; 607747; 0; 5]) ->
     arr' = [3; 7; 23; 9; 81; 33; 4; 607747; 0; 5]).
Proof.
  apply (bubble_sort_sorts [3; 7; 23; 9; 81; 33; 4; 607747; 0; 5] 8).
  - unfold INT_MAX. lia.
  - cbn. lia.
  - repeat constructor; unfold is_u32; lia.
Defined.

End SortFacts.

(** * Properties of the transpose *)

Module DmaFacts.
Import Dma.

Ltac int_ok := unfold int_range, INT_MIN, INT_MAX in *; nia.

Lemma row_spec (A : list Z) (M N i : Z) (fuel : nat) :
  forall (C : list Z) (j : Z),
  0 <= i < N -> 0 <= j <= M -> Z.of_nat fuel = M - j ->
  M * N <= Z.of_nat (length A) -> M * N <= Z.of_nat (length C) ->
  M * N <= INT_MAX ->
  exists C',
    transpose_row fuel A C M N i j = Ret C' /\
    length C' = length C /\
    (forall j', j <= j' < M ->
       C' !! Z.to_nat (i * M + j') = A !! Z.to_nat (j' * N + i)) /\
    (forall k : nat, Z.of_nat k < i * M + j \/ i * M + M <= Z.of_nat k ->
       C' !! k = C !! k).
Proof.
  induction fuel as [|fuel IH]; intros C j Hi Hj Hfuel HA HC Hmax;
    cbn [transpose_row].
  - rewrite (proj2 (Z.ltb_ge _ _)) by lia.
    exists C. split; [reflexivity|]. split; [reflexivity|].
    split; [intros j' Hj'; lia | reflexivity].
  - rewrite (proj2 (Z.ltb_lt _ _)) by lia.
    rewrite (InterruptFacts.wrap_int_id (j * N)) by int_ok.
    rewrite (InterruptFacts.wrap_int_id (j * N + i)) by int_ok.
    rewrite (InterruptFacts.wrap_int_id (i * M)) by int_ok.
    rewrite (InterruptFacts.wrap_int_id (i * M + j)) by int_ok.
    rewrite (InterruptFacts.wrap_int_id (j + 1)) by int_ok.
    destruct (InterruptFacts.buf_load_ok A (j * N + i)) as (a & -> & Ha); [nia|].
    cbn [mbind outcome_bind].
    rewrite InterruptFacts.buf_store_ok by nia. cbn [mbind outcome_bind].
    destruct (IH (<[Z.to_nat (i * M + j) := a]> C) (j + 1))
      as (C' & E & Hlen & Hrow & Hrest); try lia;
      [rewrite length_insert; exact HC|].
    exists C'. split; [exact E|].
    split; [rewrite Hlen, length_insert; reflexivity|].
    split.
    + intros j' Hj'. destruct (Z.eq_dec j' j) as [->|Hne].
      * rewrite Hrest by lia. rewrite list_lookup_insert_eq by nia.
        symmetry. exact Ha.
      * apply Hrow. lia.
    + intros k Hk. rewrite Hrest by lia.
      assert (0 <= i * M) by nia.
      apply list_lookup_insert_ne. lia.
Qed.

Lemma rows_spec (A : list Z) (M N : Z) (fuel : nat) :
  forall (C : list Z) (i : Z),
  0 <= i <= N -> 0 <= M -> Z.of_nat fuel = N - i ->
  M * N <= Z.of_nat (length A) -> M * N <= Z.of_nat (length C) ->
  M * N <= INT_MAX -> N <= INT_MAX ->
  exists C',
    transpose_rows fuel A C M N i = Ret C' /\
    length C' = length C /\
    (forall i' j, i <= i' < N -> 0 <= j < M ->
       C' !! Z.to_nat (i' * M + j) = A !! Z.to_nat (j * N + i')) /\
    (forall k : nat, Z.of_nat k < i * M \/ N * M <= Z.of_nat k ->
       C' !! k = C !! k).
Proof.
  induction fuel as [|fuel IH]; intros C i Hi HM Hfuel HA HC Hmax HNmax;
    cbn [transpose_rows].
  - rewrite (proj2 (Z.ltb_ge _ _)) by lia.
    exists C. split; [reflexivity|]. split; [reflexivity|].
    split; [intros i' j Hi'; lia | reflexivity].
  - rewrite (proj2 (Z.ltb_lt _ _)) by lia.
    destruct (row_spec A M N i (Z.to_nat M) C 0)
      as (C1 & E1 & Hlen1 & Hrow1 & Hrest1); try lia.
    rewrite E1. cbn [mbind outcome_bind].
    rewrite (InterruptFacts.wrap_int_id (i + 1)) by int_ok.
    destruct (IH C1 (i + 1)) as (C' & E & Hlen & Hrows & Hrest); try lia.
    exists C'. split; [exact E|]. split; [lia|].
    split.
    + intros i' j Hi' Hj. destruct (Z.eq_dec i' i) as [->|Hne].
      * rewrite Hrest by nia. apply Hrow1. lia.
      * apply Hrows; lia.
    + intros k Hk. rewrite Hrest by nia. apply Hrest1. nia.
Qed.

(** X19: [transpose] of an [M] x [N] matrix held row by row in [A] into
    [C] (both with room for [M * N] elements) always returns: element
    [(i, j)] of the [N] x [M] result is element [(j, i)] of [A], and [C] is
    not touched from position [M * N] on.  Transposing the result back, as
    an [N] x [M] matrix, gives the first [M * N] elements of [A] again. *)
Theorem transpose_involution (A C D : list Z) (M N : Z) :
  0 <= M <= INT_MAX -> 0 <= N <= INT_MAX -> M * N <= INT_MAX ->
  M * N <= Z.of_nat (length A) -> M * N <= Z.of_nat (length C) ->
  M * N <= Z.of_nat (length D) ->
  exists C' D',
    transpose A C M N = Ret C' /\
    length C' = length C /\
    (forall i j, 0 <= i < N -> 0 <= j < M ->
       C' !! Z.to_nat (i * M + j) = A !! Z.to_nat (j * N + i)) /\
    drop (Z.to_nat (M * N)) C' = drop (Z.to_nat (M * N)) C /\
    transpose C' D N M = Ret D' /\
    take (Z.to_nat (M * N)) D' = take (Z.to_nat (M * N)) A.
Proof.
  intros HM HN Hmax HA HC HD. unfold transpose.
  destruct (rows_spec A M N (Z.to_nat N) C 0)
    as (C' & E1 & Hlen1 & Hrows1 & Hrest1); try lia.
  destruct (rows_spec C' N M (Z.to_nat M) D 0)
    as (D' & E2 & Hlen2 & Hrows2 & Hrest2); try lia.
  exists C', D'. split; [exact E1|]. split; [exact Hlen1|].
  split; [intros i j Hi Hj; apply Hrows1; lia|].
  split.
  { apply list_eq. intros k. rewrite !lookup_drop. apply Hrest1. right. lia. }
  split; [exact E2|].
  apply list_eq. intros k.
  destruct (Nat.lt_ge_cases k (Z.to_nat (M * N))) as [Hk|Hk].
  - rewrite !lookup_take_lt by exact Hk.
    assert (0 < N) as HNpos by nia.
    pose proof (Z.div_mod (Z.of_nat k) N ltac:(lia)) as Hdm.
    pose proof (Z.mod_pos_bound (Z.of_nat k) N HNpos) as Hmod.
    assert (0 <= Z.of_nat k / N < M) as Hdiv.
    { split; [apply Z.div_pos; lia|]. apply Z.div_lt_upper_bound; lia. }
    replace k with (Z.to_nat (Z.of_nat k / N * N + Z.of_nat k mod N)) at 1 2 by lia.
    rewrite Hrows2 by lia. apply Hrows1; lia.
  - rewrite !lookup_take_ge by exact Hk. reflexivity.
Qed.

Lemma transpose_involution_witness :
  exists C' D',
    transpose [1; 2; 3; 4; 5; 6; 7] (replicate 7 0) 2 3 = Ret C' /\
    length C' = length (replicate 7 0) /\
    (forall i j, 0 <= i < 3 -> 0 <= j < 2 ->
       C' !! Z.to_nat (i * 2 + j) = [1; 2; 3; 4; 5; 6; 7] !! Z.to_nat (j * 3 + i)) /\
    drop (Z.to_nat (2 * 3)) C' = drop (Z.to_nat (2 * 3)) (replicate 7 0) /\
    transpose C' (replicate 6 9) 3 2 = Ret D' /\
    take (Z.to_nat (2 * 3)) D' = take (Z.to_nat (2 * 3)) [1; 2; 3; 4; 5; 6; 7].
Proof.
  apply (transpose_involution [1; 2; 3; 4; 5; 6; 7] (replicate 7 0) (replicate 6 9) 2 3).
  - unfold INT_MAX. lia.
  - unfold INT_MAX. lia.
  - unfold INT_MAX. lia.
  - cbn. lia.
  - cbn. lia.
  - cbn. lia.
Defined.

End DmaFacts.

(** * Properties of the unbounded polled transfer *)

Module JedecFacts.
Import DualCS DualNotions Jedec.

#[local] Arguments Z.testbit : simpl never.
#[local] Arguments Z.land : simpl never.
#[local] Arguments to_u32 : simpl never.

Lemma wait_set_hangs (flag : Z) (hw : bus) (fuel : nat) :
  forall m,
  (forall k, c_true (Z.land (to_u32 (hw (reads m + k)%nat)) flag) = false) ->
  wait_set flag fuel hw m = Diverge.
Proof.
  induction fuel as [|fuel IH]; intros m Hclear; cbn [wait_set read_reg];
    pose proof (Hclear O) as H0; rewrite Nat.add_0_r in H0; rewrite H0;
    cbn [negb]; [reflexivity|].
  apply IH. intros k. cbn [reads].
  replace (S (reads m) + k)%nat with (reads m + S k)%nat by lia. apply Hclear.
Qed.

Lemma wait_set_short (flag : Z) (hw : bus) (fuel : nat) :
  forall m,
  (forall k, (k <= fuel)%nat ->
     c_true (Z.land (to_u32 (hw (reads m + k)%nat)) flag) = false) ->
  wait_set flag fuel hw m = Diverge.
Proof.
  induction fuel as [|fuel IH]; intros m Hclear; cbn [wait_set read_reg];
    pose proof (Hclear O ltac:(lia)) as H0; rewrite Nat.add_0_r in H0; rewrite H0;
    cbn [negb]; [reflexivity|].
  apply IH. intros k Hk. cbn [reads].
  replace (S (reads m) + k)%nat with (reads m + S k)%nat by lia.
  apply Hclear. lia.
Qed.

Lemma wait_set_returns (flag : Z) (hw : bus) (k : nat) :
  forall (fuel : nat) (m : machine),
  (forall k', (k' < k)%nat ->
     c_true (Z.land (to_u32 (hw (reads m + k')%nat)) flag) = false) ->
  c_true (Z.land (to_u32 (hw (reads m + k)%nat)) flag) = true ->
  (k <= fuel)%nat ->
  wait_set flag fuel hw m =
  Ret (mk_machine (csctrl m) (reads m + k + 1)
         (trace m ++ sr_trace hw (reads m) (k + 1))).
Proof.
  induction k as [|k IH]; intros fuel m Hclear Hset Hfuel.
  - rewrite Nat.add_0_r in Hset.
    destruct fuel; cbn [wait_set read_reg]; rewrite Hset; cbn [negb];
      rewrite Nat.add_0_r; replace (reads m + 1)%nat with (S (reads m)) by lia;
      reflexivity.
  - destruct fuel as [|fuel]; [lia|]. cbn [wait_set read_reg].
    pose proof (Hclear O ltac:(lia)) as H0. rewrite Nat.add_0_r in H0.
    rewrite H0. cbn [negb].
    rewrite IH; cbn [reads csctrl trace].
    + rewrite <- app_assoc.
      replace (S (reads m) + k + 1)%nat with (reads m + S k + 1)%nat by lia.
      reflexivity.
    + intros k' Hk'.
      replace (S (reads m) + k')%nat with (reads m + S k')%nat by lia.
      apply Hclear. lia.
    + replace (S (reads m) + k)%nat with (reads m + S k)%nat by lia. exact Hset.
    + lia.
Qed.

(** X20: the polled transfer of test-spi-jedec.c has no timeout.  If the
    status register never shows TXE (bit 1), or shows it first at its read
    number [k1] of the call but never shows RXNE (bit 0) in the reads after
    that, [spi_transfer_byte] does not return, however long it is run. *)
Theorem spi_transfer_byte_hangs (hw : bus) (data : Z) (m : machine) (k1 : nat) :
  (forall k, Z.testbit (hw (reads m + k)%nat) 1 = false) \/
  ((forall k, (k < k1)%nat -> Z.testbit (hw (reads m + k)%nat) 1 = false) /\
   Z.testbit (hw (reads m + k1)%nat) 1 = true /\
   (forall k, Z.testbit (hw (reads m + k1 + 1 + k)%nat) 0 = false)) ->
  forall fuel, spi_transfer_byte fuel hw data m = Diverge.
Proof.
  intros [Htxe | (Hclear & Hset & Hrxne)] fuel; unfold spi_transfer_byte.
  - unfold spi_wait_txe. rewrite wait_set_hangs; [reflexivity|].
    intros k. rewrite (InterruptFacts.c_true_bit _ 1) by lia. apply Htxe.
  - unfold spi_wait_txe. destruct (le_lt_dec k1 fuel) as [Hle|Hlt].
    + rewrite (wait_set_returns SPI_SR_TXE hw k1 fuel m); try exact Hle.
      * cbn [mbind outcome_bind]. unfold spi_wait_rxne.
        rewrite wait_set_hangs; [reflexivity|].
        intros k. cbn [write_reg reads].
        rewrite (InterruptFacts.c_true_bit _ 0) by lia. apply Hrxne.
      * intros k' Hk'. rewrite (InterruptFacts.c_true_bit _ 1) by lia.
        apply Hclear. exact Hk'.
      * rewrite (InterruptFacts.c_true_bit _ 1) by lia. exact Hset.
    + rewrite wait_set_short; [reflexivity|].
      intros k Hk. rewrite (InterruptFacts.c_true_bit _ 1) by lia.
      apply Hclear. lia.
Qed.

Lemma spi_transfer_byte_hangs_witness :
  spi_transfer_byte 7 bus_silent 0x9F (mk_machine 0 0 []) = Diverge.
Proof.
  apply (spi_transfer_byte_hangs bus_silent 0x9F (mk_machine 0 0 []) 0).
  left. intros k. reflexivity.
Defined.

(** X21: when the flags do show, the unbounded transfer returns.  If TXE
    shows first at read number [k1] of the call and RXNE first at read
    number [k2] after the byte was written, then run for at least
    [max k1 k2] further loop iterations [spi_transfer_byte] returns the low
    byte of the data register, having made [k1 + 1] status reads, the write
    of the byte, [k2 + 1] status reads and the read of the data register,
    and nothing else. *)
Theorem spi_transfer_byte_returns (hw : bus) (data : Z) (m : machine)
    (k1 k2 fuel : nat) :
  (forall k, (k < k1)%nat -> Z.testbit (hw (reads m + k)%nat) 1 = false) ->
  Z.testbit (hw (reads m + k1)%nat) 1 = true ->
  (forall k, (k < k2)%nat -> Z.testbit (hw (reads m + k1 + 1 + k)%nat) 0 = false) ->
  Z.testbit (hw (reads m + k1 + 1 + k2)%nat) 0 = true ->
  (k1 <= fuel)%nat -> (k2 <= fuel)%nat ->
  let d := to_u32 (hw (reads m + k1 + 1 + k2 + 1)%nat) in
  spi_transfer_byte fuel hw data m =
  Ret (Z.land d 0xFF,
       mk_machine (csctrl m) (reads m + k1 + 1 + k2 + 1 + 1)
         (trace m ++ sr_trace hw (reads m) (k1 + 1) ++
          [MmioWrite SPI_DR (to_u32 data)] ++
          sr_trace hw (reads m + k1 + 1) (k2 + 1) ++
          [MmioRead SPI_DR d])).
Proof.
  intros Hc1 Hs1 Hc2 Hs2 Hf1 Hf2 d. subst d. unfold spi_transfer_byte.
  unfold spi_wait_txe. rewrite (wait_set_returns SPI_SR_TXE hw k1 fuel m).
  - cbn [mbind outcome_bind]. unfold spi_wait_rxne.
    rewrite (wait_set_returns SPI_SR_RXNE hw k2 fuel).
    + cbn [mbind outcome_bind read_reg write_reg reads csctrl trace].
      rewrite <- !app_assoc.
      replace (S (reads m + k1 + 1 + k2 + 1)) with (reads m + k1 + 1 + k2 + 1 + 1)%nat
        by lia.
      reflexivity.
    + intros k' Hk'. cbn [write_reg reads].
      rewrite (InterruptFacts.c_true_bit _ 0) by lia. apply Hc2. exact Hk'.
    + cbn [write_reg reads].
      rewrite (InterruptFacts.c_true_bit _ 0) by lia. exact Hs2.
    + exact Hf2.
  - intros k' Hk'. rewrite (InterruptFacts.c_true_bit _ 1) by lia.
    apply Hc1. exact Hk'.
  - rewrite (InterruptFacts.c_true_bit _ 1) by lia. exact Hs1.
  - exact Hf1.
Qed.

Lemma spi_transfer_byte_returns_witness :
  let m := mk_machine 0x11 0 [] in
  let d := to_u32 (bus_const 0x1EF (reads m + 0 + 1 + 0 + 1)%nat) in
  spi_transfer_byte 0 (bus_const 0x1EF) 0x9F m =
  Ret (Z.land d 0xFF,
       mk_machine (csctrl m) (reads m + 0 + 1 + 0 + 1 + 1)
         (trace m ++ sr_trace (bus_const 0x1EF) (reads m) (0 + 1) ++
          [MmioWrite SPI_DR (to_u32 0x9F)] ++
          sr_trace (bus_const 0x1EF) (reads m + 0 + 1) (0 + 1) ++
          [MmioRead SPI_DR d])).
Proof.
  apply (spi_transfer_byte_returns (bus_const 0x1EF) 0x9F (mk_machine 0x11 0 []) 0 0 0).
  - intros k Hk. lia.
  - reflexivity.
  - intros k Hk. lia.
  - reflexivity.
  - lia.
  - lia.
Defined.

End JedecFacts.
